(** * vmware_tui: the cache, the refresh gate and the background poller

    A shallow embedding of
      - [api/vm_get.py]   ([get_vm_list], [get_vm_power_state]),
      - [api/vm_put.py]   ([vm_action]),
      - [ui/main_menu.py] ([MainMenu.refresh_vm_list]),
      - [__init__.py]     ([vm_refresh_worker]),
    as programs of a state-and-exception monad over the module globals,
    the heap of VM dictionaries and the lock, run against an environment
    that answers every call leaving the process (clock, HTTP client,
    curses, the other thread). *)

From Stdlib Require Import QArith.
From stdpp Require Import gmap strings list pretty.

Local Open Scope Q_scope.
Local Open Scope string_scope.

(** ** Data *)

(** Python exceptions, as far as the [except] clauses of the program tell
    them apart: [requests.Timeout] is a [requests.RequestException], which
    is an [Exception]. *)
Inductive ExnKind := KTimeout | KRequestException | KException.

Record Exn := { exn_kind : ExnKind; exn_str : string }.

(** One element of the JSON array answered by [GET /vms].  [RawBad] is an
    element on which the loop body raises before it reaches [if vm_id]
    (not an object, so [vm.get] raises; or a path that is not a string, so
    [re.search] raises).  In [RawDict] a field is [None] when the key is
    absent. *)
Inductive RawEntry :=
| RawBad (e : Exn)
| RawDict (raw_id : option string) (raw_path : option string).

Inductive ListJson :=
| LJsonRaises (e : Exn)                (* [response.json()] raises, or is not iterable *)
| LJsonItems (items : list RawEntry).

Inductive ListResp :=
| ListRaises (e : Exn)                 (* [requests.get] raises *)
| ListResponse (status_code : Z) (json : ListJson).

Inductive PowerJson :=
| PJsonRaises (e : Exn)                (* [response.json()] or [data.get] raises *)
| PJsonObj (json_power_state : option string).

Inductive PowerResp :=
| PowerRaises (e : Exn)
| PowerResponse (ok : bool) (json : PowerJson).

Inductive PutResp :=
| PutRaises (e : Exn)
| PutResponse (status_code : Z) (text : string).

(** The VM dictionaries that [get_vm_list] keeps: the JSON object with the
    two keys it adds. *)
Record VM := {
  vm_id : string;
  vm_path : option string;
  vm_name : string;
  vm_power_state : string
}.

(** Dictionaries are shared between [vm_list_cache] and
    [main_menu.vm_list] and mutated in place by the worker, so lists hold
    references into a heap. *)
Abbreviation loc := nat.

Inductive Submenu := ConfigMenu | VMMenu (vm : string).

(** What [main_menu.current_menu] reads as: the attribute may be missing
    ([hasattr] false), [None] (main menu), or a submenu. *)
Inductive MenuAttr := NoAttr | Attr (m : option Submenu).

Inductive Event :=
| EvLog (message level : string) (refresh : bool)
| EvGetVMs                                   (* GET {VMWARE_API_URL} *)
| EvGetPower (id : string)                   (* GET {VMWARE_API_URL}/{id}/power *)
| EvPutPower (id : string) (body : string)   (* PUT {VMWARE_API_URL}/{id}/power *)
| EvAddApiMessage (msg : string)
| EvDrawScreen
| EvSleep (seconds : Q)
| EvAcquire (acquired : bool)
| EvRelease.

(** Everything outside the modelled code.  The answers are indexed by the
    number of questions asked so far ([steps]), so that two calls may get
    different answers. *)
Record Env := {
  env_time : nat -> Q;                        (* [time.time()] *)
  env_get_vms : nat -> ListResp;
  env_get_power : nat -> string -> PowerResp;
  env_put_power : nat -> string -> string -> PutResp;
  env_draw_screen : nat -> option Exn;        (* [Some e]: curses raises *)
  env_lock_wait : nat -> bool;                (* lock held elsewhere: released within the timeout? *)
  env_current_menu : nat -> MenuAttr;         (* written by the interactive loop *)
  env_re_search : string -> option string;    (* group 1 of the [re.search] in [clean_vm_name] *)
  env_stem : string -> string;                (* [os.path.splitext(os.path.basename(p))[0]] *)
  VMWARE_API_URL : string                     (* [os.getenv('VMWARE_API_URL', ..)] *)
}.

Record MainMenu := {
  vm_list : list loc;
  _shutdown : bool
}.

Record World := {
  (* globals of api/vm_get.py *)
  vm_list_cache : list loc;
  last_refresh : Q;
  power_state_cache : gmap string (Q * string);
  (* the dictionaries *)
  heap : gmap loc VM;
  (* config/settings.py *)
  menu_lock : bool;                           (* [true]: locked *)
  (* the MainMenu instance *)
  main_menu : MainMenu;
  (* locals of vm_refresh_worker *)
  last_full_refresh : Q;
  last_power_check : Q;
  (* interaction with the environment *)
  steps : nat;
  trace : list Event                          (* oldest first *)
}.

Definition CACHE_TIMEOUT : Q := 5.

Definition Qltb (x y : Q) : bool := negb (Qle_bool y x).

(** ** The monad *)

Inductive Outcome (A : Type) :=
| Ok (a : A)
| Raise (e : Exn).
Arguments Ok {A} a.
Arguments Raise {A} e.

Definition M (A : Type) : Type := World -> Outcome A * World.

Definition ret {A} (a : A) : M A := fun w => (Ok a, w).

Definition bind {A B} (m : M A) (k : A -> M B) : M B :=
  fun w => match m w with
           | (Ok a, w') => k a w'
           | (Raise e, w') => (Raise e, w')
           end.

Definition raise {A} (e : Exn) : M A := fun w => (Raise e, w).

(** [try: m  except Exception as e: h e] *)
Definition try_except {A} (m : M A) (h : Exn -> M A) : M A :=
  fun w => match m w with
           | (Ok a, w') => (Ok a, w')
           | (Raise e, w') => h e w'
           end.

(** [try: m  finally: f]; an exception of [f] replaces the one of [m]. *)
Definition try_finally {A} (m : M A) (f : M unit) : M A :=
  fun w => match m w with
           | (r, w') => match f w' with
                        | (Ok _, w'') => (r, w'')
                        | (Raise e, w'') => (Raise e, w'')
                        end
           end.

Definition gets {A} (f : World -> A) : M A := fun w => (Ok (f w), w).
Definition modify (f : World -> World) : M unit := fun w => (Ok tt, f w).

Declare Scope prog_scope.
Delimit Scope prog_scope with prog.
Bind Scope prog_scope with M.
Notation "'let*' x ':=' m 'in' k" := (bind m (fun x => k))
  (at level 10, x name, m at level 100, k at level 200) : prog_scope.
Notation "m >> k" := (bind m (fun _ => k))
  (at level 100, k at level 200, right associativity) : prog_scope.
Local Open Scope prog_scope.

(** ** Assignments *)

Definition set_vm_list_cache (v : list loc) (w : World) : World :=
  {| vm_list_cache := v; last_refresh := last_refresh w;
     power_state_cache := power_state_cache w; heap := heap w;
     menu_lock := menu_lock w; main_menu := main_menu w;
     last_full_refresh := last_full_refresh w;
     last_power_check := last_power_check w;
     steps := steps w; trace := trace w |}.

Definition set_last_refresh (v : Q) (w : World) : World :=
  {| vm_list_cache := vm_list_cache w; last_refresh := v;
     power_state_cache := power_state_cache w; heap := heap w;
     menu_lock := menu_lock w; main_menu := main_menu w;
     last_full_refresh := last_full_refresh w;
     last_power_check := last_power_check w;
     steps := steps w; trace := trace w |}.

Definition set_power_state_cache (v : gmap string (Q * string)) (w : World) : World :=
  {| vm_list_cache := vm_list_cache w; last_refresh := last_refresh w;
     power_state_cache := v; heap := heap w;
     menu_lock := menu_lock w; main_menu := main_menu w;
     last_full_refresh := last_full_refresh w;
     last_power_check := last_power_check w;
     steps := steps w; trace := trace w |}.

Definition set_heap (v : gmap loc VM) (w : World) : World :=
  {| vm_list_cache := vm_list_cache w; last_refresh := last_refresh w;
     power_state_cache := power_state_cache w; heap := v;
     menu_lock := menu_lock w; main_menu := main_menu w;
     last_full_refresh := last_full_refresh w;
     last_power_check := last_power_check w;
     steps := steps w; trace := trace w |}.

Definition set_menu_lock (v : bool) (w : World) : World :=
  {| vm_list_cache := vm_list_cache w; last_refresh := last_refresh w;
     power_state_cache := power_state_cache w; heap := heap w;
     menu_lock := v; main_menu := main_menu w;
     last_full_refresh := last_full_refresh w;
     last_power_check := last_power_check w;
     steps := steps w; trace := trace w |}.

Definition set_main_menu (v : MainMenu) (w : World) : World :=
  {| vm_list_cache := vm_list_cache w; last_refresh := last_refresh w;
     power_state_cache := power_state_cache w; heap := heap w;
     menu_lock := menu_lock w; main_menu := v;
     last_full_refresh := last_full_refresh w;
     last_power_check := last_power_check w;
     steps := steps w; trace := trace w |}.

Definition set_last_full_refresh (v : Q) (w : World) : World :=
  {| vm_list_cache := vm_list_cache w; last_refresh := last_refresh w;
     power_state_cache := power_state_cache w; heap := heap w;
     menu_lock := menu_lock w; main_menu := main_menu w;
     last_full_refresh := v;
     last_power_check := last_power_check w;
     steps := steps w; trace := trace w |}.

Definition set_last_power_check (v : Q) (w : World) : World :=
  {| vm_list_cache := vm_list_cache w; last_refresh := last_refresh w;
     power_state_cache := power_state_cache w; heap := heap w;
     menu_lock := menu_lock w; main_menu := main_menu w;
     last_full_refresh := last_full_refresh w;
     last_power_check := v;
     steps := steps w; trace := trace w |}.

Definition set_steps (v : nat) (w : World) : World :=
  {| vm_list_cache := vm_list_cache w; last_refresh := last_refresh w;
     power_state_cache := power_state_cache w; heap := heap w;
     menu_lock := menu_lock w; main_menu := main_menu w;
     last_full_refresh := last_full_refresh w;
     last_power_check := last_power_check w;
     steps := v; trace := trace w |}.

Definition set_trace (v : list Event) (w : World) : World :=
  {| vm_list_cache := vm_list_cache w; last_refresh := last_refresh w;
     power_state_cache := power_state_cache w; heap := heap w;
     menu_lock := menu_lock w; main_menu := main_menu w;
     last_full_refresh := last_full_refresh w;
     last_power_check := last_power_check w;
     steps := steps w; trace := v |}.

(** ** Primitives *)

Section Program.

Variable env : Env.

Definition emit (ev : Event) : M unit :=
  modify (fun w => set_trace (trace w ++ [ev])%list w).

(** Ask the environment: the answer at the current step, and one step on. *)
Definition ask {A} (f : Env -> nat -> A) : M A :=
  fun w => (Ok (f env (steps w)), set_steps (S (steps w)) w).

Definition time_time : M Q := ask env_time.

Definition time_sleep (seconds : Q) : M unit := emit (EvSleep seconds).

(** [utils/logging.py]: the message goes to a log file and, unless
    [refresh], to the queue of the on-screen panel. *)
Definition log_message (message level : string) (refresh : bool) : M unit :=
  emit (EvLog message level refresh).

(** [clean_vm_name] of api/vm_get.py. *)
Definition clean_vm_name (path : string) : string :=
  match env_re_search env path with
  | Some g => g
  | None => env_stem env path
  end.

(** ** api/vm_get.py *)

(** The part of [get_vm_power_state] under [try]. *)
Definition fetch_power_state (vm_id : string) (current_time : Q) : M string :=
  try_except
    (log_message ("API CALL: GET /vms/" +:+ vm_id +:+ "/power (Get Power State)") "INFO" false >>
     emit (EvGetPower vm_id) >>
     let* response := ask (fun e n => env_get_power e n vm_id) in
     match response with
     | PowerRaises e => raise e
     | PowerResponse true (PJsonRaises e) => raise e
     | PowerResponse true (PJsonObj st) =>
         let state := default "UNKNOWN" st in
         modify (fun w => set_power_state_cache
                            (<[vm_id := (current_time, state)]> (power_state_cache w)) w) >>
         ret state
     | PowerResponse false _ => ret "UNKNOWN"
     end)
    (fun e =>
       log_message ("Error getting VM power state: " +:+ exn_str e) "ERROR" false >>
       ret "UNKNOWN").

Definition get_vm_power_state (vm_id : string) : M string :=
  let* current_time := time_time in
  let* cache := gets power_state_cache in
  match cache !! vm_id with
  | Some (cache_time, state) =>
      if Qltb (current_time - cache_time) CACHE_TIMEOUT
      then ret state
      else fetch_power_state vm_id current_time
  | None => fetch_power_state vm_id current_time
  end.

(** [vm_list.append(vm)]: the dictionary is a new object. *)
Definition alloc (vm : VM) : M loc :=
  fun w => let l := fresh (dom (heap w)) in
           (Ok l, set_heap (<[l := vm]> (heap w)) w).

(** Python truth value of [vm.get('id')]. *)
Definition truthy (o : option string) : bool :=
  match o with
  | Some s => negb (String.eqb s "")
  | None => false
  end.

(** The body of the [for vm in response.json()] loop with its own
    [try]/[except]; [acc] is the local [vm_list]. *)
Definition process_entry (vm : RawEntry) (acc : list loc) : M (list loc) :=
  try_except
    (match vm with
     | RawBad e => raise e
     | RawDict raw_id raw_path =>
         let name := clean_vm_name (default "" raw_path) in
         if truthy raw_id then
           let id := default "" raw_id in
           let* power_state := get_vm_power_state id in
           let* l := alloc {| vm_id := id; vm_path := raw_path;
                              vm_name := name; vm_power_state := power_state |} in
           ret (acc ++ [l])%list
         else ret acc
     end)
    (fun e =>
       log_message ("Error processing VM entry: " +:+ exn_str e) "ERROR" false >>
       ret acc).

Fixpoint process_entries (items : list RawEntry) (acc : list loc) : M (list loc) :=
  match items with
  | [] => ret acc
  | vm :: rest => let* acc' := process_entry vm acc in process_entries rest acc'
  end.

(** The part of [get_vm_list] from its [try] on: [Some l] is the [return
    vm_list] inside the [try], [None] falls through to [return []]. *)
Definition fetch_vm_list : M (list loc) :=
  let* r :=
    try_except
      (log_message "API CALL: GET /vms (List VMs)" "INFO" false >>
       emit EvGetVMs >>
       let* response := ask env_get_vms in
       match response with
       | ListRaises e => raise e
       | ListResponse status_code json =>
           if (status_code =? 200)%Z then
             match json with
             | LJsonRaises e => raise e
             | LJsonItems items =>
                 let* vm_list := process_entries items [] in
                 modify (set_vm_list_cache vm_list) >>
                 let* now := time_time in
                 modify (set_last_refresh now) >>
                 ret (Some vm_list)
             end
           else ret None
       end)
      (fun e =>
         log_message ("Error getting VM list: " +:+ exn_str e) "ERROR" false >>
         ret None) in
  match r with
  | Some vm_list => ret vm_list
  | None => ret []
  end.

(** The guard of [get_vm_list]; [and] evaluates left to right and stops
    at the first false operand, so the clock is read only when [force] is
    false and the cached list is not empty. *)
Definition cache_is_fresh (force : bool) : M bool :=
  if force then ret false
  else
    let* cached := gets vm_list_cache in
    match cached with
    | [] => ret false
    | _ :: _ =>
        let* now := time_time in
        let* lr := gets last_refresh in
        ret (Qltb (now - lr) CACHE_TIMEOUT)
    end.

Definition get_vm_list (force : bool) : M (list loc) :=
  let* fresh_enough := cache_is_fresh force in
  if fresh_enough then gets vm_list_cache
  else fetch_vm_list.

(** ** config/settings.py: [menu_lock = threading.Lock()] *)

(** [menu_lock.acquire(timeout=t)]: a free lock is taken at once; a lock
    held by the other thread is taken only if that thread releases it
    within the timeout, which the environment decides. *)
Definition menu_lock_acquire (timeout : Q) : M bool :=
  let* held := gets menu_lock in
  let* acquired := (if held then ask env_lock_wait else ret true) in
  (if acquired then modify (set_menu_lock true) else ret tt) >>
  emit (EvAcquire acquired) >>
  ret acquired.

(** [menu_lock.release()]: releasing an unlocked lock is a RuntimeError. *)
Definition menu_lock_release : M unit :=
  let* held := gets menu_lock in
  if held then modify (set_menu_lock false) >> emit EvRelease
  else raise {| exn_kind := KException; exn_str := "release unlocked lock" |}.

(** ** ui/main_menu.py *)

(** [MainMenu.draw_screen]: drawing is curses' business; it may raise. *)
Definition draw_screen : M unit :=
  emit EvDrawScreen >>
  let* r := ask env_draw_screen in
  match r with
  | Some e => raise e
  | None => ret tt
  end.

Definition set_vm_list (v : list loc) (w : World) : World :=
  set_main_menu {| vm_list := v; _shutdown := _shutdown (main_menu w) |} w.

Definition set_shutdown (v : bool) (w : World) : World :=
  set_main_menu {| vm_list := vm_list (main_menu w); _shutdown := v |} w.

Definition py_bool (b : bool) : string := if b then "True" else "False".

Definition refresh_vm_list (force : bool) : M unit :=
  let* old := gets (fun w => vm_list (main_menu w)) in
  let old_count := length old in
  log_message ("Starting VM list refresh (force=" +:+ py_bool force +:+ ")...") "INFO" true >>
  try_finally
    (let* l := get_vm_list force in
     modify (set_vm_list l) >>
     let new_count := length l in
     log_message ("VM list refresh complete. VMs: " +:+ pretty old_count +:+ " -> "
                  +:+ pretty new_count) "INFO" true)
    draw_screen.

(** ** __init__.py: [vm_refresh_worker] *)

Definition REFRESH_INTERVAL : Q := 5.
Definition POWER_STATE_INTERVAL : Q := 10.
Definition FULL_REFRESH_INTERVAL : Q := 30.

(** [hasattr(main_menu, 'current_menu') and main_menu.current_menu is not None] *)
Definition submenu_active (a : MenuAttr) : bool :=
  match a with
  | Attr (Some _) => true
  | _ => false
  end.

(** [vm['power_state'] = s] on the dictionary at [l]. *)
Definition store_power_state (l : loc) (s : string) : M unit :=
  modify (fun w =>
    set_heap (alter (fun vm => {| vm_id := vm_id vm; vm_path := vm_path vm;
                                  vm_name := vm_name vm; vm_power_state := s |})
                    l (heap w)) w).

(** The [for vm in main_menu.vm_list] loop of the power-state branch. *)
Fixpoint refresh_power_states (vms : list loc) : M unit :=
  match vms with
  | [] => ret tt
  | l :: rest =>
      let* h := gets heap in
      match h !! l with
      | Some vm =>
          if negb (String.eqb (vm_id vm) "") then
            let* s := get_vm_power_state (vm_id vm) in
            store_power_state l s
          else ret tt
      | None => ret tt
      end >>
      refresh_power_states rest
  end.

(** What the worker does while it holds the lock (lines 86 to 97). *)
Definition locked_refresh (current_time : Q) : M unit :=
  let* a := ask env_current_menu in
  if negb (submenu_active a) then
    let* lf := gets last_full_refresh in
    let* lp := gets last_power_check in
    if Qle_bool FULL_REFRESH_INTERVAL (current_time - lf) then
      refresh_vm_list true >>
      modify (set_last_full_refresh current_time)
    else if Qle_bool POWER_STATE_INTERVAL (current_time - lp) then
      (let* vms := gets (fun w => vm_list (main_menu w)) in
       refresh_power_states vms) >>
      draw_screen >>
      modify (set_last_power_check current_time)
    else ret tt
  else ret tt.

(** The [try] block of one iteration of the [while] loop. *)
Definition tick_body : M unit :=
  let* current_time := time_time in
  let* a := ask env_current_menu in
  if submenu_active a then
    time_sleep REFRESH_INTERVAL                          (* continue *)
  else
    let* acquired := menu_lock_acquire 1 in
    (if acquired then try_finally (locked_refresh current_time) menu_lock_release
     else ret tt) >>
    time_sleep REFRESH_INTERVAL.

(** One iteration of the [while] loop, with its [except]. *)
Definition tick : M unit :=
  try_except tick_body
    (fun e =>
       log_message ("Error in refresh worker: " +:+ exn_str e) "ERROR" false >>
       let* sd := gets (fun w => _shutdown (main_menu w)) in
       if negb sd then time_sleep 1 else ret tt).

(** [while not main_menu._shutdown], for at most [fuel] iterations. *)
Fixpoint worker_loop (fuel : nat) : M unit :=
  match fuel with
  | O => ret tt
  | S n =>
      let* sd := gets (fun w => _shutdown (main_menu w)) in
      if sd then ret tt else tick >> worker_loop n
  end.

Definition vm_refresh_worker (fuel : nat) : M unit :=
  modify (set_last_full_refresh 0) >>
  modify (set_last_power_check 0) >>
  modify (set_shutdown false) >>
  worker_loop fuel.

(** ** api/vm_put.py *)

Definition action_map (action : string) : option string :=
  if String.eqb action "start" then Some "on"
  else if String.eqb action "stop" then Some "off"
  else if String.eqb action "shutdown" then Some "shutdown"
  else if String.eqb action "suspend" then Some "suspend"
  else None.

(** The pattern that [vm_action] repeats at each of its log sites:
    [if menu_lock.acquire(timeout=1.0): try: log_message(..) finally:
    menu_lock.release()]. *)
Definition locked_log (message level : string) : M unit :=
  let* acquired := menu_lock_acquire 1 in
  if acquired then try_finally (log_message message level false) menu_lock_release
  else ret tt.

Definition add_api_message (menu : bool) (msg : string) : M unit :=
  if menu then emit (EvAddApiMessage msg) else ret tt.

Definition rest_v1_json : string := "application/vnd.vmware.vmw.rest-v1+json".

Definition vm_action_try (vm_id action : string) (force menu : bool) : M bool :=
  match action_map action with
  | None =>
      locked_log ("Invalid power action requested: " +:+ action) "ERROR" >>
      ret false
  | Some api_action =>
      let url := VMWARE_API_URL env +:+ "/" +:+ vm_id +:+ "/power" in
      let headers := "{'Accept': '" +:+ rest_v1_json +:+ "', 'Content-Type': '"
                     +:+ rest_v1_json +:+ "'}" in
      let m1 := "Request: PUT " +:+ url in
      let m2 := "Headers: " +:+ headers in
      let m3 := "Body: " +:+ api_action in
      log_message "API Request details:" "INFO" false >>
      log_message m1 "INFO" false >> add_api_message menu m1 >>
      log_message m2 "INFO" false >> add_api_message menu m2 >>
      log_message m3 "INFO" false >> add_api_message menu m3 >>
      log_message ("API CALL: PUT /vms/" +:+ vm_id +:+ "/power action=" +:+ action
                   +:+ " force=" +:+ py_bool force) "INFO" false >>
      emit (EvPutPower vm_id api_action) >>
      let* response := ask (fun e n => env_put_power e n vm_id api_action) in
      match response with
      | PutRaises e => raise e
      | PutResponse status_code text =>
          let response_msg := "Response: " +:+ pretty status_code +:+ " - "
                              +:+ (if String.eqb text "" then "No content" else text) in
          log_message ("API " +:+ response_msg) "INFO" false >>
          add_api_message menu response_msg >>
          if ((status_code =? 200) || (status_code =? 204))%Z then
            locked_log ("Power " +:+ action +:+ " request accepted by API") "INFO" >>
            ret true
          else
            locked_log ("Failed to " +:+ action +:+ " VM. Status code: "
                        +:+ pretty status_code) "ERROR" >>
            ret false
      end
  end.

Definition vm_action (vm_id action : string) (force menu : bool) : M bool :=
  try_except (vm_action_try vm_id action force menu)
    (fun e =>
       match exn_kind e with
       | KTimeout =>
           locked_log "Request timed out while attempting power action" "ERROR"
       | KRequestException =>
           locked_log ("Network error during power action: " +:+ exn_str e) "ERROR"
       | KException =>
           locked_log ("Error during " +:+ action +:+ " operation: " +:+ exn_str e) "ERROR"
       end >>
       ret false).

End Program.

(** ** Running a program *)

Definition initial_world : World :=
  {| vm_list_cache := []; last_refresh := 0; power_state_cache := ∅;
     heap := ∅; menu_lock := false;
     main_menu := {| vm_list := []; _shutdown := false |};
     last_full_refresh := 0; last_power_check := 0;
     steps := O; trace := [] |}.

(** The events a program adds to the trace of [w]. *)
Definition new_events (w w' : World) : list Event :=
  drop (length (trace w)) (trace w').

Definition is_get_vms (ev : Event) : bool :=
  match ev with EvGetVMs => true | _ => false end.

Definition is_get_power (ev : Event) : bool :=
  match ev with EvGetPower _ => true | _ => false end.

(** An event that reaches the hypervisor. *)
Definition is_client_call (ev : Event) : bool :=
  match ev with
  | EvGetVMs | EvGetPower _ | EvPutPower _ _ => true
  | _ => false
  end.

(** A list request that does not yield a list: [requests.get] raised, the
    status is not 200, or the body could not be read as a list. *)
Definition list_failed (r : ListResp) : bool :=
  match r with
  | ListRaises _ => true
  | ListResponse status_code json =>
      negb (status_code =? 200)%Z ||
      match json with LJsonRaises _ => true | LJsonItems _ => false end
  end.

(** A power request that does not yield a state: [requests.get] raised,
    the response is not [ok], or its body could not be read. *)
Definition power_failed (r : PowerResp) : bool :=
  match r with
  | PowerRaises _ => true
  | PowerResponse false _ => true
  | PowerResponse true (PJsonRaises _) => true
  | PowerResponse true (PJsonObj _) => false
  end.

(** The cached power state of [id] may not be served at time [now]:
    there is none, or it is [CACHE_TIMEOUT] old. *)
Definition power_entry_stale (w : World) (id : string) (now : Q) : Prop :=
  forall t s, power_state_cache w !! id = Some (t, s) -> CACHE_TIMEOUT <= now - t.

(** The step at which [get_vm_list] would send its list request: the one
    after its guard. *)
Definition list_request_step (env : Env) (force : bool) (w : World) : nat :=
  steps (snd (cache_is_fresh env force w)).

(** ** Vocabulary of the statements *)

(** [preserves R m]: whatever [m] does and however it ends, the world it
    leaves is [R]-related to the one it started in. *)
Definition preserves {A} (R : relation World) (m : M A) : Prop :=
  forall w, R w (snd (m w)).

(** Lock, timers of the worker and shutdown flag are as before. *)
Definition same_worker (w w' : World) : Prop :=
  menu_lock w' = menu_lock w /\
  last_full_refresh w' = last_full_refresh w /\
  last_power_check w' = last_power_check w /\
  _shutdown (main_menu w') = _shutdown (main_menu w).

(** The inventory cache entry and the menu's list are as before. *)
Definition same_inventory (w w' : World) : Prop :=
  vm_list_cache w' = vm_list_cache w /\
  last_refresh w' = last_refresh w /\
  main_menu w' = main_menu w.

(** Dictionaries are only added. *)
Definition heap_grows (w w' : World) : Prop :=
  forall l vm, heap w !! l = Some vm -> heap w' !! l = Some vm.

(** Dictionaries stay where they are; only [power_state] may change. *)
Definition same_vms (w w' : World) : Prop :=
  forall l, vm_id <$> (heap w' !! l) = vm_id <$> (heap w !! l).

(** The trace grows by events that all satisfy [P]. *)
Definition emits (P : Event -> Prop) (w w' : World) : Prop :=
  exists evs, trace w' = (trace w ++ evs)%list /\ Forall P evs.

Definition not_get_vms (ev : Event) : Prop := is_get_vms ev = false.
Definition not_lock_event (ev : Event) : Prop :=
  match ev with EvAcquire _ | EvRelease => False | _ => True end.

Definition never_raises {A} (m : M A) : Prop :=
  forall w, exists a, fst (m w) = Ok a.

(** How many of the events added between [w] and [w'] satisfy [p]. *)
Definition calls (p : Event -> bool) (w w' : World) : nat :=
  length (List.filter p (new_events w w')).

(** ** Vocabulary of the gate *)

Definition is_acquired (ev : Event) : bool :=
  match ev with EvAcquire true => true | _ => false end.

Definition is_release (ev : Event) : bool :=
  match ev with EvRelease => true | _ => false end.

Definition is_lock_event (ev : Event) : bool :=
  match ev with EvAcquire _ | EvRelease => true | _ => false end.

(** What happened to the lock between [w] and [w']. *)
Definition lock_events (w w' : World) : list Event :=
  List.filter is_lock_event (new_events w w').

Definition same_lock (w w' : World) : Prop := menu_lock w' = menu_lock w.

(** The three ways a piece of code may have used the gate: not at all;
    one acquire that timed out; one acquire followed by its release, with
    the lock free at the end. *)
Definition gate_paired (w w' : World) : Prop :=
  exists evs, trace w' = (trace w ++ evs)%list /\
    ((List.filter is_lock_event evs = [] /\ menu_lock w' = menu_lock w) \/
     (List.filter is_lock_event evs = [EvAcquire false] /\ menu_lock w' = menu_lock w) \/
     (List.filter is_lock_event evs = [EvAcquire true; EvRelease] /\ menu_lock w' = false)).

(** No use of the gate at all. *)
Definition no_gate (w w' : World) : Prop :=
  same_lock w w' /\ emits not_lock_event w w'.

(** A program that has used the gate in one of the three ways when it
    returns, and not at all when it raises. *)
Definition raises_clean {A} (m : M A) : Prop :=
  forall w, match fst (m w) with
            | Ok _ => gate_paired w (snd (m w))
            | Raise _ => no_gate w (snd (m w))
            end.

(** ** Where a power state comes from *)

(** Between [w0] and [w] the state [s] was obtained for [id] from the
    client (a power request for [id] was sent), or from the entry that the
    power-state cache held at [w0], read at a moment when it was younger
    than [CACHE_TIMEOUT]. *)
Definition sourced (env : Env) (w0 w : World) (id s : string) : Prop :=
  In (EvGetPower id) (new_events w0 w) \/
  exists t n, power_state_cache w0 !! id = Some (t, s) /\
              (steps w0 <= n < steps w)%nat /\
              env_time env n - t < CACHE_TIMEOUT.

(** The dictionary at [l] holds a state that was so obtained. *)
Definition vm_sourced (env : Env) (w0 w : World) (l : loc) : Prop :=
  exists vm, heap w !! l = Some vm /\ sourced env w0 w (vm_id vm) (vm_power_state vm).

(** Every power-state cache entry of [w] was there at [w0] or was written
    after a power request sent since. *)
Definition power_history (w0 w : World) : Prop :=
  (steps w0 <= steps w)%nat /\
  exists evs, trace w = (trace w0 ++ evs)%list /\
    forall id t s, power_state_cache w !! id = Some (t, s) ->
      In (EvGetPower id) evs \/ power_state_cache w0 !! id = Some (t, s).

(** ** Vocabulary of the worker *)

(** Caches, dictionaries, menu and timers are the same. *)
Definition same_data (w w' : World) : Prop :=
  vm_list_cache w' = vm_list_cache w /\ last_refresh w' = last_refresh w /\
  power_state_cache w' = power_state_cache w /\ heap w' = heap w /\
  main_menu w' = main_menu w /\
  last_full_refresh w' = last_full_refresh w /\
  last_power_check w' = last_power_check w.

Definition not_client_call (ev : Event) : Prop := is_client_call ev = false.

(** One turn of the [for vm in main_menu.vm_list] loop, for the
    dictionary at [l1]. *)
Definition power_turn (env : Env) (l1 : loc) : M unit :=
  fun w =>
    match heap w !! l1 with
    | Some vm =>
        if negb (String.eqb (vm_id vm) "") then
          bind (get_vm_power_state env (vm_id vm)) (fun s => store_power_state l1 s) w
        else ret tt w
    | None => ret tt w
    end.

(** ** Scenarios *)

Definition timeout_exn : Exn := {| exn_kind := KTimeout; exn_str := "timed out" |}.
Definition curses_exn : Exn := {| exn_kind := KException; exn_str := "addwstr() returned ERR" |}.

Definition vm_a : VM :=
  {| vm_id := "A"; vm_path := Some "/vms/A/A.vmx"; vm_name := "A";
     vm_power_state := "poweredOn" |}.

Definition three_vms : list RawEntry :=
  [RawDict (Some "A") (Some "/vms/A/A.vmx");
   RawDict (Some "B") (Some "/vms/B/B.vmx");
   RawDict (Some "C") (Some "/vms/C/C.vmx")].

(** An environment from a clock, a list answer, a power answer and a
    drawing answer; the main menu owns the screen and the lock is never
    contended. *)
Definition mk_env (clock : nat -> Q) (vms : nat -> ListResp)
    (power : nat -> string -> PowerResp) (draw : nat -> option Exn) : Env :=
  {| env_time := clock; env_get_vms := vms; env_get_power := power;
     env_put_power := fun _ _ _ => PutResponse 204 "";
     env_draw_screen := draw; env_lock_wait := fun _ => false;
     env_current_menu := fun _ => Attr None;
     env_re_search := fun _ => None; env_stem := fun p => p;
     VMWARE_API_URL := "http://localhost:8697/api/vms" |}.

Definition power_on : nat -> string -> PowerResp :=
  fun _ _ => PowerResponse true (PJsonObj (Some "poweredOn")).
Definition power_down : nat -> string -> PowerResp :=
  fun _ _ => PowerRaises timeout_exn.
Definition draw_ok : nat -> option Exn := fun _ => None.

(** The hypervisor is unreachable at time 100. *)
Definition env_down : Env :=
  mk_env (fun _ => 100) (fun _ => ListRaises timeout_exn) power_down draw_ok.

(** The hypervisor answers 500 at time 100. *)
Definition env_500 : Env :=
  mk_env (fun _ => 100) (fun _ => ListResponse 500 (LJsonItems [])) power_down draw_ok.

(** A world in which VM "A" was listed and its state fetched at time 0. *)
Definition world_a : World :=
  {| vm_list_cache := [0%nat]; last_refresh := 0;
     power_state_cache := {["A" := (0, "poweredOn")]};
     heap := {[0%nat := vm_a]}; menu_lock := false;
     main_menu := {| vm_list := [0%nat]; _shutdown := false |};
     last_full_refresh := 0; last_power_check := 0;
     steps := O; trace := [] |}.

(** The hypervisor lists three running VMs; the clock shows 0 for the
    first eight questions, then 2, then 6. *)
Definition env_three : Env :=
  mk_env (fun n => if (n <? 8)%nat then 0 else if (n =? 8)%nat then 2 else 6)
         (fun _ => ListResponse 200 (LJsonItems three_vms)) power_on draw_ok.

(** The hypervisor lists no VM for the first request and three from then
    on; the clock shows 0 for the first two questions, then 2. *)
Definition env_empty_then_three : Env :=
  mk_env (fun n => if (n <? 2)%nat then 0 else 2)
         (fun n => if (n =? 0)%nat then ListResponse 200 (LJsonItems [])
                   else ListResponse 200 (LJsonItems three_vms))
         power_on draw_ok.

(** A submenu owns the screen. *)
Definition env_submenu : Env :=
  {| env_time := fun _ => 100;
     env_get_vms := fun _ => ListResponse 200 (LJsonItems three_vms);
     env_get_power := power_on;
     env_put_power := fun _ _ _ => PutResponse 204 "";
     env_draw_screen := draw_ok; env_lock_wait := fun _ => false;
     env_current_menu := fun _ => Attr (Some (VMMenu "A"));
     env_re_search := fun _ => None; env_stem := fun p => p;
     VMWARE_API_URL := "http://localhost:8697/api/vms" |}.

(** The hypervisor lists three VMs at time 100, and curses fails. *)
Definition env_draw_fails : Env :=
  mk_env (fun _ => 100) (fun _ => ListResponse 200 (LJsonItems three_vms)) power_on
         (fun _ => Some curses_exn).

(** The power request of [vm_action] times out. *)
Definition env_put_timeout : Env :=
  {| env_time := fun _ => 100;
     env_get_vms := fun _ => ListRaises timeout_exn;
     env_get_power := power_down;
     env_put_power := fun _ _ _ => PutRaises timeout_exn;
     env_draw_screen := draw_ok; env_lock_wait := fun _ => false;
     env_current_menu := fun _ => Attr (Some (VMMenu "A"));
     env_re_search := fun _ => None; env_stem := fun p => p;
     VMWARE_API_URL := "http://localhost:8697/api/vms" |}.

(** "A" was listed at time 0 and its power state last fetched at time 8
    (by a power check of the worker, say). *)
Definition world_a_checked_at_8 : World :=
  {| vm_list_cache := [0%nat]; last_refresh := 0;
     power_state_cache := {["A" := (8, "poweredOn")]};
     heap := {[0%nat := vm_a]}; menu_lock := false;
     main_menu := {| vm_list := [0%nat]; _shutdown := false |};
     last_full_refresh := 0; last_power_check := 8;
     steps := O; trace := [] |}.

(** At time 10 the hypervisor lists "A" and would report it off. *)
Definition env_a_at_10 : Env :=
  mk_env (fun _ => 10)
         (fun _ => ListResponse 200 (LJsonItems [RawDict (Some "A") (Some "/vms/A/A.vmx")]))
         (fun _ _ => PowerResponse true (PJsonObj (Some "poweredOff"))) draw_ok.

(** Curses fails at time 100 while a full refresh is due. *)
Definition env_full_draw_fails : Env :=
  mk_env (fun _ => 100)
         (fun _ => ListResponse 200 (LJsonItems [RawDict (Some "A") (Some "/vms/A/A.vmx")]))
         power_on (fun _ => Some curses_exn).

(** The list request fails; the clock shows 100 for the first four
    questions (the worker's first iteration) and 110 from then on. *)
Definition env_outage : Env :=
  mk_env (fun n => if (n <? 4)%nat then 100 else 110)
         (fun _ => ListRaises timeout_exn) power_on draw_ok.

(** Everything answers, at time 20. *)
Definition env_at_20 : Env :=
  mk_env (fun _ => 20) (fun _ => ListResponse 200 (LJsonItems three_vms)) power_on draw_ok.

(** ** More vocabulary: what [vm_action] answers *)

(** Whether the hypervisor accepts the request that [vm_action] sends
    for [action], asked at step [n]. *)
Definition put_accepted (env : Env) (n : nat) (vm_id action : string) : bool :=
  match action_map action with
  | None => false
  | Some api_action =>
      match env_put_power env n vm_id api_action with
      | PutRaises _ => false
      | PutResponse status_code _ => ((status_code =? 200) || (status_code =? 204))%Z
      end
  end.

(** The requests that [vm_action] sends for [action]. *)
Definition put_requests (vm_id action : string) : list Event :=
  match action_map action with
  | None => []
  | Some api_action => [EvPutPower vm_id api_action]
  end.

(** The hypervisor accepts every power request; asked for a power state
    it would answer "poweredOff". *)
Definition env_put_ok : Env :=
  {| env_time := fun _ => 3;
     env_get_vms := fun _ => ListRaises timeout_exn;
     env_get_power := fun _ _ => PowerResponse true (PJsonObj (Some "poweredOff"));
     env_put_power := fun _ _ _ => PutResponse 204 "";
     env_draw_screen := draw_ok; env_lock_wait := fun _ => false;
     env_current_menu := fun _ => Attr (Some (VMMenu "A"));
     env_re_search := fun _ => None; env_stem := fun p => p;
     VMWARE_API_URL := "http://localhost:8697/api/vms" |}.

(** [get_vm_list] goes to the client and the list request fails. *)
Definition list_refresh_failed (env : Env) (force : bool) (w : World) : bool :=
  match fst (cache_is_fresh env force w) with
  | Ok false => list_failed (env_get_vms env (list_request_step env force w))
  | _ => false
  end.

(** ** More vocabulary: the worker's loop *)

Definition is_sleep (ev : Event) : bool :=
  match ev with EvSleep _ => true | _ => false end.

Definition not_sleep (ev : Event) : Prop := is_sleep ev = false.

(** Between [w] and [w'] the code slept [k] times. *)
Definition slept (k : nat) (w w' : World) : Prop :=
  exists evs, trace w' = (trace w ++ evs)%list /\ length (List.filter is_sleep evs) = k.

(** The shutdown flag is as before. *)
Definition same_shutdown (w w' : World) : Prop :=
  _shutdown (main_menu w') = _shutdown (main_menu w).

(** What the worker does in an iteration before it sleeps. *)
Definition tick_work (env : Env) : M unit :=
  bind (time_time env) (fun current_time =>
  bind (ask env env_current_menu) (fun a =>
  if submenu_active a then ret tt
  else
    bind (menu_lock_acquire env 1) (fun acquired =>
    if acquired then try_finally (locked_refresh env current_time) menu_lock_release
    else ret tt))).

(** The lock is held elsewhere and never released in time; curses fails;
    the hypervisor is unreachable. *)
Definition env_hostile : Env :=
  {| env_time := fun n => 100 + inject_Z (Z.of_nat n);
     env_get_vms := fun _ => ListRaises timeout_exn;
     env_get_power := power_down;
     env_put_power := fun _ _ _ => PutRaises timeout_exn;
     env_draw_screen := fun _ => Some curses_exn;
     env_lock_wait := fun n => Nat.even n;
     env_current_menu := fun n => if (n mod 5 =? 0)%nat then Attr (Some ConfigMenu) else Attr None;
     env_re_search := fun _ => None; env_stem := fun p => p;
     VMWARE_API_URL := "http://localhost:8697/api/vms" |}.

(** * The VM menu: ui/vm_menu.py, ui/base_menu.py and [get_vm_details] *)

(** ** Python helpers *)

(** [l[i]] for a Python list: negative indices count from the end; out
    of range is an IndexError ([None] here). *)
Definition py_index {A} (l : list A) (i : Z) : option A :=
  let n := Z.of_nat (length l) in
  if (0 <=? i)%Z then l !! Z.to_nat i
  else if (- n <=? i)%Z then l !! Z.to_nat (n + i)
  else None.

(** [l[-k:]] for [0 < k]. *)
Definition py_last {A} (k : nat) (l : list A) : list A :=
  drop (length l - k) l.

(** [str.lower] on ASCII letters; other bytes are kept. *)
Definition lower_ascii (c : Ascii.ascii) : Ascii.ascii :=
  let n := Ascii.nat_of_ascii c in
  if ((65 <=? n) && (n <=? 90))%nat then Ascii.ascii_of_nat (n + 32) else c.

Fixpoint py_lower (s : string) : string :=
  match s with
  | EmptyString => EmptyString
  | String c r => String (lower_ascii c) (py_lower r)
  end.

(** The ASCII characters on which [str.split()] splits and which
    [str.strip()] strips. *)
Definition is_space (c : Ascii.ascii) : bool :=
  let n := Ascii.nat_of_ascii c in
  (((9 <=? n) && (n <=? 13)) || ((28 <=? n) && (n <=? 32)))%nat.

(** [s.split()]: [cur] is the word being read, reversed. *)
Fixpoint py_split_from (cur : list Ascii.ascii) (s : string) : list string :=
  let flush := match cur with
               | [] => []
               | _ => [String.string_of_list_ascii (rev cur)]
               end in
  match s with
  | EmptyString => flush
  | String c r =>
      if is_space c then (flush ++ py_split_from [] r)%list
      else py_split_from (c :: cur) r
  end.

Definition py_split (s : string) : list string := py_split_from [] s.

(** [s.split(sep)] for a one-character separator: [cur] is the piece
    being read, reversed. *)
Fixpoint py_split_on (sep : Ascii.ascii) (cur : list Ascii.ascii) (s : string)
    : list string :=
  match s with
  | EmptyString => [String.string_of_list_ascii (rev cur)]
  | String c r =>
      if Ascii.eqb c sep then
        String.string_of_list_ascii (rev cur) :: py_split_on sep [] r
      else py_split_on sep (c :: cur) r
  end.

Fixpoint drop_spaces (l : list Ascii.ascii) : list Ascii.ascii :=
  match l with
  | [] => []
  | c :: r => if is_space c then drop_spaces r else l
  end.

(** [s.rstrip()] and [s.strip()]. *)
Definition py_rstrip (s : string) : string :=
  String.string_of_list_ascii (rev (drop_spaces (rev (String.list_ascii_of_string s)))).

Definition py_strip (s : string) : string :=
  String.string_of_list_ascii
    (drop_spaces (rev (drop_spaces (rev (String.list_ascii_of_string s))))).

(** [sub in s]. *)
Definition py_in (sub s : string) : bool :=
  match String.index 0 sub s with
  | Some _ => true
  | None => false
  end.

Definition newline : Ascii.ascii := Ascii.ascii_of_nat 10.

Definition index_error : Exn :=
  {| exn_kind := KException; exn_str := "list index out of range" |}.

Definition type_error : Exn :=
  {| exn_kind := KException; exn_str := "argument of type 'NoneType' is not iterable" |}.

(** ** What the menus ask of the outside *)

(** The JSON object of [GET /vms/{id}]: its keys with their values as
    text. *)
Abbreviation Details := (list (string * string)).

Inductive DetailsJson :=
| DJsonRaises (e : Exn)                (* [response.json()] raises *)
| DJsonNull                            (* the body is [null] *)
| DJsonObject (d : Details).

Inductive DetailsResp :=
| DetailsRaises (e : Exn)              (* [requests.get] raises *)
| DetailsResponse (http_error : option Exn) (json : DetailsJson).
                                       (* [Some e]: [raise_for_status] raises [e] *)

(** [status_log], the queue that [log_message] fills from both threads
    and every menu drains, is answered by the environment: what a drain
    finds. *)
Record MenuEnv := {
  base_env : Env;
  env_get_details : nat -> string -> DetailsResp;
  env_curses : nat -> option Exn;           (* a stretch of curses or theme calls: [Some e] raises *)
  env_status_log : nat -> list string;      (* the messages [get_nowait] hands out until Empty *)
  env_screen_width : nat -> Z               (* [stdscr.getmaxyx()[1]] *)
}.

(** curses key codes *)
Definition KEY_DOWN : Z := 258.
Definition KEY_UP : Z := 259.
Definition KEY_ENTER : Z := 343.
Definition KEY_NEWLINE : Z := 10.           (* [ord('\n')] *)

Module VmMenu.

(** The attributes of a [VMMenu].  [vm_details], [power_state] and
    [_last_power_state] exist only once [update_vm_info] has assigned
    them ([None]: [hasattr] is false).  Of the windows only the width
    of [api_window] is kept, which [add_api_message] reads. *)
Record t := {
  vm_id : string;
  vm_name : string;
  current_row : Z;
  vm_messages : list string;
  last_update : Q;
  update_interval : Q;
  vm_details : option (option Details);
  power_state : option string;
  _last_power_state : option string;
  cached_messages : list string;
  api_messages : list string;
  log_messages : list string;
  api_width : Z
}.

Definition options : list string :=
  ["Start VM"; "Shutdown VM"; "Stop VM"; "Suspend VM"; "Back to Main Menu"].

Definition set_current_row (v : Z) (self : t) : t :=
  {| vm_id := vm_id self;
     vm_name := vm_name self;
     current_row := v;
     vm_messages := vm_messages self;
     last_update := last_update self;
     update_interval := update_interval self;
     vm_details := vm_details self;
     power_state := power_state self;
     _last_power_state := _last_power_state self;
     cached_messages := cached_messages self;
     api_messages := api_messages self;
     log_messages := log_messages self;
     api_width := api_width self |}.

Definition set_vm_messages (v : list string) (self : t) : t :=
  {| vm_id := vm_id self;
     vm_name := vm_name self;
     current_row := current_row self;
     vm_messages := v;
     last_update := last_update self;
     update_interval := update_interval self;
     vm_details := vm_details self;
     power_state := power_state self;
     _last_power_state := _last_power_state self;
     cached_messages := cached_messages self;
     api_messages := api_messages self;
     log_messages := log_messages self;
     api_width := api_width self |}.

Definition set_last_update (v : Q) (self : t) : t :=
  {| vm_id := vm_id self;
     vm_name := vm_name self;
     current_row := current_row self;
     vm_messages := vm_messages self;
     last_update := v;
     update_interval := update_interval self;
     vm_details := vm_details self;
     power_state := power_state self;
     _last_power_state := _last_power_state self;
     cached_messages := cached_messages self;
     api_messages := api_messages self;
     log_messages := log_messages self;
     api_width := api_width self |}.

Definition set_vm_details (v : option Details) (self : t) : t :=
  {| vm_id := vm_id self;
     vm_name := vm_name self;
     current_row := current_row self;
     vm_messages := vm_messages self;
     last_update := last_update self;
     update_interval := update_interval self;
     vm_details := Some v;
     power_state := power_state self;
     _last_power_state := _last_power_state self;
     cached_messages := cached_messages self;
     api_messages := api_messages self;
     log_messages := log_messages self;
     api_width := api_width self |}.

Definition set_power_state (v : string) (self : t) : t :=
  {| vm_id := vm_id self;
     vm_name := vm_name self;
     current_row := current_row self;
     vm_messages := vm_messages self;
     last_update := last_update self;
     update_interval := update_interval self;
     vm_details := vm_details self;
     power_state := Some v;
     _last_power_state := _last_power_state self;
     cached_messages := cached_messages self;
     api_messages := api_messages self;
     log_messages := log_messages self;
     api_width := api_width self |}.

Definition set_last_power_state (v : string) (self : t) : t :=
  {| vm_id := vm_id self;
     vm_name := vm_name self;
     current_row := current_row self;
     vm_messages := vm_messages self;
     last_update := last_update self;
     update_interval := update_interval self;
     vm_details := vm_details self;
     power_state := power_state self;
     _last_power_state := Some v;
     cached_messages := cached_messages self;
     api_messages := api_messages self;
     log_messages := log_messages self;
     api_width := api_width self |}.

Definition set_cached_messages (v : list string) (self : t) : t :=
  {| vm_id := vm_id self;
     vm_name := vm_name self;
     current_row := current_row self;
     vm_messages := vm_messages self;
     last_update := last_update self;
     update_interval := update_interval self;
     vm_details := vm_details self;
     power_state := power_state self;
     _last_power_state := _last_power_state self;
     cached_messages := v;
     api_messages := api_messages self;
     log_messages := log_messages self;
     api_width := api_width self |}.

Definition set_api_messages (v : list string) (self : t) : t :=
  {| vm_id := vm_id self;
     vm_name := vm_name self;
     current_row := current_row self;
     vm_messages := vm_messages self;
     last_update := last_update self;
     update_interval := update_interval self;
     vm_details := vm_details self;
     power_state := power_state self;
     _last_power_state := _last_power_state self;
     cached_messages := cached_messages self;
     api_messages := v;
     log_messages := log_messages self;
     api_width := api_width self |}.

Definition set_log_messages (v : list string) (self : t) : t :=
  {| vm_id := vm_id self;
     vm_name := vm_name self;
     current_row := current_row self;
     vm_messages := vm_messages self;
     last_update := last_update self;
     update_interval := update_interval self;
     vm_details := vm_details self;
     power_state := power_state self;
     _last_power_state := _last_power_state self;
     cached_messages := cached_messages self;
     api_messages := api_messages self;
     log_messages := v;
     api_width := api_width self |}.

Definition set_api_width (v : Z) (self : t) : t :=
  {| vm_id := vm_id self;
     vm_name := vm_name self;
     current_row := current_row self;
     vm_messages := vm_messages self;
     last_update := last_update self;
     update_interval := update_interval self;
     vm_details := vm_details self;
     power_state := power_state self;
     _last_power_state := _last_power_state self;
     cached_messages := cached_messages self;
     api_messages := api_messages self;
     log_messages := log_messages self;
     api_width := v |}.

(** [add_vm_message]: append, then keep the last four. *)
Definition add_vm_message (message : string) (self : t) : t :=
  let msgs := (vm_messages self ++ [message])%list in
  set_vm_messages (if (4 <? length msgs)%nat then py_last 4 msgs else msgs) self.

(** The word wrap of [add_api_message]: [current_line] is the line being
    filled, [wrapped_lines] the lines already full. *)
Fixpoint wrap_words (max_width : Z) (words : list string) (current_line : string)
    (wrapped_lines : list string) : list string :=
  let flush := if String.eqb current_line "" then wrapped_lines
               else (wrapped_lines ++ [py_rstrip current_line])%list in
  match words with
  | [] => flush
  | word :: rest =>
      if (Z.of_nat (String.length current_line) + Z.of_nat (String.length word) + 1
          <=? max_width)%Z
      then wrap_words max_width rest (current_line +:+ word +:+ " ") wrapped_lines
      else wrap_words max_width rest (word +:+ " ") flush
  end.

(** [VMMenu.add_api_message]: a message with line breaks is added line
    by line, any other is wrapped to the window; the last fourteen
    lines are kept. *)
Definition add_api_message (message : string) (self : t) : t :=
  let max_width := (api_width self - 6)%Z in
  let lines :=
    if existsb (Ascii.eqb newline) (String.list_ascii_of_string message) then
      map py_strip (py_split_on newline [] message)
    else wrap_words max_width (py_split message) "" [] in
  let msgs := (api_messages self ++ lines)%list in
  set_api_messages (if (14 <? length msgs)%nat then py_last 14 msgs else msgs) self.

(** The messages that [vm_action] hands to [menu.add_api_message]. *)
Definition api_messages_of (evs : list Event) : list string :=
  omap (fun ev => match ev with EvAddApiMessage msg => Some msg | _ => None end) evs.

(** One turn of the loop of [BaseMenu.collect_messages]. *)
Definition collect_message (self : t) (msg : string) : t :=
  let self := set_cached_messages (cached_messages self ++ [msg])%list self in
  if py_in "API CALL:" msg then set_api_messages (api_messages self ++ [msg])%list self
  else set_log_messages (log_messages self ++ [msg])%list self.

Definition max_messages : nat := 1000.

Definition keep_last (k : nat) (l : list string) : list string :=
  if (k <? length l)%nat then py_last k l else l.

(** [BaseMenu.collect_messages] on the messages [msgs] that the queue
    hands out: each goes to [cached_messages] and to one of the other
    two lists; then each list is cut to its last thousand. *)
Definition collect (msgs : list string) (self : t) : t :=
  let self := fold_left collect_message msgs self in
  let self := set_cached_messages (keep_last max_messages (cached_messages self)) self in
  let self := set_api_messages (keep_last max_messages (api_messages self)) self in
  set_log_messages (keep_last max_messages (log_messages self)) self.

Section Methods.

Variable menv : MenuEnv.

Definition ask_menu {A} (f : MenuEnv -> nat -> A) : M A :=
  fun w => (Ok (f menv (steps w)), set_steps (S (steps w)) w).

(** A stretch of curses calls between two decisions of the code. *)
Definition curses_calls : M unit :=
  let* r := ask_menu env_curses in
  match r with
  | Some e => raise e
  | None => ret tt
  end.

(** [BaseMenu.collect_messages]: drain the queue until it is empty. *)
Definition collect_messages (self : t) : M t :=
  let* msgs := ask_menu env_status_log in
  ret (collect msgs self).

(** [VMMenu.setup_windows]: the windows are made for the width of the
    screen. *)
Definition setup_windows (self : t) : M t :=
  let* width := ask_menu env_screen_width in
  curses_calls >>
  ret (set_api_width (width - 4) self).

(** [get_vm_details] of api/vm_get.py. *)
Definition get_vm_details (vm_id : string) : M (option Details) :=
  try_except
    (log_message ("API CALL: GET /vms/" +:+ vm_id +:+ " (Get VM Details)") "INFO" false >>
     let* response := ask_menu (fun e n => env_get_details e n vm_id) in
     match response with
     | DetailsRaises e => raise e
     | DetailsResponse (Some e) _ => raise e
     | DetailsResponse None (DJsonRaises e) => raise e
     | DetailsResponse None DJsonNull => ret None
     | DetailsResponse None (DJsonObject d) => ret (Some d)
     end)
    (fun e =>
       log_message ("Failed to fetch VM details for " +:+ vm_id +:+ ": " +:+ exn_str e)
                   "ERROR" false >>
       ret None).

Definition update_due (self : t) (current_time : Q) : bool :=
  Qle_bool (update_interval self) (current_time - last_update self).

Definition update_vm_info (self : t) : M t :=
  let* current_time := time_time (base_env menv) in
  if update_due self current_time then
    let* d := get_vm_details (vm_id self) in
    let self := set_vm_details d self in
    let* p := get_vm_power_state (base_env menv) (vm_id self) in
    let self := set_last_update current_time (set_power_state p self) in
    if match _last_power_state self with
       | None => true
       | Some l => negb (String.eqb l p)
       end
    then
      log_message ("VM power state changed to: " +:+ p) "INFO" false >>
      ret (set_last_power_state p self)
    else ret self
  else ret self.

(** [VMMenu.draw]: the update check, [collect_messages], then curses;
    the status line reads [self.vm_details] with [in], which raises
    TypeError on [None]. *)
Definition draw (self : t) : M t :=
  let* current_time := time_time (base_env menv) in
  let* self := (if update_due self current_time then update_vm_info self else ret self) in
  let* self := collect_messages self in
  curses_calls >>
  match vm_details self, power_state self with
  | Some details, Some _ =>
      curses_calls >>
      match details with
      | None => raise type_error
      | Some _ => curses_calls
      end
  | _, _ => ret tt
  end >>
  curses_calls >>
  ret self.

(** [VMMenu.__init__]: [BaseMenu.__init__] (the theme, the empty lists,
    the first [setup_windows]), the attributes, the first update, and
    [setup_windows] again. *)
Definition init (vm_id vm_name : string) : M t :=
  curses_calls >>
  let self := {| vm_id := vm_id; vm_name := vm_name; current_row := 0;
                 vm_messages := []; last_update := 0; update_interval := 5;
                 vm_details := None; power_state := None;
                 _last_power_state := None;
                 cached_messages := []; api_messages := []; log_messages := [];
                 api_width := 0 |} in
  let* self := setup_windows self in
  let* self := update_vm_info self in
  setup_windows self.

Definition power_options : list string :=
  ["Start VM"; "Shutdown VM"; "Stop VM"; "Suspend VM"].

(** What [vm_action] did to the menu it was given: its calls of
    [menu.add_api_message] since the trace was [before]. *)
Definition api_messages_since (before : list Event) (self : t) : M t :=
  let* now := gets trace in
  ret (fold_left (fun s msg => add_api_message msg s)
                 (api_messages_of (drop (length before) now)) self).

Definition execute_option (self : t) : M (bool * t) :=
  match py_index options (current_row self) with
  | None => raise index_error
  | Some selected =>
      if String.eqb selected "Back to Main Menu" then ret (false, self)
      else if existsb (String.eqb selected) power_options then
        match py_split selected with
        | [] => raise index_error
        | word :: _ =>
            let action := py_lower word in
            let api_action := if String.eqb action "shutdown" then "stop" else action in
            let self := add_vm_message ("Attempting to " +:+ action +:+ " VM...") self in
            log_message ("Attempting to " +:+ action +:+ " VM: " +:+ vm_name self)
                        "INFO" false >>
            let* self := draw self in
            let* before := gets trace in
            let* self :=
              try_except
                (let is_hard := String.eqb action "stop" in
                 let* success := vm_action (base_env menv) (vm_id self) api_action
                                           is_hard true in
                 let* self := api_messages_since before self in
                 if success then
                   log_message ("Successfully initiated " +:+ action +:+ " for VM: "
                                +:+ vm_name self) "INFO" false >>
                   ret (add_vm_message ("Successfully initiated " +:+ action) self)
                 else
                   log_message ("Failed to " +:+ action +:+ " VM: " +:+ vm_name self)
                               "ERROR" false >>
                   ret (add_vm_message ("Failed to " +:+ action +:+ " VM") self))
                (fun e =>
                   let* self := api_messages_since before self in
                   log_message ("Error during " +:+ action +:+ " operation: "
                                +:+ exn_str e) "ERROR" false >>
                   ret (add_vm_message ("Error: " +:+ exn_str e) self)) in
            let* self := draw self in
            ret (true, self)
        end
      else if String.eqb selected "View Details" then
        let* d := get_vm_details (vm_id self) in
        let self := set_vm_details d self in
        match d with
        | Some (_ :: _) => ret tt
        | _ => log_message ("Failed to fetch details for VM " +:+ vm_name self)
                           "ERROR" false
        end >>
        ret (true, self)
      else ret (true, self)
  end.

Definition handle_input (self : t) (key : Z) : M (bool * t) :=
  if ((key =? KEY_UP) && (0 <? current_row self))%Z then
    ret (true, set_current_row (current_row self - 1) self)
  else if ((key =? KEY_DOWN)
           && (current_row self <? Z.of_nat (length options) - 1))%Z then
    ret (true, set_current_row (current_row self + 1) self)
  else if ((key =? KEY_ENTER) || (key =? KEY_NEWLINE))%Z then
    execute_option self
  else ret (true, self).

End Methods.

End VmMenu.

(** ** Vocabulary for the VM menu *)

Definition is_put (ev : Event) : bool :=
  match ev with EvPutPower _ _ => true | _ => false end.

Definition not_put (ev : Event) : Prop := is_put ev = false.

(** Between [w] and [w'] the PUT requests sent are exactly [l]. *)
Definition puts (l : list Event) (w w' : World) : Prop :=
  exists evs, trace w' = (trace w ++ evs)%list /\ List.filter is_put evs = l.

(** When [m] returns, its result satisfies [P]. *)
Definition returns {A} (m : M A) (P : A -> Prop) : Prop :=
  forall w a, fst (m w) = Ok a -> P a.

(** The menu is the same as far as the user's position in it goes. *)
Definition same_position (self s : VmMenu.t) : Prop :=
  VmMenu.vm_id s = VmMenu.vm_id self /\ VmMenu.vm_name s = VmMenu.vm_name self /\
  VmMenu.current_row s = VmMenu.current_row self.

(** The request gave no details: [get_vm_details] answers [None]. *)
Definition no_details (r : DetailsResp) : bool :=
  match r with
  | DetailsResponse None (DJsonObject _) => false
  | _ => true
  end.

(** [add_vm_message] for each message in turn. *)
Definition add_vm_messages (ms : list string) (self : VmMenu.t) : VmMenu.t :=
  fold_left (fun s m => VmMenu.add_vm_message m s) ms self.

(** The body of the PUT request that the VM menu sends from row [row]:
    Start VM, Shutdown VM, Stop VM, Suspend VM. *)
Definition sent_body (row : Z) : string :=
  if (row =? 0)%Z then "on" else if (row =? 3)%Z then "suspend" else "off".

(** A VM menu for VM "A", not yet updated, with the cursor on [row]. *)
Definition menu_a (row : Z) : VmMenu.t :=
  {| VmMenu.vm_id := "A"; VmMenu.vm_name := "a"; VmMenu.current_row := row;
     VmMenu.vm_messages := []; VmMenu.last_update := 0; VmMenu.update_interval := 5;
     VmMenu.vm_details := None; VmMenu.power_state := None;
     VmMenu._last_power_state := None;
                VmMenu.cached_messages := []; VmMenu.api_messages := [];
                VmMenu.log_messages := []; VmMenu.api_width := 76 |}.

(** Everything works: curses draws, the hypervisor answers. *)
Definition menv_ok : MenuEnv :=
  {| base_env := env_put_ok;
     env_get_details := fun _ _ =>
       DetailsResponse None (DJsonObject [("cpu", "{'processors': 2}"); ("memory", "2048")]);
     env_curses := fun _ => None;
     env_status_log := fun _ => [];
     env_screen_width := fun _ => 80%Z |}.

(** Everything works, and two messages wait in the queue. *)
Definition menv_waiting : MenuEnv :=
  {| base_env := env_put_ok;
     env_get_details := fun _ _ => DetailsResponse None (DJsonObject [("memory", "2048")]);
     env_curses := fun _ => None;
     env_status_log := fun _ =>
       ["[INFO] 12:00:00 - API CALL: GET /vms (List VMs)"; "[INFO] 12:00:01 - ready"];
     env_screen_width := fun _ => 80%Z |}.

(** Curses draws, but the details request times out. *)
Definition menv_no_details : MenuEnv :=
  {| base_env := env_at_20;
     env_get_details := fun _ _ => DetailsRaises timeout_exn;
     env_curses := fun _ => None;
     env_status_log := fun _ => [];
     env_screen_width := fun _ => 80%Z |}.

(** The menu of VM "A" after a poll at time 20 whose details request
    failed. *)
Definition menu_A_failed : VmMenu.t :=
  {| VmMenu.vm_id := "A"; VmMenu.vm_name := "a"; VmMenu.current_row := 0;
     VmMenu.vm_messages := []; VmMenu.last_update := 20;
     VmMenu.update_interval := 5; VmMenu.vm_details := Some None;
     VmMenu.power_state := Some "poweredOn";
     VmMenu._last_power_state := Some "poweredOn";
     VmMenu.cached_messages := []; VmMenu.api_messages := [];
     VmMenu.log_messages := []; VmMenu.api_width := 76 |}.

(** The menu has a power state but no details: the last
    [get_vm_details] answered [None]. *)
Definition lacks_details (s : VmMenu.t) : Prop :=
  VmMenu.vm_details s = Some None /\ VmMenu.power_state s <> None.

(** The menus differ at most in the three lists of collected
    messages. *)
Definition same_attributes (self s : VmMenu.t) : Prop :=
  VmMenu.vm_id s = VmMenu.vm_id self /\ VmMenu.vm_name s = VmMenu.vm_name self /\
  VmMenu.current_row s = VmMenu.current_row self /\
  VmMenu.vm_messages s = VmMenu.vm_messages self /\
  VmMenu.last_update s = VmMenu.last_update self /\
  VmMenu.update_interval s = VmMenu.update_interval self /\
  VmMenu.vm_details s = VmMenu.vm_details self /\
  VmMenu.power_state s = VmMenu.power_state self /\
  VmMenu._last_power_state s = VmMenu._last_power_state self /\
  VmMenu.api_width s = VmMenu.api_width self.

(** A message that [collect_messages] files under the API calls. *)
Definition is_api_call (msg : string) : bool := py_in "API CALL:" msg.

(** * The main menu's keys: ui/main_menu.py *)

Module MainMenuUi.

Section Methods.

Variable menv : MenuEnv.

(** [MainMenu.handle_input], with [self.current_row] passed in and
    returned.  A list entry is a live dictionary, so the heap lookup
    cannot fail in the program. *)
Definition handle_input (current_row key : Z) : M (Z * option VmMenu.t) :=
  let* vms := gets (fun w => vm_list (main_menu w)) in
  if ((key =? KEY_UP) && (0 <? current_row))%Z then
    ret ((current_row - 1)%Z, None)
  else if ((key =? KEY_DOWN) && (current_row <? Z.of_nat (length vms) - 1))%Z then
    ret ((current_row + 1)%Z, None)
  else if ((key =? KEY_ENTER) || (key =? KEY_NEWLINE))%Z
          && match vms with [] => false | _ => true end then
    match py_index vms current_row with
    | None => raise index_error
    | Some l =>
        let* h := gets heap in
        match h !! l with
        | None => raise {| exn_kind := KException; exn_str := "dangling reference" |}
        | Some selected_vm =>
            let* m := VmMenu.init menv (vm_id selected_vm) (vm_name selected_vm) in
            ret (current_row, Some m)
        end
    end
  else ret (current_row, None).

End Methods.

End MainMenuUi.

(** The VM that the main menu lists in row [row]. *)
Definition listed_vm (w : World) (row : Z) : option VM :=
  match vm_list (main_menu w) !! Z.to_nat row with
  | Some l => heap w !! l
  | None => None
  end.

(** The menu that [VMMenu.__init__] builds for VM "A" before its first
    update is due. *)
Definition menu_A_new : VmMenu.t :=
  {| VmMenu.vm_id := "A"; VmMenu.vm_name := "A"; VmMenu.current_row := 0;
     VmMenu.vm_messages := []; VmMenu.last_update := 0; VmMenu.update_interval := 5;
     VmMenu.vm_details := None; VmMenu.power_state := None;
     VmMenu._last_power_state := None;
                VmMenu.cached_messages := []; VmMenu.api_messages := [];
                VmMenu.log_messages := []; VmMenu.api_width := 76 |}.

(** What [get_vm_details] makes of a response. *)
Definition details_of (r : DetailsResp) : option Details :=
  match r with
  | DetailsResponse None (DJsonObject d) => Some d
  | _ => None
  end.

(** * The VM visibility screen: ui/config_menu.py *)

Module ConfigMenuUi.

(** The attributes of a [ConfigMenu] that [handle_vm_selection] computes
    with. *)
Record t := {
  current_row : Z;
  in_vm_selection : bool;
  vm_list : list loc;
  config_messages : list string
}.

Definition set_current_row (v : Z) (self : t) : t :=
  {| current_row := v; in_vm_selection := in_vm_selection self;
     vm_list := vm_list self; config_messages := config_messages self |}.

Definition set_in_vm_selection (v : bool) (self : t) : t :=
  {| current_row := current_row self; in_vm_selection := v;
     vm_list := vm_list self; config_messages := config_messages self |}.

Definition set_config_messages (v : list string) (self : t) : t :=
  {| current_row := current_row self; in_vm_selection := in_vm_selection self;
     vm_list := vm_list self; config_messages := v |}.

Definition add_config_message (message : string) (self : t) : t :=
  let msgs := (config_messages self ++ [message])%list in
  set_config_messages (if (4 <? length msgs)%nat then py_last 4 msgs else msgs) self.

(** [handle_vm_selection]; the global set [hidden_vms] of
    config/settings.py is passed in and returned.  The rows are the
    VMs, one row of spacing, and the Back option. *)
Definition handle_vm_selection (hidden_vms : gset string) (self : t) (key : Z)
    : M (bool * t * gset string) :=
  let n := Z.of_nat (length (vm_list self)) in
  let total_items := (n + 2)%Z in
  if ((key =? KEY_UP) && (0 <? current_row self))%Z then
    let row := (current_row self - 1)%Z in
    let row := if (row =? n)%Z then (row - 1)%Z else row in
    ret (true, set_current_row row self, hidden_vms)
  else if ((key =? KEY_DOWN) && (current_row self <? total_items - 1))%Z then
    let row := (current_row self + 1)%Z in
    let row := if (row =? n)%Z then (row + 1)%Z else row in
    ret (true, set_current_row row self, hidden_vms)
  else if ((key =? KEY_ENTER) || (key =? KEY_NEWLINE))%Z then
    if (n <? current_row self)%Z then
      ret (true,
           add_config_message "VM visibility settings saved"
             (set_current_row 0 (set_in_vm_selection false self)),
           hidden_vms)
    else
      match py_index (vm_list self) (current_row self) with
      | None => raise index_error
      | Some l =>
          let* h := gets heap in
          match h !! l with
          | None => raise {| exn_kind := KException; exn_str := "dangling reference" |}
          | Some vm =>
              if negb (String.eqb (vm_id vm) "") then
                if decide (vm_id vm ∈ hidden_vms) then
                  ret (true, add_config_message ("Showing VM: " +:+ vm_name vm) self,
                       hidden_vms ∖ {[vm_id vm]})
                else
                  ret (true, add_config_message ("Hiding VM: " +:+ vm_name vm) self,
                       hidden_vms ∪ {[vm_id vm]})
              else ret (true, self, hidden_vms)
          end
      end
  else ret (true, self, hidden_vms).

End ConfigMenuUi.

(** The cursor of the visibility screen is on a VM or on Back, not on
    the spacing row between them. *)
Definition on_selectable_row (self : ConfigMenuUi.t) : Prop :=
  let n := Z.of_nat (length (ConfigMenuUi.vm_list self)) in
  (0 <= ConfigMenuUi.current_row self <= n + 1)%Z /\ ConfigMenuUi.current_row self <> n.

(** The visibility screen just opened on the list that holds VM "A",
    and on an empty list. *)
Definition cfg_a : ConfigMenuUi.t :=
  {| ConfigMenuUi.current_row := 0; ConfigMenuUi.in_vm_selection := true;
     ConfigMenuUi.vm_list := [0%nat]; ConfigMenuUi.config_messages := [] |}.

Definition cfg_empty : ConfigMenuUi.t :=
  {| ConfigMenuUi.current_row := 0; ConfigMenuUi.in_vm_selection := true;
     ConfigMenuUi.vm_list := []; ConfigMenuUi.config_messages := [] |}.

(** ** Vocabulary of a full refresh *)

(** What one power request yields: the state named in the answer, and
    "UNKNOWN" when the request fails or the answer names no state. *)
Definition power_answer (r : PowerResp) : string :=
  match r with
  | PowerResponse true (PJsonObj (Some s)) => s
  | _ => "UNKNOWN"
  end.

(** Between [w0] and [w] a power request for [id] was sent, and [s] is
    what the client answered to a request for [id] made in between. *)
Definition fetched (env : Env) (w0 w : World) (id s : string) : Prop :=
  In (EvGetPower id) (new_events w0 w) /\
  exists n, (steps w0 <= n < steps w)%nat /\ s = power_answer (env_get_power env n id).

(** [s] was obtained for [id] between [w0] and [w]: fetched from the
    client, or taken from the entry that the power-state cache held at
    [w0], read in between while it was younger than [CACHE_TIMEOUT]. *)
Definition obtained (env : Env) (w0 w : World) (id s : string) : Prop :=
  fetched env w0 w id s \/
  exists t n, power_state_cache w0 !! id = Some (t, s) /\
              (steps w0 <= n < steps w)%nat /\
              env_time env n - t < CACHE_TIMEOUT.

(** Every power-state cache entry of [w] was there at [w0] or holds what
    was fetched since. *)
Definition answer_history (env : Env) (w0 w : World) : Prop :=
  (steps w0 <= steps w)%nat /\
  (exists evs, trace w = (trace w0 ++ evs)%list) /\
  forall id t s, power_state_cache w !! id = Some (t, s) ->
    fetched env w0 w id s \/ power_state_cache w0 !! id = Some (t, s).

(** The entries of the client's answer that [get_vm_list] lists, in
    order: the objects with a non-empty id, with their path. *)
Fixpoint listed (items : list RawEntry) : list (string * option string) :=
  match items with
  | [] => []
  | RawDict (Some id) raw_path :: rest =>
      if String.eqb id "" then listed rest else (id, raw_path) :: listed rest
  | _ :: rest => listed rest
  end.

(** The dictionary at [l] is the record built for [entry]: its id and
    path, the name cleaned from the path, and a power state obtained for
    that id between [w0] and [w]. *)
Definition built (env : Env) (w0 w : World) (l : loc) (entry : string * option string)
    : Prop :=
  exists s,
    heap w !! l = Some {| vm_id := entry.1; vm_path := entry.2;
                          vm_name := clean_vm_name env (default "" entry.2);
                          vm_power_state := s |} /\
    obtained env w0 w entry.1 s.

(** The sleeps between [w] and [w'] are exactly [l], in order. *)
Definition sleeps (l : list Event) (w w' : World) : Prop :=
  exists evs, trace w' = (trace w ++ evs)%list /\ List.filter is_sleep evs = l.

(** How long the worker sleeps at the end of an iteration started in
    [w]: [REFRESH_INTERVAL] when the [try] block completes, one second
    when it raised (and nothing if the flag is up by then). *)
Definition tick_sleep (env : Env) (w : World) : list Event :=
  match fst (tick_body env w) with
  | Ok _ => [EvSleep REFRESH_INTERVAL]
  | Raise _ => if _shutdown (main_menu w) then [] else [EvSleep 1]
  end.


(** * Proofs *)

Ltac unfold_monad :=
  unfold bind, ret, raise, try_except, try_finally, gets, modify, emit, ask,
    log_message, time_time, time_sleep in *.

Lemma Qltb_lt x y : Qltb x y = true <-> x < y.
Proof.
  unfold Qltb. rewrite negb_true_iff, <- not_true_iff_false, Qle_bool_iff.
  split; [apply Qnot_le_lt | apply Qlt_not_le].
Qed.

Lemma Qltb_ge x y : Qltb x y = false <-> y <= x.
Proof.
  unfold Qltb. rewrite negb_false_iff. apply Qle_bool_iff.
Qed.

(** ** [get_vm_power_state] *)

Section PowerState.

Variable env : Env.

(** The three ways out of [get_vm_power_state]. *)
Lemma get_vm_power_state_cached (id : string) (w : World) t s :
  power_state_cache w !! id = Some (t, s) ->
  env_time env (steps w) - t < CACHE_TIMEOUT ->
  get_vm_power_state env id w = (Ok s, set_steps (S (steps w)) w).
Proof.
  intros Hc Hf. unfold get_vm_power_state. unfold_monad. simpl.
  rewrite Hc. apply Qltb_lt in Hf. rewrite Hf. reflexivity.
Qed.

Lemma get_vm_power_state_fetch (id : string) (w : World) :
  power_entry_stale w id (env_time env (steps w)) ->
  get_vm_power_state env id w =
  fetch_power_state env id (env_time env (steps w)) (set_steps (S (steps w)) w).
Proof.
  intros Hs. unfold get_vm_power_state. unfold_monad. simpl.
  destruct (power_state_cache w !! id) as [[t s]|] eqn:Hc; [|reflexivity].
  apply Hs in Hc. apply Qltb_ge in Hc. rewrite Hc. reflexivity.
Qed.

Lemma fetch_power_state_failed (id : string) (now : Q) (w : World) :
  power_failed (env_get_power env (steps w) id) = true ->
  fst (fetch_power_state env id now w) = Ok "UNKNOWN" /\
  power_state_cache (snd (fetch_power_state env id now w)) = power_state_cache w /\
  vm_list_cache (snd (fetch_power_state env id now w)) = vm_list_cache w /\
  last_refresh (snd (fetch_power_state env id now w)) = last_refresh w /\
  heap (snd (fetch_power_state env id now w)) = heap w.
Proof.
  intros Hf. unfold fetch_power_state. unfold_monad. simpl.
  destruct (env_get_power env (steps w) id) as [e|[|] [e|st]]; simpl in *;
    try discriminate; auto.
Qed.

Lemma fetch_power_state_frame (id other : string) (now : Q) (w : World) :
  id <> other ->
  power_state_cache (snd (fetch_power_state env id now w)) !! other
  = power_state_cache w !! other.
Proof.
  intros Hne. unfold fetch_power_state. unfold_monad. simpl.
  destruct (env_get_power env (steps w) id) as [e|[|] [e|st]]; simpl; try reflexivity.
  apply lookup_insert_ne. exact Hne.
Qed.

End PowerState.

(** ** Frame conditions *)

Section Preserves.

Context (R : relation World) `{!PreOrder R}.

Lemma preserves_ret {A} (a : A) : preserves R (ret a).
Proof. intros w. reflexivity. Qed.

Lemma preserves_raise {A} (e : Exn) : preserves R (@raise A e).
Proof. intros w. reflexivity. Qed.

Lemma preserves_gets {A} (f : World -> A) : preserves R (gets f).
Proof. intros w. reflexivity. Qed.

Lemma preserves_bind {A B} (m : M A) (k : A -> M B) :
  preserves R m -> (forall a, preserves R (k a)) -> preserves R (bind m k).
Proof.
  intros Hm Hk w. unfold bind. specialize (Hm w).
  destruct (m w) as [[a|e] w1]; simpl in *; [|exact Hm].
  etransitivity; [exact Hm | apply Hk].
Qed.

Lemma preserves_try_except {A} (m : M A) (h : Exn -> M A) :
  preserves R m -> (forall e, preserves R (h e)) -> preserves R (try_except m h).
Proof.
  intros Hm Hh w. unfold try_except. specialize (Hm w).
  destruct (m w) as [[a|e] w1]; simpl in *; [exact Hm|].
  etransitivity; [exact Hm | apply Hh].
Qed.

Lemma preserves_try_finally {A} (m : M A) (f : M unit) :
  preserves R m -> preserves R f -> preserves R (try_finally m f).
Proof.
  intros Hm Hf w. unfold try_finally. specialize (Hm w).
  destruct (m w) as [r w1]; simpl in *. specialize (Hf w1).
  destruct (f w1) as [[[]|e] w2]; simpl in *; etransitivity; eauto.
Qed.

End Preserves.

#[local] Instance same_worker_preorder : PreOrder same_worker.
Proof.
  split.
  - intros w. repeat split.
  - intros w1 w2 w3 (?&?&?&?) (?&?&?&?). repeat split; congruence.
Qed.

#[local] Instance same_inventory_preorder : PreOrder same_inventory.
Proof.
  split.
  - intros w. repeat split.
  - intros w1 w2 w3 (?&?&?) (?&?&?). repeat split; congruence.
Qed.

#[local] Instance heap_grows_preorder : PreOrder heap_grows.
Proof.
  split.
  - intros w l vm H. exact H.
  - intros w1 w2 w3 H12 H23 l vm H. apply H23, H12, H.
Qed.

#[local] Instance same_vms_preorder : PreOrder same_vms.
Proof.
  split.
  - intros w l. reflexivity.
  - intros w1 w2 w3 H12 H23 l. rewrite H23. apply H12.
Qed.

#[local] Instance emits_preorder (P : Event -> Prop) : PreOrder (emits P).
Proof.
  split.
  - intros w. exists []. split; [symmetry; apply app_nil_r | constructor].
  - intros w1 w2 w3 (e1 & H1 & F1) (e2 & H2 & F2).
    exists (e1 ++ e2)%list. split.
    + rewrite H2, H1. symmetry. apply app_assoc.
    + apply Forall_app. split; assumption.
Qed.

Lemma emits_emit (P : Event -> Prop) ev : P ev -> preserves (emits P) (emit ev).
Proof.
  intros HP w. exists [ev]. split; [reflexivity | repeat constructor; exact HP].
Qed.

Lemma emits_quiet {A} (P : Event -> Prop) (m : M A) :
  (forall w, trace (snd (m w)) = trace w) -> preserves (emits P) m.
Proof.
  intros H w. exists []. split; [rewrite H; symmetry; apply app_nil_r | constructor].
Qed.

Lemma preserves_weaken {A} (R R' : relation World) (m : M A) :
  (forall w w', R w w' -> R' w w') -> preserves R m -> preserves R' m.
Proof. intros HR Hm w. apply HR, Hm. Qed.

Create HintDb frame.

Ltac frame_leaf :=
  solve
    [ auto with frame
    | apply preserves_ret; typeclasses eauto
    | apply preserves_raise; typeclasses eauto
    | apply preserves_gets; typeclasses eauto
    | apply emits_emit; hnf; auto
    | apply emits_quiet; intros; reflexivity
    | let w := fresh "w" in
      intros w; hnf; unfold_monad; simpl; repeat split; auto ].

Ltac frame :=
  repeat first
    [ progress intros
    | frame_leaf
    | apply preserves_bind; [typeclasses eauto | | intros ?]
    | apply preserves_try_except; [typeclasses eauto | | intros ?]
    | apply preserves_try_finally; [typeclasses eauto | | ]
    | match goal with
      | |- preserves _ (match ?x with _ => _ end) => destruct x
      end ].

Section Frames.

Variable env : Env.

Lemma time_time_same_worker : preserves same_worker (time_time env).
Proof. frame. Qed.

Lemma get_vm_power_state_same_worker id : preserves same_worker (get_vm_power_state env id).
Proof. unfold get_vm_power_state, fetch_power_state. frame. Qed.

Lemma get_vm_power_state_same_inventory id :
  preserves same_inventory (get_vm_power_state env id).
Proof. unfold get_vm_power_state, fetch_power_state. frame. Qed.

Lemma get_vm_power_state_heap id w :
  heap (snd (get_vm_power_state env id w)) = heap w.
Proof.
  unfold get_vm_power_state, fetch_power_state. unfold_monad. simpl.
  destruct (power_state_cache w !! id) as [[t s]|];
    [destruct (Qltb _ _); [reflexivity|]|];
    simpl; destruct (env_get_power env (S (steps w)) id) as [e|[|] [e|st]]; reflexivity.
Qed.

Lemma get_vm_power_state_quiet id :
  preserves (emits not_get_vms) (get_vm_power_state env id).
Proof. unfold get_vm_power_state, fetch_power_state, log_message. frame. Qed.

Lemma get_vm_power_state_no_lock_event id :
  preserves (emits not_lock_event) (get_vm_power_state env id).
Proof. unfold get_vm_power_state, fetch_power_state, log_message. frame. Qed.

Lemma alloc_same_worker vm : preserves same_worker (alloc vm).
Proof. frame. Qed.

Lemma alloc_same_inventory vm : preserves same_inventory (alloc vm).
Proof. frame. Qed.

Lemma alloc_quiet P vm : preserves (emits P) (alloc vm).
Proof. frame. Qed.

Lemma alloc_heap_grows vm : preserves heap_grows (alloc vm).
Proof.
  intros w l v H. unfold alloc. simpl.
  rewrite lookup_insert_ne; [exact H|].
  intros <-. pose proof (is_fresh (dom (heap w))) as Hf.
  apply Hf, elem_of_dom. eauto.
Qed.

Lemma get_vm_power_state_heap_grows id : preserves heap_grows (get_vm_power_state env id).
Proof. intros w l vm H. rewrite get_vm_power_state_heap. exact H. Qed.

Hint Resolve time_time_same_worker get_vm_power_state_same_worker
  get_vm_power_state_same_inventory get_vm_power_state_quiet
  get_vm_power_state_no_lock_event get_vm_power_state_heap_grows
  alloc_same_worker alloc_same_inventory alloc_quiet alloc_heap_grows : frame.

Lemma process_entries_preserves (R : relation World) `{!PreOrder R} :
  (forall id, preserves R (get_vm_power_state env id)) ->
  (forall vm, preserves R (alloc vm)) ->
  (forall msg lvl, preserves R (log_message msg lvl false)) ->
  forall items acc, preserves R (process_entries env items acc).
Proof.
  intros Hp Ha Hl. induction items as [|vm rest IH]; intros acc; simpl.
  - apply preserves_ret. typeclasses eauto.
  - apply preserves_bind; [typeclasses eauto | | intros ?; apply IH].
    unfold process_entry. frame.
Qed.

Lemma process_entries_same_worker items acc :
  preserves same_worker (process_entries env items acc).
Proof. apply process_entries_preserves; try exact _; frame. Qed.

Lemma process_entries_same_inventory items acc :
  preserves same_inventory (process_entries env items acc).
Proof. apply process_entries_preserves; try exact _; frame. Qed.

Lemma process_entries_heap_grows items acc :
  preserves heap_grows (process_entries env items acc).
Proof. apply process_entries_preserves; try exact _; frame. Qed.

Lemma process_entries_quiet items acc :
  preserves (emits not_get_vms) (process_entries env items acc).
Proof.
  apply process_entries_preserves; try exact _; intros; unfold log_message; frame.
Qed.

Lemma process_entries_no_lock_event items acc :
  preserves (emits not_lock_event) (process_entries env items acc).
Proof.
  apply process_entries_preserves; try exact _; intros; unfold log_message; frame.
Qed.

Hint Resolve process_entries_same_worker process_entries_same_inventory
  process_entries_heap_grows process_entries_quiet process_entries_no_lock_event : frame.

Lemma get_vm_list_same_worker force : preserves same_worker (get_vm_list env force).
Proof. unfold get_vm_list, fetch_vm_list, cache_is_fresh. frame. Qed.

Lemma get_vm_list_no_lock_event force :
  preserves (emits not_lock_event) (get_vm_list env force).
Proof. unfold get_vm_list, fetch_vm_list, cache_is_fresh, log_message. frame. Qed.

Lemma get_vm_list_heap_grows force : preserves heap_grows (get_vm_list env force).
Proof. unfold get_vm_list, fetch_vm_list, cache_is_fresh. frame. Qed.

Lemma draw_screen_same_worker : preserves same_worker (draw_screen env).
Proof. unfold draw_screen. frame. Qed.

Lemma draw_screen_same_inventory : preserves same_inventory (draw_screen env).
Proof. unfold draw_screen. frame. Qed.

Lemma draw_screen_quiet : preserves (emits not_get_vms) (draw_screen env).
Proof. unfold draw_screen. frame. Qed.

Lemma draw_screen_no_lock_event : preserves (emits not_lock_event) (draw_screen env).
Proof. unfold draw_screen. frame. Qed.

Hint Resolve get_vm_list_same_worker get_vm_list_no_lock_event get_vm_list_heap_grows
  draw_screen_same_worker draw_screen_same_inventory draw_screen_quiet
  draw_screen_no_lock_event : frame.

Lemma refresh_vm_list_same_worker force : preserves same_worker (refresh_vm_list env force).
Proof. unfold refresh_vm_list. frame. Qed.

Lemma refresh_vm_list_no_lock_event force :
  preserves (emits not_lock_event) (refresh_vm_list env force).
Proof. unfold refresh_vm_list, log_message. frame. Qed.

Lemma refresh_power_states_preserves (R : relation World) `{!PreOrder R} :
  (forall id, preserves R (get_vm_power_state env id)) ->
  (forall l s, preserves R (store_power_state l s)) ->
  forall vms, preserves R (refresh_power_states env vms).
Proof.
  intros Hp Hs. induction vms as [|l rest IH]; simpl.
  - apply preserves_ret. typeclasses eauto.
  - frame.
Qed.

Lemma refresh_power_states_same_worker vms :
  preserves same_worker (refresh_power_states env vms).
Proof. apply refresh_power_states_preserves; try exact _; frame. Qed.

Lemma refresh_power_states_same_inventory vms :
  preserves same_inventory (refresh_power_states env vms).
Proof. apply refresh_power_states_preserves; try exact _; frame. Qed.

Lemma refresh_power_states_quiet vms :
  preserves (emits not_get_vms) (refresh_power_states env vms).
Proof. apply refresh_power_states_preserves; try exact _; frame. Qed.

Lemma refresh_power_states_no_lock_event vms :
  preserves (emits not_lock_event) (refresh_power_states env vms).
Proof. apply refresh_power_states_preserves; try exact _; frame. Qed.

Hint Resolve refresh_vm_list_same_worker refresh_vm_list_no_lock_event
  refresh_power_states_same_worker refresh_power_states_same_inventory
  refresh_power_states_quiet refresh_power_states_no_lock_event : frame.

End Frames.

#[local] Hint Resolve time_time_same_worker get_vm_power_state_same_worker
  get_vm_power_state_same_inventory get_vm_power_state_quiet
  get_vm_power_state_no_lock_event get_vm_power_state_heap_grows
  alloc_same_worker alloc_same_inventory alloc_quiet alloc_heap_grows
  process_entries_same_worker process_entries_same_inventory
  process_entries_heap_grows process_entries_quiet process_entries_no_lock_event
  get_vm_list_same_worker get_vm_list_no_lock_event get_vm_list_heap_grows
  draw_screen_same_worker draw_screen_same_inventory draw_screen_quiet
  draw_screen_no_lock_event
  refresh_vm_list_same_worker refresh_vm_list_no_lock_event
  refresh_power_states_same_worker refresh_power_states_same_inventory
  refresh_power_states_quiet refresh_power_states_no_lock_event : frame.

(** ** Programs that cannot raise *)

Lemma never_raises_ret {A} (a : A) : never_raises (ret a).
Proof. intros w. exists a. reflexivity. Qed.

Lemma never_raises_bind {A B} (m : M A) (k : A -> M B) :
  never_raises m -> (forall a, never_raises (k a)) -> never_raises (bind m k).
Proof.
  intros Hm Hk w. unfold bind. destruct (Hm w) as [a Ha].
  destruct (m w) as [r w1]; simpl in Ha; subst r. apply Hk.
Qed.

Lemma never_raises_try_except {A} (m : M A) (h : Exn -> M A) :
  (forall e, never_raises (h e)) -> never_raises (try_except m h).
Proof.
  intros Hh w. unfold try_except.
  destruct (m w) as [[a|e] w1]; [exists a; reflexivity | apply Hh].
Qed.

Lemma never_raises_logged {A} msg lvl r (a : A) :
  never_raises (log_message msg lvl r >> ret a).
Proof. intros w. exists a. reflexivity. Qed.

Section Totality.

Variable env : Env.

Lemma get_vm_power_state_never_raises id : never_raises (get_vm_power_state env id).
Proof.
  unfold get_vm_power_state.
  apply never_raises_bind; [intros w; eexists; reflexivity | intros now].
  apply never_raises_bind; [intros w; eexists; reflexivity | intros cache].
  assert (never_raises (fetch_power_state env id now)) as Hf.
  { apply never_raises_try_except. intros e. apply never_raises_logged. }
  destruct (cache !! id) as [[t s]|]; [|exact Hf].
  destruct (Qltb _ _); [apply never_raises_ret | exact Hf].
Qed.

Lemma process_entries_never_raises items :
  forall acc, never_raises (process_entries env items acc).
Proof.
  induction items as [|vm rest IH]; intros acc; simpl.
  - apply never_raises_ret.
  - apply never_raises_bind; [|intros a; apply IH].
    apply never_raises_try_except. intros e. apply never_raises_logged.
Qed.

Lemma fetch_vm_list_never_raises : never_raises (fetch_vm_list env).
Proof.
  unfold fetch_vm_list. apply never_raises_bind.
  - apply never_raises_try_except. intros e. apply never_raises_logged.
  - intros [l|]; apply never_raises_ret.
Qed.

Lemma get_vm_list_never_raises force : never_raises (get_vm_list env force).
Proof.
  intros w. unfold get_vm_list, cache_is_fresh. unfold_monad.
  destruct force; simpl; [apply fetch_vm_list_never_raises|].
  destruct (vm_list_cache w) as [|l ls] eqn:Hc; simpl;
    [apply fetch_vm_list_never_raises|].
  destruct (Qltb _ _); simpl; [eexists; reflexivity | apply fetch_vm_list_never_raises].
Qed.

(** ** The list request *)

(** What the guard of [get_vm_list] answers, and what it costs. *)

Lemma cache_is_fresh_empty w :
  vm_list_cache w = [] -> cache_is_fresh env false w = (Ok false, w).
Proof. intros H. unfold cache_is_fresh. unfold_monad. simpl. rewrite H. reflexivity. Qed.

Lemma cache_is_fresh_nonempty w :
  vm_list_cache w <> [] ->
  cache_is_fresh env false w =
  (Ok (Qltb (env_time env (steps w) - last_refresh w) CACHE_TIMEOUT),
   set_steps (S (steps w)) w).
Proof.
  intros H. unfold cache_is_fresh. unfold_monad. simpl.
  destruct (vm_list_cache w); [contradiction | reflexivity].
Qed.

Lemma cache_is_fresh_ok force w : exists b, fst (cache_is_fresh env force w) = Ok b.
Proof.
  destruct force; [eexists; reflexivity|].
  destruct (vm_list_cache w) as [|l ls] eqn:Hc.
  - rewrite cache_is_fresh_empty by exact Hc. eexists; reflexivity.
  - rewrite cache_is_fresh_nonempty by (rewrite Hc; discriminate). eexists; reflexivity.
Qed.

(** The guard changes nothing but the count of questions asked. *)
Lemma cache_is_fresh_world force w :
  snd (cache_is_fresh env force w) = set_steps (list_request_step env force w) w.
Proof.
  unfold list_request_step. destruct force; [destruct w; reflexivity|].
  destruct (vm_list_cache w) as [|l ls] eqn:Hc.
  - rewrite cache_is_fresh_empty by exact Hc. destruct w; reflexivity.
  - rewrite cache_is_fresh_nonempty by (rewrite Hc; discriminate). reflexivity.
Qed.

Lemma get_vm_list_unfold force w :
  get_vm_list env force w =
  match fst (cache_is_fresh env force w) with
  | Ok true => (Ok (vm_list_cache w), snd (cache_is_fresh env force w))
  | Ok false => fetch_vm_list env (snd (cache_is_fresh env force w))
  | Raise e => (Raise e, snd (cache_is_fresh env force w))
  end.
Proof.
  unfold get_vm_list, bind.
  destruct (cache_is_fresh env force w) as [[[|]|e] w1] eqn:E; simpl; try reflexivity.
  unfold gets. f_equal. f_equal.
  pose proof (cache_is_fresh_world force w) as Hw. rewrite E in Hw. simpl in Hw.
  rewrite Hw. reflexivity.
Qed.

(** A failed list request: the answer is the empty list and nothing that
    is cached has changed. *)
Lemma fetch_vm_list_failed w :
  list_failed (env_get_vms env (steps w)) = true ->
  let w' := snd (fetch_vm_list env w) in
  fst (fetch_vm_list env w) = Ok [] /\
  vm_list_cache w' = vm_list_cache w /\ last_refresh w' = last_refresh w /\
  power_state_cache w' = power_state_cache w /\ heap w' = heap w /\
  main_menu w' = main_menu w.
Proof.
  intros Hf. unfold fetch_vm_list. unfold_monad. simpl.
  destruct (env_get_vms env (steps w)) as [e|code [e|items]]; simpl in *.
  - repeat split.
  - destruct (code =? 200)%Z; simpl; repeat split.
  - destruct (code =? 200)%Z; simpl in *; [discriminate | repeat split].
Qed.

(** Every run of [fetch_vm_list] sends the list request exactly once. *)
Lemma fetch_vm_list_trace w :
  exists evs,
    trace (snd (fetch_vm_list env w))
    = (trace w ++ EvLog "API CALL: GET /vms (List VMs)" "INFO" false :: EvGetVMs :: evs)%list /\
    Forall not_get_vms evs.
Proof.
  unfold fetch_vm_list. unfold_monad. simpl.
  destruct (env_get_vms env (steps w)) as [e|code [e|items]]; simpl.
  - eexists. rewrite <- !app_assoc. simpl. split; [reflexivity|].
    repeat constructor.
  - destruct (code =? 200)%Z; simpl.
    + eexists. rewrite <- !app_assoc. simpl. split; [reflexivity|]. repeat constructor.
    + eexists. rewrite <- !app_assoc. simpl. split; [reflexivity|]. constructor.
  - destruct (code =? 200)%Z; simpl.
    + match goal with |- context [process_entries env items [] ?w0] =>
        pose proof (process_entries_quiet env items [] w0) as (evs & Ht & HF);
        destruct (process_entries env items [] w0) as [[l|e] w1]
      end; simpl in *.
      * exists evs. rewrite Ht, <- !app_assoc. simpl. auto.
      * exists (evs ++ [EvLog ("Error getting VM list: " +:+ exn_str e) "ERROR" false])%list.
        rewrite Ht, <- !app_assoc. simpl. split; [reflexivity|].
        apply Forall_app. split; [exact HF | repeat constructor].
    + eexists. rewrite <- !app_assoc. simpl. split; [reflexivity|]. constructor.
Qed.

End Totality.

Lemma filter_not_get_vms evs : Forall not_get_vms evs -> List.filter is_get_vms evs = [].
Proof.
  induction 1 as [|ev evs H _ IH]; simpl; [reflexivity|].
  unfold not_get_vms in H. rewrite H. exact IH.
Qed.

(** ** The claims about [get_vm_power_state] *)

(** C8.  For distinct identifiers [a] and [b], a call of
    [get_vm_power_state] for [a] leaves the power-state cache entry of [b]
    (time stamp and state, or its absence) as it was, whether the call
    serves the cache, fetches, or fails. *)
Theorem get_vm_power_state_other_entry (env : Env) (a b : string) (w : World) :
  a <> b ->
  power_state_cache (snd (get_vm_power_state env a w)) !! b = power_state_cache w !! b.
Proof.
  intros Hne. unfold get_vm_power_state. unfold_monad. simpl.
  destruct (power_state_cache w !! a) as [[t s]|];
    [destruct (Qltb _ _); [reflexivity|]|];
    rewrite fetch_power_state_frame by exact Hne; reflexivity.
Qed.

Lemma get_vm_power_state_other_entry_witness :
  power_state_cache (snd (get_vm_power_state env_three "B" world_a)) !! "A"
  = Some (0, "poweredOn").
Proof.
  rewrite (get_vm_power_state_other_entry env_three "B" "A" world_a).
  - reflexivity.
  - discriminate.
Defined.

(** C9.  When the cached state of [id] is absent or stale and the fetch
    fails (the request raises, the response is not ok, or its body cannot
    be read), [get_vm_power_state] returns ["UNKNOWN"] without raising and
    the power-state cache is what it was. *)
Theorem get_vm_power_state_failure (env : Env) (id : string) (w : World) :
  power_entry_stale w id (env_time env (steps w)) ->
  power_failed (env_get_power env (S (steps w)) id) = true ->
  fst (get_vm_power_state env id w) = Ok "UNKNOWN" /\
  power_state_cache (snd (get_vm_power_state env id w)) = power_state_cache w.
Proof.
  intros Hs Hf. rewrite get_vm_power_state_fetch by exact Hs.
  destruct (fetch_power_state_failed env id (env_time env (steps w))
              (set_steps (S (steps w)) w) Hf) as (Hr & Hc & _).
  split; [exact Hr | exact Hc].
Qed.

Lemma get_vm_power_state_failure_witness :
  fst (get_vm_power_state env_down "A" world_a) = Ok "UNKNOWN" /\
  power_state_cache (snd (get_vm_power_state env_down "A" world_a))
  = power_state_cache world_a.
Proof.
  apply (get_vm_power_state_failure env_down "A" world_a).
  - intros t s H. vm_compute in H. injection H as <- <-. vm_compute. discriminate.
  - reflexivity.
Defined.

(** ** The claims about [get_vm_list] *)

Lemma calls_fetch_vm_list env w w0 :
  trace w0 = trace w ->
  calls is_get_vms w (snd (fetch_vm_list env w0)) = 1%nat.
Proof.
  intros Ht. destruct (fetch_vm_list_trace env w0) as (evs & H & HF).
  unfold calls, new_events. rewrite H, Ht, drop_app_length. simpl.
  rewrite filter_not_get_vms by exact HF. reflexivity.
Qed.

Lemma get_vm_list_fetches env force w :
  fst (cache_is_fresh env force w) = Ok false ->
  get_vm_list env force w
  = fetch_vm_list env (set_steps (list_request_step env force w) w).
Proof.
  intros Hg. rewrite get_vm_list_unfold, Hg, cache_is_fresh_world. reflexivity.
Qed.

(** A failed list request leaves every cache as it was, whether or not
    the guard let the call through to the client. *)
Lemma get_vm_list_failed_caches env force w :
  list_failed (env_get_vms env (list_request_step env force w)) = true ->
  let w' := snd (get_vm_list env force w) in
  vm_list_cache w' = vm_list_cache w /\ last_refresh w' = last_refresh w /\
  power_state_cache w' = power_state_cache w /\ heap w' = heap w.
Proof.
  intros Hf. simpl. rewrite get_vm_list_unfold.
  destruct (cache_is_fresh_ok env force w) as [b Hb]. rewrite Hb.
  rewrite cache_is_fresh_world. destruct b; simpl; [repeat split|].
  destruct (fetch_vm_list_failed env (set_steps (list_request_step env force w) w) Hf)
    as (_ & ? & ? & ? & ? & _).
  repeat split; assumption.
Qed.

(** C1, as the code has it.  When [get_vm_list] goes to the client and
    the list request fails (it raises, the status is not 200, or the body
    cannot be read), the call returns the empty list, whatever the cached
    inventory holds, and does not raise; the cached inventory and its time
    stamp stay as they were. *)
Theorem get_vm_list_failure_returns_empty (env : Env) (force : bool) (w : World) :
  fst (cache_is_fresh env force w) = Ok false ->
  list_failed (env_get_vms env (list_request_step env force w)) = true ->
  fst (get_vm_list env force w) = Ok [] /\
  vm_list_cache (snd (get_vm_list env force w)) = vm_list_cache w /\
  last_refresh (snd (get_vm_list env force w)) = last_refresh w.
Proof.
  intros Hg Hf. split.
  - rewrite get_vm_list_fetches by exact Hg.
    apply (fetch_vm_list_failed env (set_steps (list_request_step env force w) w) Hf).
  - destruct (get_vm_list_failed_caches env force w Hf) as (? & ? & _). auto.
Qed.

Lemma get_vm_list_failure_returns_empty_witness :
  fst (get_vm_list env_500 true world_a) = Ok [] /\
  vm_list_cache (snd (get_vm_list env_500 true world_a)) = vm_list_cache world_a /\
  last_refresh (snd (get_vm_list env_500 true world_a)) = last_refresh world_a.
Proof.
  apply (get_vm_list_failure_returns_empty env_500 true world_a); reflexivity.
Defined.

(** C1 as stated fails: with VM "A" cached and the hypervisor
    unreachable, a forced [get_vm_list] returns the empty list, not the
    cached one. *)
Lemma get_vm_list_failure_drops_cached_list :
  list_failed (env_get_vms env_down (list_request_step env_down true world_a)) = true /\
  vm_list_cache world_a = [0%nat] /\
  fst (get_vm_list env_down true world_a) = Ok [] /\
  fst (get_vm_list env_down true world_a) <> Ok (vm_list_cache world_a).
Proof.
  split; [reflexivity|]. split; [reflexivity|]. split; [reflexivity|].
  vm_compute. discriminate.
Qed.

(** C7.  A call whose client request fails records nothing: after a
    [get_vm_list] whose list request fails, and after a
    [get_vm_power_state] whose power request fails, the cached inventory,
    its [last_refresh], every power-state cache entry and every VM
    dictionary are exactly what they were before the call. *)
Theorem failed_call_records_nothing (env : Env) :
  (forall force w,
     list_failed (env_get_vms env (list_request_step env force w)) = true ->
     let w' := snd (get_vm_list env force w) in
     vm_list_cache w' = vm_list_cache w /\ last_refresh w' = last_refresh w /\
     power_state_cache w' = power_state_cache w /\ heap w' = heap w) /\
  (forall id w,
     power_failed (env_get_power env (S (steps w)) id) = true ->
     let w' := snd (get_vm_power_state env id w) in
     vm_list_cache w' = vm_list_cache w /\ last_refresh w' = last_refresh w /\
     power_state_cache w' = power_state_cache w /\ heap w' = heap w).
Proof.
  split.
  - intros force w Hf. apply get_vm_list_failed_caches. exact Hf.
  - intros id w Hf. simpl. unfold get_vm_power_state. unfold_monad. simpl.
    destruct (fetch_power_state_failed env id (env_time env (steps w))
                (set_steps (S (steps w)) w) Hf) as (_ & Hc & Hv & Hl & Hh).
    destruct (power_state_cache w !! id) as [[t s]|];
      [destruct (Qltb _ _); [repeat split|]|]; auto.
Qed.

Lemma failed_call_records_nothing_witness :
  (let w' := snd (get_vm_list env_down true world_a) in
   vm_list_cache w' = [0%nat] /\ last_refresh w' = 0 /\
   power_state_cache w' = power_state_cache world_a /\ heap w' = heap world_a) /\
  (let w' := snd (get_vm_power_state env_down "A" world_a) in
   vm_list_cache w' = [0%nat] /\ last_refresh w' = 0 /\
   power_state_cache w' = power_state_cache world_a /\ heap w' = heap world_a).
Proof.
  destruct (failed_call_records_nothing env_down) as [Hl Hp]. split.
  - apply (Hl true world_a). reflexivity.
  - apply (Hp "A" world_a). reflexivity.
Defined.

(** C10.  With an empty cached inventory, [get_vm_list(force=False)]
    never serves the cache: whatever [last_refresh] and the clock say, it
    does not even read the clock, goes to the client and sends exactly one
    list request. *)
Theorem empty_cache_always_refetches (env : Env) (w : World) :
  vm_list_cache w = [] ->
  get_vm_list env false w = fetch_vm_list env w /\
  calls is_get_vms w (snd (get_vm_list env false w)) = 1%nat.
Proof.
  intros He.
  assert (get_vm_list env false w = fetch_vm_list env w) as Heq.
  { rewrite get_vm_list_unfold, cache_is_fresh_empty by exact He. reflexivity. }
  split; [exact Heq|]. rewrite Heq. apply calls_fetch_vm_list. reflexivity.
Qed.

Lemma empty_cache_always_refetches_witness :
  get_vm_list env_three false initial_world = fetch_vm_list env_three initial_world /\
  calls is_get_vms initial_world (snd (get_vm_list env_three false initial_world)) = 1%nat.
Proof.
  apply (empty_cache_always_refetches env_three initial_world). reflexivity.
Defined.

(** C5, as the code has it.  While the cached inventory is not empty:
    a [get_vm_list(force=False)] made when the age of the entry is below
    [CACHE_TIMEOUT] returns the cached list, calls no client and changes
    no cache; one made when the age has reached [CACHE_TIMEOUT] sends
    exactly one list request. *)
Theorem get_vm_list_ttl (env : Env) (w : World) :
  vm_list_cache w <> [] ->
  (env_time env (steps w) - last_refresh w < CACHE_TIMEOUT ->
   get_vm_list env false w = (Ok (vm_list_cache w), set_steps (S (steps w)) w) /\
   calls is_client_call w (snd (get_vm_list env false w)) = 0%nat) /\
  (CACHE_TIMEOUT <= env_time env (steps w) - last_refresh w ->
   calls is_get_vms w (snd (get_vm_list env false w)) = 1%nat).
Proof.
  intros Hne. split.
  - intros Hage. apply Qltb_lt in Hage.
    assert (get_vm_list env false w = (Ok (vm_list_cache w), set_steps (S (steps w)) w))
      as Heq.
    { rewrite get_vm_list_unfold, cache_is_fresh_nonempty by exact Hne.
      simpl. rewrite Hage. reflexivity. }
    split; [exact Heq|]. rewrite Heq. unfold calls, new_events. simpl.
    rewrite drop_all. reflexivity.
  - intros Hage. apply Qltb_ge in Hage.
    rewrite get_vm_list_unfold, cache_is_fresh_nonempty by exact Hne.
    simpl. rewrite Hage. apply calls_fetch_vm_list. reflexivity.
Qed.

(** The scenario of the specification: three VMs fetched at time 0; the
    call at time 2 returns them and sends nothing; the call at time 6
    sends exactly one list request. *)
Lemma ttl_scenario :
  let w0 := snd (get_vm_list env_three true initial_world) in
  let w2 := snd (get_vm_list env_three false w0) in
  let w6 := snd (get_vm_list env_three false w2) in
  fst (get_vm_list env_three true initial_world) = Ok [0; 1; 2]%nat /\
  last_refresh w0 = 0 /\
  fst (get_vm_list env_three false w0) = Ok [0; 1; 2]%nat /\
  calls is_client_call w0 w2 = 0%nat /\
  calls is_get_vms w2 w6 = 1%nat.
Proof. vm_compute. repeat split. Qed.

Lemma get_vm_list_ttl_witness :
  let w0 := snd (get_vm_list env_three true initial_world) in
  let w2 := snd (get_vm_list env_three false w0) in
  calls is_client_call w0 w2 = 0%nat /\
  calls is_get_vms w2 (snd (get_vm_list env_three false w2)) = 1%nat.
Proof.
  set (w0 := snd (get_vm_list env_three true initial_world)).
  set (w2 := snd (get_vm_list env_three false w0)).
  split.
  - apply (get_vm_list_ttl env_three w0); [vm_compute; discriminate | reflexivity].
  - apply (get_vm_list_ttl env_three w2); [vm_compute; discriminate | vm_compute; discriminate].
Defined.

(** C5 as stated fails: the hypervisor listed no VM at time 0; at time 2
    the entry is 2 seconds old, yet [get_vm_list(force=False)] sends a
    list request and returns three VMs, not the cached (empty) list. *)
Lemma get_vm_list_young_empty_cache_refetches :
  let w0 := snd (get_vm_list env_empty_then_three true initial_world) in
  let w2 := snd (get_vm_list env_empty_then_three false w0) in
  vm_list_cache w0 = [] /\ last_refresh w0 = 0 /\
  env_time env_empty_then_three (steps w0) - last_refresh w0 < CACHE_TIMEOUT /\
  calls is_get_vms w0 w2 = 1%nat /\
  fst (get_vm_list env_empty_then_three false w0) = Ok [0; 1; 2]%nat.
Proof. vm_compute. repeat split. Qed.

(** ** The worker while a submenu is active *)

Lemma tick_in_submenu (env : Env) (w : World) :
  submenu_active (env_current_menu env (S (steps w))) = true ->
  tick env w
  = (Ok tt, set_trace (trace w ++ [EvSleep REFRESH_INTERVAL])%list
              (set_steps (S (S (steps w))) w)).
Proof.
  intros Hm. unfold tick, tick_body. unfold_monad. simpl. rewrite Hm. reflexivity.
Qed.

(** C2.  A tick that finds a submenu active ([main_menu.current_menu] is
    set and not [None]) does nothing but sleep [REFRESH_INTERVAL]: the
    only event is that sleep, no client is called, the lock is not
    touched, and caches, dictionaries, menu and timers are as before. *)
Theorem submenu_tick_only_sleeps (env : Env) (w : World) :
  submenu_active (env_current_menu env (S (steps w))) = true ->
  tick env w
  = (Ok tt, set_trace (trace w ++ [EvSleep REFRESH_INTERVAL])%list
              (set_steps (S (S (steps w))) w)) /\
  new_events w (snd (tick env w)) = [EvSleep REFRESH_INTERVAL] /\
  calls is_client_call w (snd (tick env w)) = 0%nat /\
  same_data w (snd (tick env w)) /\ menu_lock (snd (tick env w)) = menu_lock w.
Proof.
  intros Hm. pose proof (tick_in_submenu env w Hm) as Heq.
  split; [exact Heq|]. rewrite Heq. unfold calls, new_events. simpl.
  rewrite drop_app_length. repeat split.
Qed.

Lemma submenu_tick_only_sleeps_witness :
  new_events world_a (snd (tick env_submenu world_a)) = [EvSleep REFRESH_INTERVAL] /\
  calls is_client_call world_a (snd (tick env_submenu world_a)) = 0%nat /\
  same_data world_a (snd (tick env_submenu world_a)).
Proof.
  destruct (submenu_tick_only_sleeps env_submenu world_a) as (_ & He & Hc & Hd & _).
  - reflexivity.
  - split; [exact He|]. split; [exact Hc | exact Hd].
Defined.

(** Over any number of ticks with a submenu active throughout, the worker
    only sleeps. *)
Lemma submenu_ticks_only_sleep (env : Env) (n : nat) :
  (forall k, submenu_active (env_current_menu env k) = true) ->
  forall w, _shutdown (main_menu w) = false ->
  worker_loop env n w
  = (Ok tt, set_trace (trace w ++ replicate n (EvSleep REFRESH_INTERVAL))%list
              (set_steps (n + n + steps w) w)).
Proof.
  intros Hm. induction n as [|n IH]; intros w Hs; simpl.
  - unfold ret. rewrite app_nil_r. destruct w; reflexivity.
  - unfold bind at 1. unfold gets at 1. rewrite Hs.
    unfold bind at 1.
    rewrite (tick_in_submenu env w (Hm _)).
    rewrite IH by exact Hs. simpl. f_equal.
    rewrite <- app_assoc. simpl.
    replace (n + n + S (S (steps w)))%nat with (S (n + S n + steps w)) by lia.
    reflexivity.
Qed.

(** ** The gate *)

#[local] Instance same_lock_preorder : PreOrder same_lock.
Proof.
  split; [intros w; reflexivity|].
  intros w1 w2 w3 H1 H2. unfold same_lock in *. congruence.
Qed.

#[local] Instance no_gate_preorder : PreOrder no_gate.
Proof.
  split.
  - intros w. split; reflexivity.
  - intros w1 w2 w3 [L1 E1] [L2 E2]. split; etransitivity; eauto.
Qed.

Lemma preserves_no_gate {A} (m : M A) :
  preserves same_worker m -> preserves (emits not_lock_event) m -> preserves no_gate m.
Proof. intros Hw He w. split; [apply Hw | apply He]. Qed.

Lemma filter_not_lock_event evs :
  Forall not_lock_event evs -> List.filter is_lock_event evs = [].
Proof.
  induction 1 as [|ev evs H _ IH]; simpl; [reflexivity|].
  destruct ev; simpl in *; try exact IH; contradiction.
Qed.

Lemma no_gate_paired w w' : no_gate w w' -> gate_paired w w'.
Proof.
  intros [HL (evs & Ht & HF)]. exists evs. split; [exact Ht|].
  left. split; [apply filter_not_lock_event, HF | exact HL].
Qed.

Lemma no_gate_then_paired w w1 w2 : no_gate w w1 -> gate_paired w1 w2 -> gate_paired w w2.
Proof.
  intros [HL (e1 & Ht1 & HF)] (e2 & Ht2 & H).
  exists (e1 ++ e2)%list. split; [rewrite Ht2, Ht1, app_assoc; reflexivity|].
  rewrite List.filter_app, (filter_not_lock_event _ HF). simpl.
  unfold same_lock in HL. rewrite <- HL. exact H.
Qed.

Lemma paired_then_no_gate w w1 w2 : gate_paired w w1 -> no_gate w1 w2 -> gate_paired w w2.
Proof.
  intros (e1 & Ht1 & H) [HL (e2 & Ht2 & HF)].
  exists (e1 ++ e2)%list. split; [rewrite Ht2, Ht1, app_assoc; reflexivity|].
  rewrite List.filter_app, (filter_not_lock_event _ HF), app_nil_r.
  unfold same_lock in HL. rewrite HL. exact H.
Qed.

(** The section between a successful acquire and the release: the lock is
    held on entry and free on exit, however the body ends. *)
Lemma locked_section {A} (m : M A) (w : World) :
  preserves no_gate m ->
  menu_lock w = true ->
  exists evs,
    trace (snd (try_finally m menu_lock_release w)) = (trace w ++ evs ++ [EvRelease])%list /\
    Forall not_lock_event evs /\
    menu_lock (snd (try_finally m menu_lock_release w)) = false /\
    fst (try_finally m menu_lock_release w) = fst (m w).
Proof.
  intros Hm Hl. destruct (Hm w) as [HL (evs & Ht & HF)].
  unfold try_finally, menu_lock_release. destruct (m w) as [r w1]. simpl in *.
  unfold same_lock in HL. unfold_monad. simpl. rewrite HL, Hl. simpl.
  exists evs. rewrite Ht, app_assoc. auto.
Qed.

(** [if menu_lock.acquire(timeout=t): try: m finally: menu_lock.release()]
    around a body that leaves the gate alone: the acquire is paired with
    the release however [m] ends. *)
Lemma guarded_paired env {A} (t : Q) (m : M A) (skip : M A) :
  preserves no_gate m -> preserves no_gate skip ->
  preserves gate_paired
    (bind (menu_lock_acquire env t)
          (fun acquired => if acquired then try_finally m menu_lock_release else skip)).
Proof.
  intros Hm Hskip w.
  assert (forall w3, menu_lock w3 = true ->
            trace w3 = (trace w ++ [EvAcquire true])%list ->
            gate_paired w (snd (try_finally m menu_lock_release w3))) as Hsec.
  { intros w3 H3 Ht3. destruct (locked_section m w3 Hm H3) as (evs & Ht & HF & Hfree & _).
    exists (EvAcquire true :: evs ++ [EvRelease])%list. split.
    - rewrite Ht, Ht3, <- app_assoc. reflexivity.
    - right. right. split; [|exact Hfree]. simpl.
      rewrite List.filter_app, (filter_not_lock_event _ HF). reflexivity. }
  unfold bind at 1. unfold menu_lock_acquire. unfold_monad. simpl.
  destruct (menu_lock w) eqn:Hl; simpl.
  - destruct (env_lock_wait env (steps w)); simpl.
    + apply Hsec; reflexivity.
    + match goal with |- gate_paired _ (snd (skip ?w3)) =>
        destruct (Hskip w3) as [HL (evs & Ht & HF)] end.
      simpl in *. exists (EvAcquire false :: evs)%list. split.
      * rewrite Ht, <- app_assoc. reflexivity.
      * right. left. simpl. rewrite (filter_not_lock_event _ HF).
        unfold same_lock in HL. simpl in HL. split; [reflexivity | congruence].
  - apply Hsec; reflexivity.
Qed.

Lemma gate_paired_bind {A B} (m : M A) (k : A -> M B) :
  preserves no_gate m -> (forall a, preserves gate_paired (k a)) ->
  preserves gate_paired (bind m k).
Proof.
  intros Hm Hk w. unfold bind. specialize (Hm w).
  destruct (m w) as [[a|e] w1]; simpl in *.
  - eapply no_gate_then_paired; [exact Hm | apply Hk].
  - apply no_gate_paired, Hm.
Qed.

Lemma gate_paired_then {A B} (m : M A) (k : A -> M B) :
  preserves gate_paired m -> (forall a, preserves no_gate (k a)) ->
  preserves gate_paired (bind m k).
Proof.
  intros Hm Hk w. unfold bind. specialize (Hm w).
  destruct (m w) as [[a|e] w1]; simpl in *.
  - eapply paired_then_no_gate; [exact Hm | apply Hk].
  - exact Hm.
Qed.

Lemma gate_paired_handled {A} (m : M A) (h : Exn -> M A) :
  preserves gate_paired m -> (forall e, preserves no_gate (h e)) ->
  preserves gate_paired (try_except m h).
Proof.
  intros Hm Hh w. unfold try_except. specialize (Hm w).
  destruct (m w) as [[a|e] w1]; simpl in *.
  - exact Hm.
  - eapply paired_then_no_gate; [exact Hm | apply Hh].
Qed.

Lemma bind_assoc {A B C} (m : M A) (f : A -> M B) (g : B -> M C) (w : World) :
  bind m (fun a => bind (f a) g) w = bind (bind m f) g w.
Proof. unfold bind. destruct (m w) as [[a|e] w1]; reflexivity. Qed.

Lemma preserves_ext {A} (R : relation World) (m m' : M A) :
  (forall w, m' w = m w) -> preserves R m -> preserves R m'.
Proof. intros He Hm w. rewrite He. apply Hm. Qed.

Ltac solve_no_gate :=
  apply preserves_no_gate; [frame | unfold log_message, time_sleep; frame].

Section Gate.

Variable env : Env.

Lemma locked_refresh_no_gate current_time : preserves no_gate (locked_refresh env current_time).
Proof.
  unfold locked_refresh.
  apply preserves_bind; [exact _ | solve_no_gate | intros a].
  destruct (negb (submenu_active a)); [|solve_no_gate].
  apply preserves_bind; [exact _ | solve_no_gate | intros lf].
  apply preserves_bind; [exact _ | solve_no_gate | intros lp].
  destruct (Qle_bool _ _).
  { apply preserves_bind; [exact _ | solve_no_gate | intros _].
    split; [reflexivity | exists []; split; [symmetry; apply app_nil_r | constructor]]. }
  destruct (Qle_bool _ _); [|solve_no_gate].
  apply preserves_bind; [exact _ | | intros _].
  { apply preserves_bind; [exact _ | solve_no_gate | intros vms]. solve_no_gate. }
  apply preserves_bind; [exact _ | solve_no_gate | intros _].
  split; [reflexivity | exists []; split; [symmetry; apply app_nil_r | constructor]].
Qed.

Lemma tick_gate_paired : preserves gate_paired (tick env).
Proof.
  unfold tick. apply gate_paired_handled.
  - unfold tick_body.
    apply gate_paired_bind; [solve_no_gate | intros current_time].
    apply gate_paired_bind; [solve_no_gate | intros a].
    destruct (submenu_active a).
    + apply preserves_weaken with (R := no_gate); [exact no_gate_paired | solve_no_gate].
    + eapply preserves_ext; [intros w; apply bind_assoc|].
      apply gate_paired_then; [|intros ?; solve_no_gate].
      apply (guarded_paired env 1 (locked_refresh env current_time) (ret tt));
        [apply locked_refresh_no_gate | solve_no_gate].
  - intros e.
    apply preserves_bind; [exact _ | solve_no_gate | intros _].
    apply preserves_bind; [exact _ | solve_no_gate | intros sd].
    destruct (negb sd); solve_no_gate.
Qed.

End Gate.

Lemma raises_clean_bind {A B} (m : M A) (k : A -> M B) :
  preserves no_gate m -> (forall a, raises_clean (k a)) -> raises_clean (bind m k).
Proof.
  intros Hm Hk w. unfold bind. specialize (Hm w).
  destruct (m w) as [[a|e] w1]; simpl in *; [|exact Hm].
  specialize (Hk a w1). destruct (fst (k a w1)).
  - eapply no_gate_then_paired; eauto.
  - etransitivity; eauto.
Qed.

Lemma raises_clean_raise {A} (e : Exn) : raises_clean (@raise A e).
Proof. intros w. simpl. reflexivity. Qed.

Lemma gate_paired_caught {A} (m : M A) (h : Exn -> M A) :
  raises_clean m -> (forall e, preserves gate_paired (h e)) ->
  preserves gate_paired (try_except m h).
Proof.
  intros Hm Hh w. unfold try_except. specialize (Hm w).
  destruct (m w) as [[a|e] w1]; simpl in *; [exact Hm|].
  eapply no_gate_then_paired; [exact Hm | apply Hh].
Qed.

Section GateOfAction.

Variable env : Env.

Lemma locked_log_paired msg lvl : preserves gate_paired (locked_log env msg lvl).
Proof.
  unfold locked_log.
  apply (guarded_paired env 1 (log_message msg lvl false) (ret tt)); solve_no_gate.
Qed.

Lemma locked_log_returns msg lvl w : fst (locked_log env msg lvl w) = Ok tt.
Proof.
  unfold locked_log, menu_lock_acquire, menu_lock_release. unfold_monad. simpl.
  destruct (menu_lock w); simpl; [destruct (env_lock_wait env (steps w)); simpl|];
    reflexivity.
Qed.

Lemma locked_log_then {A} msg lvl (a : A) :
  raises_clean (locked_log env msg lvl >> ret a) /\
  preserves gate_paired (locked_log env msg lvl >> ret a).
Proof.
  assert (preserves gate_paired (locked_log env msg lvl >> ret a)) as Hp.
  { apply gate_paired_then; [apply locked_log_paired | intros ?; solve_no_gate]. }
  split; [|exact Hp].
  intros w. specialize (Hp w). unfold bind in *.
  pose proof (locked_log_returns msg lvl w) as Hr.
  destruct (locked_log env msg lvl w) as [r w1]. simpl in Hr. subst r. exact Hp.
Qed.

Lemma add_api_message_no_gate menu msg : preserves no_gate (add_api_message menu msg).
Proof. unfold add_api_message. destruct menu; solve_no_gate. Qed.

Lemma vm_action_try_clean vm_id action force menu :
  raises_clean (vm_action_try env vm_id action force menu).
Proof.
  unfold vm_action_try. destruct (action_map action) as [api_action|].
  - repeat (apply raises_clean_bind;
            [first [apply add_api_message_no_gate | solve_no_gate] | intros ?]).
    match goal with |- raises_clean (match ?r with _ => _ end) => destruct r end.
    + apply raises_clean_raise.
    + repeat (apply raises_clean_bind;
              [first [apply add_api_message_no_gate | solve_no_gate] | intros ?]).
      match goal with |- raises_clean (if ?b then _ else _) => destruct b end;
        apply locked_log_then.
  - apply locked_log_then.
Qed.

Lemma vm_action_gate_paired vm_id action force menu :
  preserves gate_paired (vm_action env vm_id action force menu).
Proof.
  unfold vm_action. apply gate_paired_caught; [apply vm_action_try_clean|].
  intros e. destruct (exn_kind e); apply locked_log_then.
Qed.

End GateOfAction.

Lemma filter_through (p q : Event -> bool) (evs : list Event) :
  (forall ev, p ev = true -> q ev = true) ->
  List.filter p evs = List.filter p (List.filter q evs).
Proof.
  intros Hp. induction evs as [|ev evs IH]; simpl; [reflexivity|].
  destruct (p ev) eqn:E.
  - rewrite (Hp _ E). simpl. rewrite E. f_equal. exact IH.
  - destruct (q ev); simpl; [rewrite E|]; exact IH.
Qed.

(** What pairing means for the counts and for the next acquire. *)
Lemma gate_paired_released (w w' : World) :
  gate_paired w w' ->
  calls is_acquired w w' = calls is_release w w' /\
  (calls is_acquired w w' <> 0%nat ->
   menu_lock w' = false /\
   forall env t, fst (menu_lock_acquire env t w') = Ok true).
Proof.
  intros (evs & Ht & H). unfold calls, new_events. rewrite Ht, drop_app_length.
  rewrite (filter_through is_acquired is_lock_event),
          (filter_through is_release is_lock_event);
    [| intros [] E; try discriminate; reflexivity
     | intros [] E; try discriminate; reflexivity ].
  destruct H as [[-> Hl]|[[-> Hl]|[-> Hl]]]; simpl; split; try reflexivity;
    try (intros C; exfalso; apply C; reflexivity).
  intros _. split; [exact Hl|]. intros env t.
  unfold menu_lock_acquire. unfold_monad. simpl. rewrite Hl. reflexivity.
Qed.

(** C4.  In every iteration of the worker and in every [vm_action], each
    successful acquire of [menu_lock] is followed by its release before
    the code returns, whether the guarded body returns or raises: as many
    releases as successful acquires, and after a run that acquired the
    gate the lock is free, so that the next acquire succeeds at once. *)
Theorem gate_released_on_every_path (env : Env) :
  (forall w,
     let w' := snd (tick env w) in
     calls is_acquired w w' = calls is_release w w' /\
     (calls is_acquired w w' <> 0%nat ->
      menu_lock w' = false /\
      forall env' t, fst (menu_lock_acquire env' t w') = Ok true)) /\
  (forall vm_id action force menu w,
     let w' := snd (vm_action env vm_id action force menu w) in
     calls is_acquired w w' = calls is_release w w' /\
     (calls is_acquired w w' <> 0%nat ->
      menu_lock w' = false /\
      forall env' t, fst (menu_lock_acquire env' t w') = Ok true)).
Proof.
  split.
  - intros w. apply gate_paired_released, tick_gate_paired.
  - intros vm_id action force menu w. apply gate_paired_released, vm_action_gate_paired.
Qed.

(** The refresh of this iteration raises (curses fails under
    [refresh_vm_list]); the worker logs it, and the gate is free. *)
Lemma gate_released_on_every_path_witness :
  let w' := snd (tick env_draw_fails initial_world) in
  In (EvLog "Error in refresh worker: addwstr() returned ERR" "ERROR" false) (trace w') /\
  calls is_acquired initial_world w' = 1%nat /\
  calls is_release initial_world w' = 1%nat /\
  menu_lock w' = false /\
  fst (menu_lock_acquire env_draw_fails 1 w') = Ok true.
Proof.
  destruct (gate_released_on_every_path env_draw_fails) as [Htick _].
  destruct (Htick initial_world) as [Heq Hfree].
  destruct Hfree as [Hl Hacq]; [vm_compute; discriminate|].
  split; [vm_compute; tauto|].
  split; [reflexivity|].
  split; [rewrite <- Heq; reflexivity|].
  split; [exact Hl | apply Hacq].
Defined.

(** A power request that times out: [vm_action] logs under the gate in
    its [except] clause and leaves the gate free. *)
Lemma vm_action_timeout_releases :
  let w' := snd (vm_action env_put_timeout "A" "start" false true initial_world) in
  fst (vm_action env_put_timeout "A" "start" false true initial_world) = Ok false /\
  lock_events initial_world w' = [EvAcquire true; EvRelease] /\
  menu_lock w' = false.
Proof. vm_compute. repeat split. Qed.

(** ** Where power states come from *)

#[local] Instance power_history_preorder : PreOrder power_history.
Proof.
  split.
  - intros w. split; [lia|]. exists []. split; [symmetry; apply app_nil_r | auto].
  - intros w1 w2 w3 (S1 & e1 & T1 & H1) (S2 & e2 & T2 & H2). split; [lia|].
    exists (e1 ++ e2)%list. split; [rewrite T2, T1, app_assoc; reflexivity|].
    intros id t s H. destruct (H2 _ _ _ H) as [Hin|Hc].
    + left. apply in_or_app. right. exact Hin.
    + destruct (H1 _ _ _ Hc) as [Hin|Hc0]; [left; apply in_or_app; left; exact Hin|].
      right. exact Hc0.
Qed.

Lemma power_history_grow (w w' : World) (evs : list Event) :
  (steps w <= steps w')%nat ->
  trace w' = (trace w ++ evs)%list ->
  power_state_cache w' = power_state_cache w ->
  power_history w w'.
Proof.
  intros Hs Ht Hc. split; [exact Hs|]. exists evs. split; [exact Ht|].
  intros id t s H. right. rewrite <- Hc. exact H.
Qed.

Lemma power_history_emit ev : preserves power_history (emit ev).
Proof. intros w. apply (power_history_grow _ _ [ev]); simpl; auto. Qed.

Lemma power_history_log msg lvl r : preserves power_history (log_message msg lvl r).
Proof. apply power_history_emit. Qed.

Lemma power_history_ask env {A} (f : Env -> nat -> A) : preserves power_history (ask env f).
Proof.
  intros w. apply (power_history_grow _ _ []); simpl; auto. symmetry. apply app_nil_r.
Qed.

Lemma power_history_alloc vm : preserves power_history (alloc vm).
Proof.
  intros w. apply (power_history_grow _ _ []); simpl; auto. symmetry. apply app_nil_r.
Qed.

Lemma power_history_store l s : preserves power_history (store_power_state l s).
Proof.
  intros w. apply (power_history_grow _ _ []); simpl; auto. symmetry. apply app_nil_r.
Qed.

Lemma new_events_app (w w' : World) (evs : list Event) :
  trace w' = (trace w ++ evs)%list -> new_events w w' = evs.
Proof. intros H. unfold new_events. rewrite H. apply drop_app_length. Qed.

Section Sources.

Variable env : Env.

(** What [get_vm_power_state] returns was obtained during the call. *)
Lemma get_vm_power_state_sourced (id : string) (w : World) :
  power_history w (snd (get_vm_power_state env id w)) /\
  exists s, fst (get_vm_power_state env id w) = Ok s /\
            sourced env w (snd (get_vm_power_state env id w)) id s.
Proof.
  assert (forall w0 : World, trace w0 = trace w -> (steps w <= steps w0)%nat ->
            power_state_cache w0 = power_state_cache w ->
            let r := fetch_power_state env id (env_time env (steps w)) w0 in
            power_history w (snd r) /\
            exists s, fst r = Ok s /\ In (EvGetPower id) (new_events w (snd r))) as Hfetch.
  { intros w0 Ht Hs Hc. unfold fetch_power_state. unfold_monad. simpl.
    destruct (env_get_power env (steps w0) id) as [e|[|] [e|st]]; simpl.
    all: split;
      [ split; [simpl; lia|]; eexists; split;
        [simpl; rewrite Ht, <- ?app_assoc; simpl; reflexivity|]
      | eexists; split; [reflexivity|];
        erewrite new_events_app by (simpl; rewrite Ht, <- ?app_assoc; simpl; reflexivity);
        simpl; auto ].
    all: simpl; intros id' t s H; try (right; rewrite <- Hc; exact H).
    destruct (decide (id = id')) as [<-|Hne]; [left; simpl; auto|].
    rewrite lookup_insert_ne in H by exact Hne. right. rewrite <- Hc. exact H. }
  unfold get_vm_power_state. unfold_monad. simpl.
  destruct (power_state_cache w !! id) as [[t s]|] eqn:Hc.
  - destruct (Qltb _ _) eqn:Hfresh.
    + simpl. split.
      * apply (power_history_grow _ _ []); simpl; auto. symmetry. apply app_nil_r.
      * exists s. split; [reflexivity|]. right. exists t, (steps w). simpl.
        split; [exact Hc|]. split; [lia|]. apply Qltb_lt. exact Hfresh.
    + destruct (Hfetch (set_steps (S (steps w)) w)) as (Hh & s' & Hr & Hin);
        simpl; auto.
      split; [exact Hh|]. exists s'. split; [exact Hr | left; exact Hin].
  - destruct (Hfetch (set_steps (S (steps w)) w)) as (Hh & s' & Hr & Hin);
      simpl; auto.
    split; [exact Hh|]. exists s'. split; [exact Hr | left; exact Hin].
Qed.

Lemma get_vm_power_state_history id : preserves power_history (get_vm_power_state env id).
Proof. intros w. apply get_vm_power_state_sourced. Qed.

(** A source seen from an earlier world. *)
Lemma sourced_since (w0 w w1 : World) (id s : string) :
  power_history w0 w -> power_history w w1 ->
  sourced env w w1 id s -> sourced env w0 w1 id s.
Proof.
  intros (S0 & e0 & T0 & H0) (S1 & e1 & T1 & _) Hsrc.
  assert (new_events w0 w1 = (e0 ++ e1)%list) as Hn.
  { apply new_events_app. rewrite T1, T0, app_assoc. reflexivity. }
  destruct Hsrc as [Hin|(t & n & Hc & Hn1 & Hf)].
  - left. rewrite Hn. rewrite (new_events_app _ _ _ T1) in Hin.
    apply in_or_app. right. exact Hin.
  - destruct (H0 _ _ _ Hc) as [Hin|Hc0].
    + left. rewrite Hn. apply in_or_app. left. exact Hin.
    + right. exists t, n. split; [exact Hc0|]. split; [lia | exact Hf].
Qed.

(** A source stays one while the world moves on. *)
Lemma sourced_later (w0 w w1 : World) (id s : string) :
  power_history w0 w -> power_history w w1 ->
  sourced env w0 w id s -> sourced env w0 w1 id s.
Proof.
  intros (S0 & e0 & T0 & _) (S1 & e1 & T1 & _) Hsrc.
  assert (new_events w0 w1 = (e0 ++ e1)%list) as Hn.
  { apply new_events_app. rewrite T1, T0, app_assoc. reflexivity. }
  destruct Hsrc as [Hin|(t & n & Hc & Hn1 & Hf)].
  - left. rewrite Hn. rewrite (new_events_app _ _ _ T0) in Hin.
    apply in_or_app. left. exact Hin.
  - right. exists t, n. split; [exact Hc|]. split; [lia | exact Hf].
Qed.

Lemma vm_sourced_later (w0 w w1 : World) (l : loc) :
  power_history w0 w -> power_history w w1 ->
  heap w1 !! l = heap w !! l ->
  vm_sourced env w0 w l -> vm_sourced env w0 w1 l.
Proof.
  intros H0 H1 Hh (vm & Hl & Hs). exists vm. split; [rewrite Hh; exact Hl|].
  eapply sourced_later; eauto.
Qed.

End Sources.

#[local] Hint Resolve power_history_emit power_history_log power_history_ask
  power_history_alloc power_history_store get_vm_power_state_history : frame.

Section ListSources.

Variable env : Env.

Lemma process_entries_history items acc :
  preserves power_history (process_entries env items acc).
Proof. apply process_entries_preserves; try exact _; frame. Qed.

Lemma process_entry_sourced (w0 : World) (vm : RawEntry) (acc : list loc) (w : World) :
  power_history w0 w ->
  (forall l, In l acc -> vm_sourced env w0 w l) ->
  exists acc',
    fst (process_entry env vm acc w) = Ok acc' /\
    power_history w0 (snd (process_entry env vm acc w)) /\
    forall l, In l acc' -> vm_sourced env w0 (snd (process_entry env vm acc w)) l.
Proof.
  intros H0 Hacc.
  assert (forall w' evs, trace w' = (trace w ++ evs)%list -> steps w' = steps w ->
            power_state_cache w' = power_state_cache w -> heap w' = heap w ->
            power_history w0 w' /\ forall l, In l acc -> vm_sourced env w0 w' l) as Hquiet.
  { intros w' evs Ht Hs Hc Hh.
    assert (power_history w w') as H1
      by (apply (power_history_grow _ _ evs); [lia | exact Ht | exact Hc]).
    split; [etransitivity; eauto|]. intros l Hl.
    apply (vm_sourced_later env w0 w w'); auto. rewrite Hh. reflexivity. }
  destruct vm as [e|raw_id raw_path].
  - exists acc. unfold process_entry. unfold_monad. simpl. split; [reflexivity|].
    eapply Hquiet; simpl; reflexivity.
  - unfold process_entry. destruct (truthy raw_id).
    + destruct (get_vm_power_state_sourced env (default "" raw_id) w) as (H1 & s & Hr & Hsrc).
      pose proof (get_vm_power_state_heap env (default "" raw_id) w) as Hheap.
      unfold try_except, bind, alloc, ret.
      destruct (get_vm_power_state env (default "" raw_id) w) as [r w1].
      simpl in *. subst r. simpl. rewrite Hheap.
      set (w2 := set_heap _ w1).
      assert (power_history w1 w2) as H12.
      { apply (power_history_grow _ _ []); simpl; auto. symmetry; apply app_nil_r. }
      assert (power_history w0 w1) as H01 by (etransitivity; eauto).
      assert (power_history w w2) as Hw2 by (etransitivity; eauto).
      eexists. split; [reflexivity|]. split; [etransitivity; eauto|].
      intros x Hx. apply in_app_or in Hx. destruct Hx as [Hx|[<-|[]]].
      * apply (vm_sourced_later env w0 w w2 x H0 Hw2); [|apply Hacc, Hx].
        destruct (Hacc x Hx) as (v & Hv & _). subst w2. simpl.
        apply lookup_insert_ne.
        intros <-. pose proof (is_fresh (dom (heap w))) as Hf.
        apply Hf, elem_of_dom. exists v. exact Hv.
      * eexists. split; [subst w2; simpl; apply lookup_insert_eq|]. simpl.
        apply (sourced_later env w0 w1 w2); auto.
        apply (sourced_since env w0 w w1); auto.
    + exists acc. unfold try_except, ret. simpl. split; [reflexivity|].
      split; [exact H0 | exact Hacc].
Qed.

Lemma process_entries_sourced (w0 : World) (items : list RawEntry) :
  forall (acc : list loc) (w : World),
  power_history w0 w ->
  (forall l, In l acc -> vm_sourced env w0 w l) ->
  exists vms,
    fst (process_entries env items acc w) = Ok vms /\
    forall l, In l vms -> vm_sourced env w0 (snd (process_entries env items acc w)) l.
Proof.
  induction items as [|vm rest IH]; intros acc w H0 Hacc; simpl.
  - exists acc. split; [reflexivity | exact Hacc].
  - destruct (process_entry_sourced w0 vm acc w H0 Hacc) as (acc' & Hr & H1 & Hacc').
    unfold bind. destruct (process_entry env vm acc w) as [r w1]. simpl in *. subst r.
    apply IH; assumption.
Qed.

End ListSources.

Lemma list_request_step_ge env force w : (steps w <= list_request_step env force w)%nat.
Proof.
  unfold list_request_step. destruct force; [simpl; lia|].
  destruct (vm_list_cache w) as [|l ls] eqn:Hc.
  - rewrite cache_is_fresh_empty by exact Hc. simpl. lia.
  - rewrite cache_is_fresh_nonempty by (rewrite Hc; discriminate). simpl. lia.
Qed.

(** ** What a full refresh builds *)

Section FullRefresh.

Variable env : Env.

Lemma fetched_later (w0 w w1 : World) (id s : string) :
  answer_history env w0 w -> answer_history env w w1 ->
  fetched env w0 w id s -> fetched env w0 w1 id s.
Proof.
  intros (S0 & (e0 & T0) & _) (S1 & (e1 & T1) & _) (Hin & n & Hn & Hs).
  split.
  - rewrite (new_events_app _ _ _ T0) in Hin.
    rewrite (new_events_app w0 w1 (e0 ++ e1)) by (rewrite T1, T0, app_assoc; reflexivity).
    apply in_or_app. left. exact Hin.
  - exists n. split; [lia | exact Hs].
Qed.

Lemma fetched_since (w0 w w1 : World) (id s : string) :
  answer_history env w0 w -> answer_history env w w1 ->
  fetched env w w1 id s -> fetched env w0 w1 id s.
Proof.
  intros (S0 & (e0 & T0) & _) (S1 & (e1 & T1) & _) (Hin & n & Hn & Hs).
  split.
  - rewrite (new_events_app _ _ _ T1) in Hin.
    rewrite (new_events_app w0 w1 (e0 ++ e1)) by (rewrite T1, T0, app_assoc; reflexivity).
    apply in_or_app. right. exact Hin.
  - exists n. split; [lia | exact Hs].
Qed.

#[local] Instance answer_history_preorder : PreOrder (answer_history env).
Proof.
  split.
  - intros w. split; [lia|]. split; [exists []; symmetry; apply app_nil_r|]. auto.
  - intros w1 w2 w3 H12 H23.
    pose proof H12 as (S1 & (e1 & T1) & H1). pose proof H23 as (S2 & (e2 & T2) & H2).
    split; [lia|]. split.
    + exists (e1 ++ e2)%list. rewrite T2, T1, app_assoc. reflexivity.
    + intros id t s H. destruct (H2 _ _ _ H) as [Hf|Hc].
      * left. apply (fetched_since w1 w2 w3); assumption.
      * destruct (H1 _ _ _ Hc) as [Hf|Hc0]; [|right; exact Hc0].
        left. apply (fetched_later w1 w2 w3); assumption.
Qed.

Lemma answer_history_grow (w w' : World) (evs : list Event) :
  (steps w <= steps w')%nat ->
  trace w' = (trace w ++ evs)%list ->
  power_state_cache w' = power_state_cache w ->
  answer_history env w w'.
Proof.
  intros Hs Ht Hc. split; [exact Hs|]. split; [exists evs; exact Ht|].
  intros id t s H. right. rewrite <- Hc. exact H.
Qed.

Lemma obtained_later (w0 w w1 : World) (id s : string) :
  answer_history env w0 w -> answer_history env w w1 ->
  obtained env w0 w id s -> obtained env w0 w1 id s.
Proof.
  intros H0 H1 [Hf|(t & n & Hc & Hn & Hq)].
  - left. apply (fetched_later w0 w w1); assumption.
  - right. exists t, n. split; [exact Hc|]. split; [|exact Hq].
    destruct H1 as (S1 & _). lia.
Qed.

Lemma obtained_since (w0 w w1 : World) (id s : string) :
  answer_history env w0 w -> answer_history env w w1 ->
  obtained env w w1 id s -> obtained env w0 w1 id s.
Proof.
  intros H0 H1 [Hf|(t & n & Hc & Hn & Hq)].
  - left. apply (fetched_since w0 w w1); assumption.
  - pose proof H0 as (S0 & _ & Hh). destruct (Hh _ _ _ Hc) as [Hf|Hc0].
    + left. apply (fetched_later w0 w w1); assumption.
    + right. exists t, n. split; [exact Hc0|]. split; [lia | exact Hq].
Qed.

(** What [get_vm_power_state] returns is what a request made during the
    call answered, or the young cache entry. *)
Lemma get_vm_power_state_obtained (id : string) (w : World) :
  answer_history env w (snd (get_vm_power_state env id w)) /\
  exists s, fst (get_vm_power_state env id w) = Ok s /\
            obtained env w (snd (get_vm_power_state env id w)) id s.
Proof.
  assert (forall w0 : World, trace w0 = trace w -> steps w0 = S (steps w) ->
            power_state_cache w0 = power_state_cache w ->
            let r := fetch_power_state env id (env_time env (steps w)) w0 in
            answer_history env w (snd r) /\
            exists s, fst r = Ok s /\ fetched env w (snd r) id s) as Hfetch.
  { intros w0 Ht Hs Hc. unfold fetch_power_state. unfold_monad. simpl.
    assert (forall (w' : World) (s : string) (evs : list Event),
              trace w' = (trace w ++ evs)%list -> In (EvGetPower id) evs ->
              steps w' = S (steps w0) ->
              s = power_answer (env_get_power env (steps w0) id) ->
              fetched env w w' id s) as Hf.
    { intros w' s evs Ht' Hin Hs' ->. split.
      - rewrite (new_events_app _ _ _ Ht'). exact Hin.
      - exists (steps w0). split; [lia | reflexivity]. }
    destruct (env_get_power env (steps w0) id) as [e|[|] [e|[st|]]] eqn:Hresp; simpl.
    all: match goal with
         | |- answer_history _ _ ?w' /\ (exists s, Ok ?x = Ok s /\ _) =>
             assert (fetched env w w' id x) as Hfx
               by (eapply Hf;
                   [ simpl; rewrite Ht, <- ?app_assoc; simpl; reflexivity
                   | simpl; auto | simpl; reflexivity | reflexivity ]);
             split; [|exists x; split; [reflexivity | exact Hfx]]
         end.
    all: split; [simpl; lia|]; split;
      [eexists; simpl; rewrite Ht, <- ?app_assoc; simpl; reflexivity|].
    all: simpl; intros id' t s H; try (right; rewrite <- Hc; exact H).
    all: destruct (decide (id = id')) as [<-|Hne];
      [ rewrite lookup_insert_eq in H; inversion H; subst; left; exact Hfx
      | rewrite lookup_insert_ne in H by exact Hne; right; rewrite <- Hc; exact H ]. }
  unfold get_vm_power_state. unfold_monad. simpl.
  destruct (power_state_cache w !! id) as [[t s]|] eqn:Hc.
  - destruct (Qltb _ _) eqn:Hfresh.
    + simpl. split.
      * apply (answer_history_grow _ _ []); simpl; auto. symmetry. apply app_nil_r.
      * exists s. split; [reflexivity|]. right. exists t, (steps w). simpl.
        split; [exact Hc|]. split; [lia|]. apply Qltb_lt. exact Hfresh.
    + destruct (Hfetch (set_steps (S (steps w)) w)) as (Hh & s' & Hr & Hin);
        simpl; auto.
      split; [exact Hh|]. exists s'. split; [exact Hr | left; exact Hin].
  - destruct (Hfetch (set_steps (S (steps w)) w)) as (Hh & s' & Hr & Hin);
      simpl; auto.
    split; [exact Hh|]. exists s'. split; [exact Hr | left; exact Hin].
Qed.

Lemma listed_cons (vm : RawEntry) (rest : list RawEntry) :
  listed (vm :: rest) = (listed [vm] ++ listed rest)%list.
Proof.
  destruct vm as [e|[id|] p]; simpl; try reflexivity.
  destruct (String.eqb id ""); reflexivity.
Qed.

Lemma built_later (w0 w w1 : World) (l : loc) (entry : string * option string) :
  answer_history env w0 w -> answer_history env w w1 -> heap_grows w w1 ->
  built env w0 w l entry -> built env w0 w1 l entry.
Proof.
  intros H0 H1 Hg (s & Hl & Ho). exists s. split; [apply Hg, Hl|].
  apply (obtained_later w0 w w1); assumption.
Qed.

Lemma process_entry_built (w0 : World) (vm : RawEntry) (acc : list loc) (w : World) :
  answer_history env w0 w ->
  let r := process_entry env vm acc w in
  exists new,
    fst r = Ok (acc ++ new)%list /\ answer_history env w (snd r) /\
    heap_grows w (snd r) /\ Forall2 (built env w0 (snd r)) new (listed [vm]).
Proof.
  intros H0 r. subst r. destruct vm as [e|raw_id raw_path].
  - simpl. exists []. unfold process_entry. unfold_monad. simpl. rewrite app_nil_r.
    split; [reflexivity|]. split; [|split; [intros l v H; exact H | constructor]].
    eapply answer_history_grow; simpl; [lia | reflexivity | reflexivity].
  - unfold process_entry.
    assert (truthy raw_id = false ->
            listed [RawDict raw_id raw_path] = []) as Hskip.
    { destruct raw_id as [id|]; simpl; [|reflexivity].
      destruct (String.eqb id ""); [reflexivity | discriminate]. }
    destruct (truthy raw_id) eqn:Etr.
    + destruct raw_id as [id|]; [|discriminate]. simpl in Etr.
      apply negb_true_iff in Etr. simpl. rewrite Etr.
      destruct (get_vm_power_state_obtained id w) as (H1 & s & Hr & Hob).
      pose proof (get_vm_power_state_heap env id w) as Hheap.
      unfold try_except, bind, alloc, ret.
      destruct (get_vm_power_state env id w) as [r w1].
      simpl in *. subst r. simpl. rewrite Hheap.
      set (w2 := set_heap _ w1).
      assert (answer_history env w1 w2) as H12.
      { apply (answer_history_grow _ _ []); simpl; auto. symmetry; apply app_nil_r. }
      assert (answer_history env w w2) as Hw2 by (etransitivity; eauto).
      exists [fresh (dom (heap w))]. split; [reflexivity|]. split; [exact Hw2|]. split.
      * intros l v Hl. subst w2. simpl. rewrite lookup_insert_ne; [exact Hl|].
        intros <-. apply (is_fresh (dom (heap w))), elem_of_dom. exists v. exact Hl.
      * constructor; [|constructor]. exists s. split.
        -- subst w2. simpl. apply lookup_insert_eq.
        -- simpl. apply (obtained_later w0 w1 w2); [etransitivity; eauto | exact H12 |].
           apply (obtained_since w0 w w1); assumption.
    + rewrite (Hskip eq_refl). exists []. unfold try_except, ret. simpl.
      rewrite app_nil_r. split; [reflexivity|]. split; [reflexivity|].
      split; [intros l v H; exact H | constructor].
Qed.

Lemma process_entries_built (w0 : World) (items : list RawEntry) :
  forall (acc : list loc) (w : World),
  answer_history env w0 w ->
  let r := process_entries env items acc w in
  exists new,
    fst r = Ok (acc ++ new)%list /\ answer_history env w (snd r) /\
    heap_grows w (snd r) /\ Forall2 (built env w0 (snd r)) new (listed items).
Proof.
  induction items as [|vm rest IH]; intros acc w H0 r; subst r.
  - simpl. exists []. rewrite app_nil_r. split; [reflexivity|]. split; [reflexivity|].
    split; [intros l v H; exact H | constructor].
  - cbn [process_entries].
    destruct (process_entry_built w0 vm acc w H0) as (new1 & Hr1 & H1 & Hg1 & Hb1).
    unfold bind. destruct (process_entry env vm acc w) as [r w1].
    cbn [fst snd] in *. subst r.
    assert (answer_history env w0 w1) as H01 by (etransitivity; eauto).
    destruct (IH (acc ++ new1)%list w1 H01) as (new2 & Hr2 & H2 & Hg2 & Hb2).
    exists (new1 ++ new2)%list. rewrite app_assoc. split; [exact Hr2|].
    split; [etransitivity; eauto|]. split; [intros l v H; apply Hg2, Hg1, H|].
    rewrite (listed_cons vm rest). apply Forall2_app; [|exact Hb2].
    eapply Forall2_impl; [exact Hb1|]. intros l e Hb.
    apply (built_later w0 w1 _ l e); assumption.
Qed.

End FullRefresh.

#[local] Existing Instance answer_history_preorder.

(** C6, as the code has it.  When [get_vm_list] goes to the client and
    the list request succeeds (status 200, a list of entries), then:
    the call returns the list it built, and on return [vm_list_cache] is
    that list and [last_refresh] the time read after building it; the
    list holds, in the order of the answer, one record for each entry
    of the answer that has a non-empty id, with that id and path, the
    name cleaned from the path, and a power state that is what the
    client answered to a power request for that id made during the call
    or, with no client fetch, the state of that VM's power-state cache
    entry read while it was younger than [CACHE_TIMEOUT]; while the list
    is being built the cached list and its time stamp are not touched,
    so the entry is replaced in one step. *)
Theorem full_refresh_power_states (env : Env) (force : bool) (w : World)
    (items : list RawEntry) :
  fst (cache_is_fresh env force w) = Ok false ->
  env_get_vms env (list_request_step env force w) = ListResponse 200 (LJsonItems items) ->
  let w' := snd (get_vm_list env force w) in
  exists vms,
    fst (get_vm_list env force w) = Ok vms /\
    vm_list_cache w' = vms /\
    last_refresh w' = env_time env (pred (steps w')) /\
    Forall2 (built env w w') vms (listed items) /\
    (forall l, In l vms -> vm_sourced env w w' l) /\
    (forall acc w1,
       vm_list_cache (snd (process_entries env items acc w1)) = vm_list_cache w1 /\
       last_refresh (snd (process_entries env items acc w1)) = last_refresh w1).
Proof.
  intros Hg Hresp. simpl. rewrite get_vm_list_fetches by exact Hg.
  pose proof (list_request_step_ge env force w) as Hge.
  set (n := list_request_step env force w) in *.
  unfold fetch_vm_list. unfold_monad. simpl. rewrite Hresp. simpl.
  match goal with |- context [process_entries env items [] ?x] => set (w1 := x) end.
  assert (power_history w w1) as H01.
  { apply (power_history_grow _ _ [EvLog "API CALL: GET /vms (List VMs)" "INFO" false; EvGetVMs]);
      subst w1; simpl; [lia | rewrite <- app_assoc; reflexivity | reflexivity]. }
  assert (answer_history env w w1) as A01.
  { apply (answer_history_grow env _ _
             [EvLog "API CALL: GET /vms (List VMs)" "INFO" false; EvGetVMs]);
      subst w1; simpl; [lia | rewrite <- app_assoc; reflexivity | reflexivity]. }
  destruct (process_entries_sourced env w items [] w1 H01) as (vms & Hr & Hsrc);
    [intros l []|].
  destruct (process_entries_built env w items [] w1 A01) as (new & Hr' & A12 & Hg12 & Hb).
  pose proof (process_entries_history env items [] w1) as H12.
  destruct (process_entries env items [] w1) as [r w2]. simpl in *. subst r.
  inversion Hr'; subst new. clear Hr'. simpl.
  exists vms. split; [reflexivity|]. split; [reflexivity|]. split; [reflexivity|].
  match goal with |- Forall2 (built _ _ ?x) _ _ /\ _ => set (w3 := x) end.
  split; [|split].
  - eapply Forall2_impl; [exact Hb|]. intros l e Hl.
    apply (built_later env w w2 w3 l e); [etransitivity; eauto | | | exact Hl].
    + apply (answer_history_grow env _ _ []); subst w3; simpl; auto.
      symmetry; apply app_nil_r.
    + intros l' v H. exact H.
  - intros l Hl.
    assert (power_history w w2) as H02 by (etransitivity; eauto).
    apply (vm_sourced_later env w w2 w3 l H02); [| reflexivity | apply Hsrc, Hl].
    apply (power_history_grow _ _ []); subst w3; simpl; auto. symmetry; apply app_nil_r.
  - intros acc w4. destruct (process_entries_same_inventory env items acc w4) as (? & ? & _).
    auto.
Qed.

Lemma full_refresh_power_states_witness :
  let w' := snd (get_vm_list env_three true initial_world) in
  exists vms,
    fst (get_vm_list env_three true initial_world) = Ok vms /\
    vm_list_cache w' = vms /\
    last_refresh w' = 0 /\
    Forall2 (built env_three initial_world w') vms (listed three_vms) /\
    (forall l, In l vms -> vm_sourced env_three initial_world w' l).
Proof.
  destruct (full_refresh_power_states env_three true initial_world three_vms)
    as (vms & Hr & Hc & Ht & Hb & Hs & _); [reflexivity | reflexivity |].
  exists vms. split; [exact Hr|]. split; [exact Hc|]. split; [|split; [exact Hb | exact Hs]].
  rewrite Ht. reflexivity.
Defined.

(** C6 as stated fails: "A" was listed at time 0 and its power state
    fetched at time 8; at time 10 the inventory entry has expired and
    [get_vm_list] goes to the client, which lists "A" (and would report it
    off), but the new record of "A" takes its state from the two-second-old
    power-state cache entry: no power request is sent. *)
Lemma full_refresh_serves_cached_power_state :
  let w' := snd (get_vm_list env_a_at_10 false world_a_checked_at_8) in
  fst (cache_is_fresh env_a_at_10 false world_a_checked_at_8) = Ok false /\
  fst (get_vm_list env_a_at_10 false world_a_checked_at_8) = Ok [1%nat] /\
  calls is_get_vms world_a_checked_at_8 w' = 1%nat /\
  calls is_get_power world_a_checked_at_8 w' = 0%nat /\
  vm_power_state <$> heap w' !! 1%nat = Some "poweredOn" /\
  env_get_power env_a_at_10 (steps w') "A" = PowerResponse true (PJsonObj (Some "poweredOff")).
Proof. vm_compute. repeat split. Qed.

(** ** The worker with the gate acquired *)

#[local] Instance same_data_preorder : PreOrder same_data.
Proof.
  split.
  - intros w. repeat split.
  - intros w1 w2 w3 (?&?&?&?&?&?&?) (?&?&?&?&?&?&?). repeat split; congruence.
Qed.

Section Tick.

Variable env : Env.

(** An iteration that finds the main menu and gets the lock runs
    [locked_refresh] from a world [w3] that differs from [w] by the
    acquire, and ends in a world that differs from the one
    [locked_refresh] left by the release and by sleeping or logging. *)
Lemma tick_shape (w : World) :
  submenu_active (env_current_menu env (S (steps w))) = false ->
  (menu_lock w = false \/ env_lock_wait env (S (S (steps w))) = true) ->
  exists w3 tail,
    same_data w w3 /\ menu_lock w3 = true /\
    trace w3 = (trace w ++ [EvAcquire true])%list /\
    (steps w <= steps w3)%nat /\
    let r := locked_refresh env (env_time env (steps w)) w3 in
    same_data (snd r) (snd (tick env w)) /\
    trace (snd (tick env w)) = (trace (snd r) ++ EvRelease :: tail)%list /\
    Forall not_client_call tail /\
    (steps (snd r) <= steps (snd (tick env w)))%nat /\
    fst (tick_body env w) = fst r.
Proof.
  intros Hm Hacq.
  set (ct := env_time env (steps w)).
  assert (exists w3,
            same_data w w3 /\ menu_lock w3 = true /\
            trace w3 = (trace w ++ [EvAcquire true])%list /\
            (steps w <= steps w3)%nat /\
            tick_body env w
            = bind (try_finally (locked_refresh env ct) menu_lock_release)
                   (fun _ => time_sleep REFRESH_INTERVAL) w3) as (w3 & Hd & Hl & Ht & Hs & Hbody).
  { unfold tick_body, menu_lock_acquire.
    unfold bind, ask, time_time, gets, modify, emit, ret. simpl. rewrite Hm. simpl.
    destruct (menu_lock w) eqn:Hlock; simpl.
    - destruct Hacq as [?|Hw]; [discriminate|]. rewrite Hw. simpl.
      eexists. split; [|split; [|split; [|split; [|reflexivity]]]];
        simpl; repeat split; auto.
    - eexists. split; [|split; [|split; [|split; [|reflexivity]]]];
        simpl; repeat split; auto. }
  destruct (locked_section (locked_refresh env ct) w3 (locked_refresh_no_gate env ct) Hl)
    as (evs & Htr & _ & _ & Hfst).
  assert (same_data (snd (locked_refresh env ct w3))
            (snd (try_finally (locked_refresh env ct) menu_lock_release w3)) /\
          steps (snd (try_finally (locked_refresh env ct) menu_lock_release w3))
          = steps (snd (locked_refresh env ct w3)) /\
          trace (snd (try_finally (locked_refresh env ct) menu_lock_release w3))
          = (trace (snd (locked_refresh env ct w3)) ++ [EvRelease])%list) as (Hd2 & Hs2 & Ht2).
  { pose proof (locked_refresh_no_gate env ct w3) as [HL _]. unfold same_lock in HL.
    unfold try_finally, menu_lock_release.
    destruct (locked_refresh env ct w3) as [r w4]. simpl in *.
    unfold_monad. simpl. rewrite HL, Hl. simpl. repeat split. }
  exists w3. unfold tick, try_except. rewrite Hbody. unfold bind.
  remember (try_finally (locked_refresh env ct) menu_lock_release w3) as G eqn:HG.
  destruct G as [r w5]. clear HG.
  remember (locked_refresh env ct w3) as L eqn:HL.
  destruct L as [r4 w4]. clear HL.
  simpl in Hfst, Hd2, Hs2, Ht2, Htr. subst r.
  destruct r4 as [[]|e]; simpl.
  - exists [EvSleep REFRESH_INTERVAL].
    split; [exact Hd|]. split; [exact Hl|]. split; [exact Ht|]. split; [exact Hs|].
    unfold_monad. simpl. split; [exact Hd2|]. split.
    + rewrite Ht2, <- app_assoc. reflexivity.
    + split; [repeat constructor|]. split; [lia | reflexivity].
  - unfold_monad. simpl.
    destruct (_shutdown (main_menu w5)); simpl; eexists;
      (split; [exact Hd|]; split; [exact Hl|]; split; [exact Ht|]; split; [exact Hs|];
       split; [exact Hd2|]; split; [rewrite Ht2, <- ?app_assoc; simpl; reflexivity|];
       split; [repeat constructor|]; split; [lia | reflexivity]).
Qed.

End Tick.

Section Branches.

Variable env : Env.

Lemma get_vm_list_forced w : get_vm_list env true w = fetch_vm_list env w.
Proof. reflexivity. Qed.

(** A forced refresh of the menu sends exactly one list request. *)
Lemma refresh_vm_list_forced_trace (w : World) :
  exists e1 e2,
    trace (snd (refresh_vm_list env true w)) = (trace w ++ e1 ++ EvGetVMs :: e2)%list /\
    Forall not_get_vms e1 /\ Forall not_get_vms e2.
Proof.
  unfold refresh_vm_list, draw_screen.
  unfold bind, gets, log_message, emit, modify, try_finally, ask, ret, raise. simpl.
  match goal with |- context [get_vm_list env true ?x] =>
    rewrite (get_vm_list_forced x);
    destruct (fetch_vm_list_trace env x) as (evs & Ht & HF);
    destruct (fetch_vm_list env x) as [[l|e] w2]
  end; simpl in *.
  - destruct (env_draw_screen env (steps w2)); simpl; rewrite Ht; simpl;
      rewrite <- !app_assoc; simpl;
      exists [EvLog "Starting VM list refresh (force=True)..." "INFO" true;
              EvLog "API CALL: GET /vms (List VMs)" "INFO" false];
      eexists; (split; [simpl; rewrite <- ?app_assoc; simpl; reflexivity|]);
      (split; [repeat constructor|]); apply Forall_app; split; auto; repeat constructor.
  - destruct (env_draw_screen env (steps w2)); simpl; rewrite Ht; simpl;
      rewrite <- !app_assoc; simpl;
      exists [EvLog "Starting VM list refresh (force=True)..." "INFO" true;
              EvLog "API CALL: GET /vms (List VMs)" "INFO" false];
      eexists; (split; [simpl; rewrite <- ?app_assoc; simpl; reflexivity|]);
      (split; [repeat constructor|]); apply Forall_app; split; auto; repeat constructor.
Qed.

(** The three branches of [locked_refresh] when the main menu still owns
    the screen. *)
Lemma locked_refresh_full (ct : Q) (w : World) :
  submenu_active (env_current_menu env (steps w)) = false ->
  FULL_REFRESH_INTERVAL <= ct - last_full_refresh w ->
  let r := locked_refresh env ct w in
  (exists e1 e2, trace (snd r) = (trace w ++ e1 ++ EvGetVMs :: e2)%list /\
                 Forall not_get_vms e1 /\ Forall not_get_vms e2) /\
  last_power_check (snd r) = last_power_check w /\
  (fst r = Ok tt -> last_full_refresh (snd r) = ct).
Proof.
  intros Hm Hfull. apply Qle_bool_iff in Hfull. simpl.
  set (w1 := set_steps (S (steps w)) w).
  assert (locked_refresh env ct w
          = bind (refresh_vm_list env true) (fun _ => modify (set_last_full_refresh ct)) w1)
    as ->.
  { unfold locked_refresh. unfold bind, ask, gets, modify, ret. simpl.
    rewrite Hm. simpl. rewrite Hfull. reflexivity. }
  unfold bind, modify.
  destruct (refresh_vm_list_forced_trace w1) as (e1 & e2 & Ht & H1 & H2).
  destruct (refresh_vm_list_same_worker env true w1) as (_ & _ & Hp & _).
  destruct (refresh_vm_list env true w1) as [[[]|e] w2]; simpl in *.
  - split; [exists e1, e2; auto|]. split; [exact Hp|]. reflexivity.
  - split; [exists e1, e2; auto|]. split; [exact Hp|]. discriminate.
Qed.

Lemma locked_refresh_none (ct : Q) (w : World) :
  submenu_active (env_current_menu env (steps w)) = false ->
  ct - last_full_refresh w < FULL_REFRESH_INTERVAL ->
  ct - last_power_check w < POWER_STATE_INTERVAL ->
  locked_refresh env ct w = (Ok tt, set_steps (S (steps w)) w).
Proof.
  intros Hm Hfull Hpow.
  apply Qlt_not_le in Hfull. apply Qlt_not_le in Hpow.
  rewrite <- Qle_bool_iff in Hfull, Hpow.
  apply not_true_is_false in Hfull. apply not_true_is_false in Hpow.
  unfold locked_refresh. unfold_monad. simpl. rewrite Hm. simpl.
  rewrite Hfull, Hpow. reflexivity.
Qed.

End Branches.

Lemma store_power_state_same_vms l s : preserves same_vms (store_power_state l s).
Proof.
  intros w l'. unfold store_power_state, modify. simpl.
  rewrite lookup_alter. case_decide as E; [subst l'|reflexivity].
  destruct (heap w !! l); reflexivity.
Qed.

Lemma get_vm_power_state_same_vms env id : preserves same_vms (get_vm_power_state env id).
Proof. intros w l. rewrite get_vm_power_state_heap. reflexivity. Qed.

#[local] Hint Resolve store_power_state_same_vms get_vm_power_state_same_vms : frame.

Section PowerBranch.

Variable env : Env.

Lemma refresh_power_states_same_vms vms :
  preserves same_vms (refresh_power_states env vms).
Proof. apply refresh_power_states_preserves; try exact _; frame. Qed.

Lemma refresh_power_states_history vms :
  preserves power_history (refresh_power_states env vms).
Proof. apply refresh_power_states_preserves; try exact _; frame. Qed.

Lemma refresh_power_states_cons l1 rest w :
  refresh_power_states env (l1 :: rest) w
  = bind (power_turn env l1) (fun _ => refresh_power_states env rest) w.
Proof.
  simpl. unfold power_turn, bind, gets, ret. simpl.
  destruct (heap w !! l1) as [vm|]; [|reflexivity].
  destruct (negb _); reflexivity.
Qed.

Lemma power_turn_sourced (w0 : World) (l1 : loc) (w : World) :
  power_history w0 w ->
  let w' := snd (power_turn env l1 w) in
  fst (power_turn env l1 w) = Ok tt /\
  power_history w w' /\
  (forall l, l <> l1 -> heap w' !! l = heap w !! l) /\
  (forall vm, heap w !! l1 = Some vm -> vm_id vm <> "" -> vm_sourced env w0 w' l1) /\
  (forall l, vm_sourced env w0 w l -> vm_sourced env w0 w' l).
Proof.
  intros H0. simpl. unfold power_turn.
  destruct (heap w !! l1) as [vm1|] eqn:Hl1.
  2:{ simpl. split; [reflexivity|]. split; [reflexivity|]. split; [auto|].
      split; [discriminate | auto]. }
  destruct (String.eqb (vm_id vm1) "") eqn:Hid; simpl.
  { apply String.eqb_eq in Hid.
    split; [reflexivity|]. split; [reflexivity|]. split; [auto|]. split; [|auto].
    intros vm Hvm Hne. congruence. }
  destruct (get_vm_power_state_sourced env (vm_id vm1) w) as (H1 & s & Hr & Hsrc).
  pose proof (get_vm_power_state_heap env (vm_id vm1) w) as Hheap.
  unfold bind, store_power_state, modify.
  destruct (get_vm_power_state env (vm_id vm1) w) as [r w1]. simpl in *. subst r.
  set (w2 := set_heap _ w1).
  assert (power_history w1 w2) as H12.
  { apply (power_history_grow _ _ []); simpl; auto. symmetry; apply app_nil_r. }
  assert (power_history w w2) as Hw2 by (etransitivity; eauto).
  assert (forall l, l <> l1 -> heap w2 !! l = heap w !! l) as Hother.
  { intros l Hne. subst w2. simpl. rewrite lookup_alter_ne by congruence.
    rewrite Hheap. reflexivity. }
  assert (vm_sourced env w0 w2 l1) as Hnew.
  { eexists. split.
    - subst w2. simpl. rewrite lookup_alter_eq, Hheap, Hl1. reflexivity.
    - simpl. apply (sourced_later env w0 w1 w2); [etransitivity; eauto | exact H12 |].
      apply (sourced_since env w0 w w1); auto. }
  split; [reflexivity|].
  split; [exact Hw2|]. split; [exact Hother|]. split; [intros; exact Hnew|].
  intros l Hs. destruct (decide (l = l1)) as [->|Hne]; [exact Hnew|].
  apply (vm_sourced_later env w0 w w2 l H0 Hw2); [apply Hother, Hne | exact Hs].
Qed.

Lemma refresh_power_states_sourced (w0 : World) (vms : list loc) :
  forall w, power_history w0 w ->
  forall l,
    vm_sourced env w0 w l \/
    (In l vms /\ exists vm, heap w !! l = Some vm /\ vm_id vm <> "") ->
    vm_sourced env w0 (snd (refresh_power_states env vms w)) l.
Proof.
  induction vms as [|l1 rest IH]; intros w H0 l Hl.
  - simpl. destruct Hl as [Hs|[[] _]]. exact Hs.
  - rewrite refresh_power_states_cons.
    destruct (power_turn_sourced w0 l1 w H0) as (Hok & H1 & Hother & Hnew & Hkeep).
    unfold bind. destruct (power_turn env l1 w) as [r w1]. simpl in *. subst r.
    apply IH; [etransitivity; eauto|].
    destruct Hl as [Hs|[[<-|Hin] (vm & Hvm & Hne)]].
    + left. apply Hkeep, Hs.
    + left. eapply Hnew; eauto.
    + destruct (decide (l = l1)) as [->|Hd]; [left; eapply Hnew; eauto|].
      right. split; [exact Hin|]. exists vm.
      split; [rewrite Hother by exact Hd; exact Hvm | exact Hne].
Qed.

End PowerBranch.

Section PowerBranchOfTick.

Variable env : Env.

Lemma draw_screen_data : preserves same_data (draw_screen env).
Proof. unfold draw_screen. frame. Qed.

Lemma draw_screen_history : preserves power_history (draw_screen env).
Proof. unfold draw_screen. frame. Qed.

Lemma locked_refresh_power (ct : Q) (w : World) :
  submenu_active (env_current_menu env (steps w)) = false ->
  ct - last_full_refresh w < FULL_REFRESH_INTERVAL ->
  POWER_STATE_INTERVAL <= ct - last_power_check w ->
  let r := locked_refresh env ct w in
  emits not_get_vms w (snd r) /\
  same_inventory w (snd r) /\
  last_full_refresh (snd r) = last_full_refresh w /\
  (fst r = Ok tt -> last_power_check (snd r) = ct) /\
  power_history w (snd r) /\
  forall l vm,
    In l (vm_list (main_menu w)) -> heap w !! l = Some vm -> vm_id vm <> "" ->
    vm_sourced env w (snd r) l /\ vm_id <$> heap (snd r) !! l = Some (vm_id vm).
Proof.
  intros Hm Hfull Hpow. simpl.
  apply Qlt_not_le in Hfull. rewrite <- Qle_bool_iff in Hfull.
  apply not_true_is_false in Hfull. apply Qle_bool_iff in Hpow.
  set (w1 := set_steps (S (steps w)) w).
  set (vms := vm_list (main_menu w)).
  assert (locked_refresh env ct w
          = bind (refresh_power_states env vms)
                 (fun _ => bind (draw_screen env)
                                (fun _ => modify (set_last_power_check ct))) w1) as ->.
  { unfold locked_refresh. unfold bind, ask, gets, modify, ret. simpl.
    rewrite Hm. simpl. rewrite Hfull, Hpow. reflexivity. }
  assert (power_history w w1) as H01.
  { apply (power_history_grow _ _ []); simpl; auto. symmetry; apply app_nil_r. }
  assert (emits not_get_vms w w1) as E01.
  { exists []. split; [symmetry; apply app_nil_r | constructor]. }
  pose proof (refresh_power_states_quiet env vms w1) as E12.
  pose proof (refresh_power_states_same_inventory env vms w1) as I12.
  pose proof (refresh_power_states_same_worker env vms w1) as W12.
  pose proof (refresh_power_states_same_vms env vms w1) as V12.
  pose proof (refresh_power_states_history env vms w1) as H12.
  pose proof (refresh_power_states_sourced env w vms w1 H01) as S12.
  pose proof (draw_screen_quiet env) as E23.
  pose proof (draw_screen_same_inventory env) as I23.
  pose proof (draw_screen_same_worker env) as W23.
  unfold bind, modify.
  destruct (refresh_power_states env vms w1) as [r2 w2]. simpl in *.
  assert (forall w3 : World,
            emits not_get_vms w2 w3 -> same_inventory w2 w3 ->
            last_full_refresh w3 = last_full_refresh w2 ->
            heap w3 = heap w2 -> power_history w2 w3 ->
            emits not_get_vms w w3 /\ same_inventory w w3 /\
            last_full_refresh w3 = last_full_refresh w /\
            power_history w w3 /\
            forall l vm,
              In l vms -> heap w !! l = Some vm -> vm_id vm <> "" ->
              vm_sourced env w w3 l /\ vm_id <$> heap w3 !! l = Some (vm_id vm)) as Hfin.
  { intros w3 E I F Hh H23.
    assert (power_history w w2) as H02 by (etransitivity; eauto).
    split; [etransitivity; [exact E01 | etransitivity; eauto]|].
    split; [etransitivity; [|exact I]; etransitivity; [|exact I12]; repeat split|].
    split; [rewrite F; destruct W12 as (_ & -> & _); reflexivity|].
    split; [etransitivity; eauto|].
    intros l vm Hin Hvm Hne. split.
    - apply (vm_sourced_later env w w2 w3 l H02 H23); [rewrite Hh; reflexivity|].
      apply S12. right. split; [exact Hin|]. exists vm. auto.
    - rewrite Hh, V12. simpl. rewrite Hvm. reflexivity. }
  destruct r2 as [[]|e]; simpl.
  - pose proof (draw_screen_data w2) as D23.
    pose proof (draw_screen_history w2) as H23.
    specialize (E23 w2). specialize (I23 w2). specialize (W23 w2).
    destruct (draw_screen env w2) as [[[]|e] w3]; simpl in *.
    + destruct (Hfin (set_last_power_check ct w3)) as (? & ? & ? & ? & ?); simpl; auto.
      * destruct W23 as (_ & ? & _). assumption.
      * destruct D23 as (_ & _ & _ & ? & _). assumption.
      * refine (conj _ (conj _ (conj _ (conj _ (conj _ _))))); try assumption.
        intros _. reflexivity.
    + destruct (Hfin w3) as (? & ? & ? & ? & ?); auto.
      * destruct W23 as (_ & ? & _). assumption.
      * destruct D23 as (_ & _ & _ & ? & _). assumption.
      * refine (conj _ (conj _ (conj _ (conj _ (conj _ _))))); try assumption.
        discriminate.
  - destruct (Hfin w2) as (? & ? & ? & ? & ?); try reflexivity.
    refine (conj _ (conj _ (conj _ (conj _ (conj _ _))))); try assumption.
    discriminate.
Qed.

End PowerBranchOfTick.

Lemma calls_app (p : Event -> bool) (w w' : World) (evs : list Event) :
  trace w' = (trace w ++ evs)%list -> calls p w w' = length (List.filter p evs).
Proof. intros H. unfold calls. rewrite (new_events_app _ _ _ H). reflexivity. Qed.

Lemma filter_not_client_call (p : Event -> bool) (evs : list Event) :
  (forall ev, p ev = true -> is_client_call ev = true) ->
  Forall not_client_call evs -> List.filter p evs = [].
Proof.
  intros Hp. induction 1 as [|ev evs H _ IH]; simpl; [reflexivity|].
  destruct (p ev) eqn:E; [|exact IH].
  apply Hp in E. unfold not_client_call in H. congruence.
Qed.

Lemma get_vms_is_client_call ev : is_get_vms ev = true -> is_client_call ev = true.
Proof. destruct ev; simpl; congruence. Qed.




(** * Further properties *)

(** ** [vm_action] *)

Section VmAction.

Variable env : Env.

Lemma locked_log_data msg lvl : preserves same_data (locked_log env msg lvl).
Proof. unfold locked_log, menu_lock_acquire, menu_lock_release. frame. Qed.

Lemma locked_log_quiet msg lvl :
  preserves (emits not_client_call) (locked_log env msg lvl).
Proof. unfold locked_log, menu_lock_acquire, menu_lock_release, log_message. frame. Qed.

Lemma locked_log_steps msg lvl w :
  (steps w <= steps (snd (locked_log env msg lvl w)))%nat.
Proof.
  unfold locked_log, menu_lock_acquire, menu_lock_release. unfold_monad. simpl.
  destruct (menu_lock w); simpl; [destruct (env_lock_wait env (steps w)); simpl|]; lia.
Qed.

End VmAction.

Lemma client_calls_after (w w0 w1 : World) (pre : list Event) :
  trace w0 = (trace w ++ pre)%list ->
  emits not_client_call w0 w1 ->
  List.filter is_client_call (new_events w w1) = List.filter is_client_call pre.
Proof.
  intros H0 (evs & H1 & HF).
  rewrite (new_events_app w w1 (pre ++ evs)) by (rewrite H1, H0, app_assoc; reflexivity).
  rewrite List.filter_app, (filter_not_client_call is_client_call evs (fun _ H => H) HF).
  apply app_nil_r.
Qed.

Ltac split_locked_log env :=
  repeat match goal with
         | |- context [locked_log env ?m ?l ?w0] =>
             let Hr := fresh "Hr" in
             let Hd := fresh "Hd" in
             let Hq := fresh "Hq" in
             pose proof (locked_log_returns env m l w0) as Hr;
             pose proof (locked_log_data env m l w0) as Hd;
             pose proof (locked_log_quiet env m l w0) as Hq;
             destruct (locked_log env m l w0) as [[[]|?] ?];
             simpl in Hr, Hd, Hq; try discriminate Hr; clear Hr
         end.

(** X1.  [vm_action] never raises, and it returns [True] exactly when the
    action is one of start, stop, shutdown, suspend and the hypervisor
    answers the request with status 200 or 204; an unknown action, a
    timeout, a network error, any other exception and any other status
    give [False]. *)
Theorem vm_action_outcome (env : Env) (vm_id action : string) (force menu : bool)
    (w : World) :
  fst (vm_action env vm_id action force menu w)
  = Ok (put_accepted env (steps w) vm_id action).
Proof.
  unfold vm_action, vm_action_try, put_accepted, add_api_message.
  destruct (action_map action) as [api_action|].
  - unfold try_except, bind, log_message, emit, modify, ask, ret, raise.
    destruct menu; simpl;
      (destruct (env_put_power env (steps w) vm_id api_action) as [e|code text]; simpl;
       [ destruct (exn_kind e)
       | destruct ((code =? 200) || (code =? 204))%Z; simpl ]);
      split_locked_log env; reflexivity.
  - unfold try_except, bind, ret. split_locked_log env. reflexivity.
Qed.

(** X2.  The only request [vm_action] sends is one PUT for the VM, whose
    body is the API word of the action (on, off, shutdown, suspend); for
    an unknown action it sends nothing.  The [force] argument does not
    reach the request. *)
Theorem vm_action_requests (env : Env) (vm_id action : string) (force menu : bool)
    (w : World) :
  List.filter is_client_call (new_events w (snd (vm_action env vm_id action force menu w)))
  = put_requests vm_id action.
Proof.
  unfold vm_action, vm_action_try, put_requests, add_api_message.
  destruct (action_map action) as [api_action|].
  - unfold try_except, bind, log_message, emit, modify, ask, ret, raise.
    destruct menu; simpl;
      (destruct (env_put_power env (steps w) vm_id api_action) as [e|code text]; simpl;
       [ destruct (exn_kind e)
       | destruct ((code =? 200) || (code =? 204))%Z; simpl ]);
      split_locked_log env; simpl;
      match goal with
      | Hq : emits not_client_call ?w0 ?w1 |- _ =>
          erewrite (fun pre H => client_calls_after w w0 w1 pre H Hq);
          [ | simpl; rewrite <- ?app_assoc; simpl; reflexivity ]
      end;
      reflexivity.
  - unfold try_except, bind, ret. split_locked_log env. simpl.
    match goal with
    | Hq : emits not_client_call ?w0 ?w1 |- _ =>
        rewrite (client_calls_after w w0 w1 [] (eq_sym (app_nil_r _)) Hq)
    end.
    reflexivity.
Qed.

Lemma vm_action_data (env : Env) (vm_id action : string) (force menu : bool) :
  preserves same_data (vm_action env vm_id action force menu).
Proof.
  unfold vm_action, vm_action_try, add_api_message.
  assert (forall m l, preserves same_data (locked_log env m l)) as Hl
    by (intros; apply locked_log_data).
  destruct (action_map action) as [api_action|]; destruct menu; frame.
Qed.

(** X3.  [vm_action] changes neither the cached inventory nor any
    power-state cache entry nor any VM dictionary: an accepted power
    action does not refresh or invalidate what is cached. *)
Theorem vm_action_keeps_caches (env : Env) (vm_id action : string) (force menu : bool)
    (w : World) :
  same_data w (snd (vm_action env vm_id action force menu w)).
Proof. apply vm_action_data. Qed.

(** X4.  After a power action, accepted or not, [get_vm_power_state]
    keeps answering the state cached before the action, with no request
    to the hypervisor, for as long as that entry is younger than
    [CACHE_TIMEOUT]. *)
Theorem power_state_stale_after_action (env : Env) (vm_id action : string)
    (force menu : bool) (w : World) (t : Q) (s : string) :
  power_state_cache w !! vm_id = Some (t, s) ->
  let w1 := snd (vm_action env vm_id action force menu w) in
  env_time env (steps w1) - t < CACHE_TIMEOUT ->
  get_vm_power_state env vm_id w1 = (Ok s, set_steps (S (steps w1)) w1).
Proof.
  intros Hc w1 Hfresh.
  destruct (vm_action_data env vm_id action force menu w) as (_ & _ & Hp & _).
  apply (get_vm_power_state_cached env vm_id w1 t s); [|exact Hfresh].
  unfold w1. rewrite Hp. exact Hc.
Qed.

(** "A" runs and was last checked at time 0; at time 3 a stop is accepted
    and the hypervisor would now report "poweredOff", but the answer is
    still "poweredOn". *)
Lemma power_state_stale_after_action_witness :
  let w1 := snd (vm_action env_put_ok "A" "stop" true true world_a) in
  fst (vm_action env_put_ok "A" "stop" true true world_a) = Ok true /\
  env_get_power env_put_ok (S (steps w1)) "A"
  = PowerResponse true (PJsonObj (Some "poweredOff")) /\
  fst (get_vm_power_state env_put_ok "A" w1) = Ok "poweredOn".
Proof.
  split; [reflexivity|]. split; [reflexivity|].
  rewrite (power_state_stale_after_action env_put_ok "A" "stop" true true world_a
             0 "poweredOn"); reflexivity.
Defined.

(** ** [MainMenu.refresh_vm_list] *)

Lemma cache_is_fresh_logged env force w evs :
  fst (cache_is_fresh env force (set_trace evs w)) = fst (cache_is_fresh env force w) /\
  list_request_step env force (set_trace evs w) = list_request_step env force w.
Proof.
  unfold list_request_step, cache_is_fresh. unfold_monad.
  destruct force; simpl; [split; reflexivity|].
  destruct (vm_list_cache w); split; reflexivity.
Qed.

(** What [get_vm_list] answers, against what it leaves in the cache. *)
Lemma get_vm_list_answer env force w :
  fst (get_vm_list env force w)
  = Ok (if list_refresh_failed env force w then []
        else vm_list_cache (snd (get_vm_list env force w))) /\
  (list_refresh_failed env force w = true ->
   vm_list_cache (snd (get_vm_list env force w)) = vm_list_cache w).
Proof.
  unfold list_refresh_failed. rewrite get_vm_list_unfold.
  destruct (cache_is_fresh_ok env force w) as [b Hb]. rewrite Hb.
  rewrite cache_is_fresh_world. set (n := list_request_step env force w).
  destruct b; simpl; [split; [reflexivity | discriminate]|].
  destruct (list_failed (env_get_vms env n)) eqn:Hf.
  - destruct (fetch_vm_list_failed env (set_steps n w) Hf) as (Hr & Hc & _).
    split; [exact Hr | intros _; exact Hc].
  - split; [|discriminate].
    unfold fetch_vm_list. unfold_monad. simpl.
    destruct (env_get_vms env n) as [e|code [e|items]]; simpl in *; try discriminate.
    + destruct (code =? 200)%Z; simpl in *; discriminate.
    + destruct (code =? 200)%Z; simpl in *; [|discriminate].
      match goal with |- context [process_entries env items [] ?x] =>
        destruct (process_entries_never_raises env items [] x) as [l Hl];
        destruct (process_entries env items [] x) as [r w2]
      end.
      simpl in Hl. subst r. reflexivity.
Qed.

(** X5.  After [refresh_vm_list] the menu's list is the cached list (the
    same dictionaries), except when the call went to the client and the
    list request failed: then the menu's list is empty, while the cached
    list is still the old one. *)
Theorem refresh_vm_list_menu_list (env : Env) (force : bool) (w : World) :
  let w' := snd (refresh_vm_list env force w) in
  vm_list (main_menu w')
  = (if list_refresh_failed env force w then [] else vm_list_cache w') /\
  (list_refresh_failed env force w = true -> vm_list_cache w' = vm_list_cache w).
Proof.
  simpl.
  pose (w1 := set_trace
                (trace w ++ [EvLog ("Starting VM list refresh (force=" +:+ py_bool force
                                    +:+ ")...") "INFO" true])%list w).
  assert (list_refresh_failed env force w1 = list_refresh_failed env force w) as Hsame.
  { unfold list_refresh_failed, w1.
    destruct (cache_is_fresh_logged env force w
                (trace w ++ [EvLog ("Starting VM list refresh (force=" +:+ py_bool force
                                    +:+ ")...") "INFO" true])%list) as [-> ->].
    reflexivity. }
  destruct (get_vm_list_answer env force w1) as [Hans Hkeep].
  rewrite Hsame in Hans, Hkeep.
  unfold refresh_vm_list, draw_screen, log_message.
  unfold try_finally, bind, gets, emit, modify, ask, ret, raise.
  simpl. fold w1.
  destruct (get_vm_list env force w1) as [r w2]. simpl in Hans, Hkeep. subst r. simpl.
  destruct (env_draw_screen env (steps w2)); simpl;
    (split; [reflexivity | exact Hkeep]).
Qed.

(** The hypervisor is unreachable: the menu goes empty, the cache keeps
    "A". *)
Lemma refresh_vm_list_menu_list_witness :
  let w' := snd (refresh_vm_list env_down true world_a) in
  vm_list (main_menu w') = [] /\ vm_list_cache w' = [0%nat].
Proof.
  destruct (refresh_vm_list_menu_list env_down true world_a) as [Hm Hc].
  split; [exact Hm | apply Hc; reflexivity].
Defined.

(** ** The worker's loop *)

#[local] Instance same_shutdown_preorder : PreOrder same_shutdown.
Proof.
  split; [intros w; reflexivity|].
  intros w1 w2 w3 H1 H2. unfold same_shutdown in *. congruence.
Qed.

Lemma slept_none w w' : emits not_sleep w w' -> slept 0 w w'.
Proof.
  intros (evs & Ht & HF). exists evs. split; [exact Ht|]. clear Ht.
  induction HF as [|ev evs H _ IH]; simpl; [reflexivity|].
  unfold not_sleep in H. rewrite H. exact IH.
Qed.

Lemma slept_then a b w w1 w2 : slept a w w1 -> slept b w1 w2 -> slept (a + b) w w2.
Proof.
  intros (e1 & T1 & L1) (e2 & T2 & L2). exists (e1 ++ e2)%list.
  split; [rewrite T2, T1, app_assoc; reflexivity|].
  rewrite List.filter_app, length_app, L1, L2. reflexivity.
Qed.

Lemma slept_calls k w w' : slept k w w' -> calls is_sleep w w' = k.
Proof. intros (evs & Ht & HL). rewrite (calls_app _ _ _ _ Ht). exact HL. Qed.

Section WorkerLoop.

Variable env : Env.

Lemma get_vm_power_state_no_sleep id :
  preserves (emits not_sleep) (get_vm_power_state env id).
Proof. unfold get_vm_power_state, fetch_power_state, log_message. frame. Qed.

Lemma process_entries_no_sleep items acc :
  preserves (emits not_sleep) (process_entries env items acc).
Proof.
  apply process_entries_preserves; try exact _; intros; unfold log_message;
    try apply get_vm_power_state_no_sleep; frame.
Qed.

Lemma get_vm_list_no_sleep force : preserves (emits not_sleep) (get_vm_list env force).
Proof.
  pose proof process_entries_no_sleep.
  unfold get_vm_list, fetch_vm_list, cache_is_fresh, log_message. frame.
Qed.

Lemma draw_screen_no_sleep : preserves (emits not_sleep) (draw_screen env).
Proof. unfold draw_screen. frame. Qed.

Lemma refresh_vm_list_no_sleep force :
  preserves (emits not_sleep) (refresh_vm_list env force).
Proof.
  pose proof get_vm_list_no_sleep. pose proof draw_screen_no_sleep.
  unfold refresh_vm_list, log_message. frame.
Qed.

Lemma refresh_power_states_no_sleep vms :
  preserves (emits not_sleep) (refresh_power_states env vms).
Proof.
  apply refresh_power_states_preserves; try exact _; intros;
    try apply get_vm_power_state_no_sleep; frame.
Qed.

Lemma locked_refresh_no_sleep ct : preserves (emits not_sleep) (locked_refresh env ct).
Proof.
  pose proof refresh_vm_list_no_sleep. pose proof draw_screen_no_sleep.
  pose proof refresh_power_states_no_sleep.
  unfold locked_refresh. frame.
Qed.

Lemma tick_work_no_sleep : preserves (emits not_sleep) (tick_work env).
Proof.
  pose proof locked_refresh_no_sleep.
  unfold tick_work, menu_lock_acquire, menu_lock_release. frame.
Qed.

Lemma locked_refresh_same_shutdown ct : preserves same_shutdown (locked_refresh env ct).
Proof.
  assert (forall force, preserves same_shutdown (refresh_vm_list env force)) as H1.
  { intros force. apply preserves_weaken with (R := same_worker);
      [intros ? ? (_ & _ & _ & ?); assumption | apply refresh_vm_list_same_worker]. }
  assert (forall vms, preserves same_shutdown (refresh_power_states env vms)) as H2.
  { intros vms. apply preserves_weaken with (R := same_worker);
      [intros ? ? (_ & _ & _ & ?); assumption | apply refresh_power_states_same_worker]. }
  assert (preserves same_shutdown (draw_screen env)) as H3.
  { apply preserves_weaken with (R := same_worker);
      [intros ? ? (_ & _ & _ & ?); assumption | apply draw_screen_same_worker]. }
  unfold locked_refresh. frame.
Qed.

Lemma tick_work_same_shutdown : preserves same_shutdown (tick_work env).
Proof.
  pose proof locked_refresh_same_shutdown.
  unfold tick_work, menu_lock_acquire, menu_lock_release. frame.
Qed.

(** The [try] block is the work followed by the sleep. *)
Lemma tick_body_work w :
  tick_body env w = bind (tick_work env) (fun _ => time_sleep REFRESH_INTERVAL) w.
Proof.
  unfold tick_body, tick_work, bind, ret.
  destruct (time_time env w) as [[ct|e] w1]; [|reflexivity].
  destruct (ask env env_current_menu w1) as [[a|e] w2]; [|reflexivity].
  destruct (submenu_active a); [reflexivity|].
  destruct (menu_lock_acquire env 1 w2) as [[[|]|e] w3]; reflexivity.
Qed.

(** One iteration, with the flag down: it returns, it has slept exactly
    once, and the flag is still down. *)
Lemma tick_sleeps_once w :
  _shutdown (main_menu w) = false ->
  fst (tick env w) = Ok tt /\
  slept 1 w (snd (tick env w)) /\
  _shutdown (main_menu (snd (tick env w))) = false.
Proof.
  intros Hs.
  assert (tick env w
          = match tick_work env w with
            | (Ok _, w1) =>
                (Ok tt, set_trace (trace w1 ++ [EvSleep REFRESH_INTERVAL])%list w1)
            | (Raise e, w1) =>
                bind (log_message ("Error in refresh worker: " +:+ exn_str e) "ERROR" false)
                     (fun _ => bind (gets (fun w => _shutdown (main_menu w)))
                                    (fun sd => if negb sd then time_sleep 1 else ret tt)) w1
            end) as ->.
  { unfold tick, try_except. rewrite tick_body_work. unfold bind at 1.
    destruct (tick_work env w) as [[[]|e] w1]; reflexivity. }
  pose proof (tick_work_no_sleep w) as Hq. apply slept_none in Hq.
  pose proof (tick_work_same_shutdown w) as Hk. unfold same_shutdown in Hk.
  destruct (tick_work env w) as [[[]|e] w1]; simpl in *.
  - split; [reflexivity|]. split; [|rewrite Hk; exact Hs].
    apply (slept_then 0 1 w w1); [exact Hq|].
    exists [EvSleep REFRESH_INTERVAL]. split; reflexivity.
  - unfold_monad. simpl. rewrite Hk, Hs. simpl.
    split; [reflexivity|]. split; [|rewrite Hk; exact Hs].
    apply (slept_then 0 1 w w1); [exact Hq|].
    exists [EvLog ("Error in refresh worker: " +:+ exn_str e) "ERROR" false; EvSleep 1].
    split; [rewrite <- app_assoc; reflexivity | reflexivity].
Qed.

Lemma worker_loop_runs (fuel : nat) :
  forall w, _shutdown (main_menu w) = false ->
  fst (worker_loop env fuel w) = Ok tt /\
  slept fuel w (snd (worker_loop env fuel w)) /\
  _shutdown (main_menu (snd (worker_loop env fuel w))) = false.
Proof.
  induction fuel as [|n IH]; intros w Hs; simpl.
  - split; [reflexivity|]. split; [|exact Hs].
    exists []. split; [symmetry; apply app_nil_r | reflexivity].
  - destruct (tick_sleeps_once w Hs) as (Hr & Hsl & Hs1).
    assert (worker_loop env (S n) w = worker_loop env n (snd (tick env w))) as Heq.
    { simpl. unfold bind, gets. rewrite Hs.
      destruct (tick env w) as [r w1]. simpl in Hr. subst r. reflexivity. }
    simpl in Heq. rewrite Heq.
    destruct (IH (snd (tick env w)) Hs1) as (Hr2 & Hsl2 & Hs2).
    split; [exact Hr2|]. split; [|exact Hs2].
    apply (slept_then 1 n w (snd (tick env w))); assumption.
Qed.

End WorkerLoop.

Lemma sleeps_none w w' : emits not_sleep w w' -> sleeps [] w w'.
Proof.
  intros (evs & Ht & HF). exists evs. split; [exact Ht|]. clear Ht.
  induction HF as [|ev evs H _ IH]; simpl; [reflexivity|].
  unfold not_sleep in H. rewrite H. exact IH.
Qed.

Lemma sleeps_then a b w w1 w2 : sleeps a w w1 -> sleeps b w1 w2 -> sleeps (a ++ b) w w2.
Proof.
  intros (e1 & T1 & L1) (e2 & T2 & L2). exists (e1 ++ e2)%list.
  split; [rewrite T2, T1, app_assoc; reflexivity|].
  rewrite List.filter_app, L1, L2. reflexivity.
Qed.

Lemma sleeps_events l w w' : sleeps l w w' -> List.filter is_sleep (new_events w w') = l.
Proof. intros (evs & Ht & HL). rewrite (new_events_app _ _ _ Ht). exact HL. Qed.

Lemma tick_sleeps (env : Env) (w : World) : sleeps (tick_sleep env w) w (snd (tick env w)).
Proof.
  unfold tick_sleep, tick, try_except. rewrite tick_body_work. unfold bind at 1 2.
  pose proof (tick_work_no_sleep env w) as Hq. apply sleeps_none in Hq.
  pose proof (tick_work_same_shutdown env w) as Hk. unfold same_shutdown in Hk.
  destruct (tick_work env w) as [[[]|e] w1]; simpl in *.
  - apply (sleeps_then [] _ w w1); [exact Hq|].
    exists [EvSleep REFRESH_INTERVAL]. split; reflexivity.
  - unfold_monad. simpl. rewrite Hk.
    destruct (_shutdown (main_menu w)); simpl.
    + apply (sleeps_then [] _ w w1); [exact Hq|].
      exists [EvLog ("Error in refresh worker: " +:+ exn_str e) "ERROR" false].
      split; reflexivity.
    + apply (sleeps_then [] _ w w1); [exact Hq|].
      exists [EvLog ("Error in refresh worker: " +:+ exn_str e) "ERROR" false; EvSleep 1].
      split; [rewrite <- app_assoc; reflexivity | reflexivity].
Qed.

Lemma worker_loop_sleeps (env : Env) (fuel : nat) :
  forall w, _shutdown (main_menu w) = false ->
  exists ds, sleeps (map EvSleep ds) w (snd (worker_loop env fuel w)) /\
             length ds = fuel /\
             Forall (fun d => d = REFRESH_INTERVAL \/ d = 1) ds.
Proof.
  induction fuel as [|n IH]; intros w Hs.
  - exists []. split; [|split; [reflexivity | constructor]].
    exists []. split; [symmetry; apply app_nil_r | reflexivity].
  - destruct (tick_sleeps_once env w Hs) as (Hr & _ & Hs1).
    assert (worker_loop env (S n) w = worker_loop env n (snd (tick env w))) as Heq.
    { simpl. unfold bind, gets. rewrite Hs.
      destruct (tick env w) as [r w1]. simpl in Hr. subst r. reflexivity. }
    rewrite Heq. destruct (IH (snd (tick env w)) Hs1) as (ds & Hsl & Hlen & Hall).
    pose proof (tick_sleeps env w) as Ht. unfold tick_sleep in Ht. rewrite Hs in Ht.
    destruct (fst (tick_body env w)).
    + exists (REFRESH_INTERVAL :: ds). split; [|split].
      * apply (sleeps_then [EvSleep REFRESH_INTERVAL] _ w (snd (tick env w))); assumption.
      * simpl. rewrite Hlen. reflexivity.
      * constructor; [left; reflexivity | exact Hall].
    + exists (1 :: ds). split; [|split].
      * apply (sleeps_then [EvSleep 1] _ w (snd (tick env w))); assumption.
      * simpl. rewrite Hlen. reflexivity.
      * constructor; [right; reflexivity | exact Hall].
Qed.


Lemma worker_loop_keeps_gate_free (env : Env) (fuel : nat) :
  forall w, _shutdown (main_menu w) = false -> menu_lock w = false ->
  menu_lock (snd (worker_loop env fuel w)) = false.
Proof.
  induction fuel as [|n IH]; intros w Hs Hl; [exact Hl|].
  destruct (tick_sleeps_once env w Hs) as (Hr & _ & Hs1).
  assert (worker_loop env (S n) w = worker_loop env n (snd (tick env w))) as Heq.
  { simpl. unfold bind, gets. rewrite Hs.
    destruct (tick env w) as [r w1]. simpl in Hr. subst r. reflexivity. }
  rewrite Heq. apply IH; [exact Hs1|].
  destruct (tick_gate_paired env w) as (evs & _ & [[_ H]|[[_ H]|[_ H]]]); congruence.
Qed.

(** X7.  The worker never keeps the gate: if [menu_lock] is free when
    [vm_refresh_worker] starts, it is free again after any number of
    iterations, whatever raised in between. *)
Theorem worker_keeps_gate_free (env : Env) (fuel : nat) (w : World) :
  menu_lock w = false ->
  menu_lock (snd (vm_refresh_worker env fuel w)) = false.
Proof.
  intros Hl. unfold vm_refresh_worker. unfold bind at 1 2 3. unfold modify. simpl.
  apply worker_loop_keeps_gate_free; [reflexivity | exact Hl].
Qed.

(** Seven iterations against a failing hypervisor, failing curses and a
    submenu that comes and goes. *)
Lemma worker_keeps_gate_free_witness :
  menu_lock (snd (vm_refresh_worker env_hostile 7 world_a)) = false.
Proof. apply (worker_keeps_gate_free env_hostile 7 world_a). reflexivity. Defined.

(** ** The VM menu *)

Lemma py_last_short {A} (k : nat) (l : list A) : (length l <= k)%nat -> py_last k l = l.
Proof. intros H. unfold py_last. replace (length l - k)%nat with 0%nat by lia. reflexivity. Qed.

Lemma py_last_length {A} (k : nat) (l : list A) :
  length (py_last k l) = Nat.min (length l) k.
Proof. unfold py_last. rewrite length_drop. lia. Qed.

Lemma py_last_app {A} (k : nat) (l r : list A) :
  py_last k (py_last k l ++ r) = py_last k (l ++ r).
Proof.
  unfold py_last. rewrite !drop_app, drop_drop, !length_app, !length_drop.
  f_equal; f_equal; lia.
Qed.

Lemma add_vm_message_last (m : string) (self : VmMenu.t) :
  VmMenu.vm_messages (VmMenu.add_vm_message m self)
  = py_last 4 (VmMenu.vm_messages self ++ [m]).
Proof.
  unfold VmMenu.add_vm_message. simpl.
  destruct (4 <? length (VmMenu.vm_messages self ++ [m]))%nat eqn:E; [reflexivity|].
  apply Nat.ltb_ge in E. symmetry. apply py_last_short. exact E.
Qed.

(** X8.  The VM Messages panel keeps the last four messages: starting
    from a menu that holds at most four, after any sequence of
    [add_vm_message] calls [vm_messages] is the last four of everything
    added so far, oldest first. *)
Theorem vm_messages_keep_last_four (self : VmMenu.t) (ms : list string) :
  (length (VmMenu.vm_messages self) <= 4)%nat ->
  VmMenu.vm_messages (add_vm_messages ms self)
  = py_last 4 (VmMenu.vm_messages self ++ ms).
Proof.
  unfold add_vm_messages. revert self.
  induction ms as [|m ms IH]; intros self H; simpl.
  - rewrite app_nil_r. symmetry. apply py_last_short. exact H.
  - rewrite IH.
    + rewrite add_vm_message_last, py_last_app, <- app_assoc. reflexivity.
    + rewrite add_vm_message_last, py_last_length. lia.
Qed.

Lemma vm_messages_keep_last_four_witness :
  VmMenu.vm_messages
    (add_vm_messages ["a"; "b"; "c"; "d"; "e"; "f"]
       (VmMenu.set_vm_messages ["x"; "y"]
          (VmMenu.set_current_row 0
             {| VmMenu.vm_id := "A"; VmMenu.vm_name := "a"; VmMenu.current_row := 0;
                VmMenu.vm_messages := []; VmMenu.last_update := 0;
                VmMenu.update_interval := 5; VmMenu.vm_details := None;
                VmMenu.power_state := None; VmMenu._last_power_state := None;
                VmMenu.cached_messages := []; VmMenu.api_messages := [];
                VmMenu.log_messages := []; VmMenu.api_width := 76 |})))
  = ["c"; "d"; "e"; "f"].
Proof.
  rewrite vm_messages_keep_last_four; [reflexivity | simpl; lia].
Defined.

Lemma emits_weaken (P Q : Event -> Prop) (w w' : World) :
  (forall ev, P ev -> Q ev) -> emits P w w' -> emits Q w w'.
Proof.
  intros HPQ (evs & Ht & HF). exists evs. split; [exact Ht|].
  eapply Forall_impl; [exact HF | exact HPQ].
Qed.

Lemma puts_none w w' : emits not_put w w' -> puts [] w w'.
Proof.
  intros (evs & Ht & HF). exists evs. split; [exact Ht|]. clear Ht.
  induction HF as [|ev evs H _ IH]; simpl; [reflexivity|].
  unfold not_put in H. rewrite H. exact IH.
Qed.

Lemma puts_then a b w w1 w2 : puts a w w1 -> puts b w1 w2 -> puts (a ++ b) w w2.
Proof.
  intros (e1 & T1 & L1) (e2 & T2 & L2). exists (e1 ++ e2)%list.
  split; [rewrite T2, T1, app_assoc; reflexivity|].
  rewrite List.filter_app, L1, L2. reflexivity.
Qed.

Lemma puts_events l w w' : puts l w w' -> List.filter is_put (new_events w w') = l.
Proof. intros (evs & Ht & HL). rewrite (new_events_app _ _ _ Ht). exact HL. Qed.

Lemma put_is_client_call ev : is_put ev = true -> is_client_call ev = true.
Proof. destruct ev; simpl; congruence. Qed.

Lemma returns_ret {A} (a : A) (P : A -> Prop) : P a -> returns (ret a) P.
Proof. intros H w b E. inversion E. subst. exact H. Qed.

Lemma returns_raise {A} (e : Exn) (P : A -> Prop) : returns (raise e) P.
Proof. intros w b E. discriminate E. Qed.

Lemma returns_bind {A B} (m : M A) (k : A -> M B) (P : A -> Prop) (Q : B -> Prop) :
  returns m P -> (forall a, P a -> returns (k a) Q) -> returns (bind m k) Q.
Proof.
  intros Hm Hk w b. unfold bind. specialize (Hm w).
  destruct (m w) as [[a|e] w1]; simpl in *; [|discriminate].
  apply Hk, Hm. reflexivity.
Qed.

Lemma returns_try_except {A} (m : M A) (h : Exn -> M A) (P : A -> Prop) :
  returns m P -> (forall e, returns (h e) P) -> returns (try_except m h) P.
Proof.
  intros Hm Hh w b. unfold try_except. specialize (Hm w).
  destruct (m w) as [[a|e] w1]; simpl in *.
  - intros E. apply Hm. exact E.
  - apply Hh.
Qed.

Lemma returns_true {A} (m : M A) : returns m (fun _ => True).
Proof. intros w a _. exact I. Qed.

Lemma returns_weaken {A} (m : M A) (P Q : A -> Prop) :
  (forall a, P a -> Q a) -> returns m P -> returns m Q.
Proof. intros H Hm w a E. apply H, (Hm w), E. Qed.

#[local] Instance same_position_preorder : PreOrder same_position.
Proof.
  split.
  - intros s. repeat split.
  - intros s1 s2 s3 (A1 & B1 & C1) (A2 & B2 & C2). unfold same_position.
    rewrite A2, B2, C2. auto.
Qed.

Section VmMenuFrames.

Variable menv : MenuEnv.

Lemma curses_calls_no_put : preserves (emits not_put) (VmMenu.curses_calls menv).
Proof. unfold VmMenu.curses_calls, VmMenu.ask_menu. frame. Qed.

Lemma get_vm_details_no_put id : preserves (emits not_put) (VmMenu.get_vm_details menv id).
Proof. unfold VmMenu.get_vm_details, VmMenu.ask_menu, log_message. frame. Qed.

Lemma get_vm_power_state_no_put env id :
  preserves (emits not_put) (get_vm_power_state env id).
Proof. unfold get_vm_power_state, fetch_power_state, log_message. frame. Qed.

Lemma update_vm_info_no_put self : preserves (emits not_put) (VmMenu.update_vm_info menv self).
Proof.
  pose proof get_vm_details_no_put. pose proof get_vm_power_state_no_put.
  unfold VmMenu.update_vm_info, log_message. frame.
Qed.

Lemma draw_no_put self : preserves (emits not_put) (VmMenu.draw menv self).
Proof.
  pose proof update_vm_info_no_put. pose proof curses_calls_no_put.
  assert (forall s, preserves (emits not_put) (VmMenu.collect_messages menv s))
    by (intros s; unfold VmMenu.collect_messages, VmMenu.ask_menu; frame).
  unfold VmMenu.draw. frame.
Qed.

Lemma update_vm_info_position self :
  returns (VmMenu.update_vm_info menv self) (same_position self).
Proof.
  unfold VmMenu.update_vm_info.
  eapply returns_bind; [apply returns_true|]. intros ct _.
  destruct (VmMenu.update_due self ct); [|apply returns_ret; reflexivity].
  eapply returns_bind; [apply returns_true|]. intros d _.
  eapply returns_bind; [apply returns_true|]. intros p _.
  match goal with |- context [if ?c then _ else _] => destruct c end.
  - eapply returns_bind; [apply returns_true|]. intros _ _.
    apply returns_ret. repeat split.
  - apply returns_ret. repeat split.
Qed.

Lemma collect_message_position (msgs : list string) (self : VmMenu.t) :
  same_position self (fold_left VmMenu.collect_message msgs self).
Proof.
  revert self. induction msgs as [|m ms IH]; intros self; simpl; [reflexivity|].
  etransitivity; [|apply IH].
  unfold VmMenu.collect_message. destruct (py_in _ m); repeat split.
Qed.

Lemma same_attributes_trans (s1 s2 s3 : VmMenu.t) :
  same_attributes s1 s2 -> same_attributes s2 s3 -> same_attributes s1 s3.
Proof.
  unfold same_attributes. intros H1 H2.
  destruct H1 as (A1 & A2 & A3 & A4 & A5 & A6 & A7 & A8 & A9 & A10).
  destruct H2 as (B1 & B2 & B3 & B4 & B5 & B6 & B7 & B8 & B9 & B10).
  repeat split; congruence.
Qed.

Lemma collect_message_attributes (self : VmMenu.t) (m : string) :
  same_attributes self (VmMenu.collect_message self m).
Proof. unfold VmMenu.collect_message. destruct (py_in _ m); repeat split. Qed.

Lemma collect_attributes (msgs : list string) (self : VmMenu.t) :
  same_attributes self (VmMenu.collect msgs self).
Proof.
  unfold VmMenu.collect.
  assert (same_attributes self (fold_left VmMenu.collect_message msgs self)) as H.
  { revert self. induction msgs as [|m ms IH]; intros self; simpl.
    - repeat split.
    - eapply same_attributes_trans; [apply collect_message_attributes | apply IH]. }
  eapply same_attributes_trans; [exact H|]. repeat split.
Qed.

Lemma collect_messages_position self :
  returns (VmMenu.collect_messages menv self) (same_position self).
Proof.
  unfold VmMenu.collect_messages.
  eapply returns_bind; [apply returns_true|]. intros msgs _.
  apply returns_ret. destruct (collect_attributes msgs self) as (A & B & C & _).
  repeat split; assumption.
Qed.

Lemma collect_messages_no_put self :
  preserves (emits not_put) (VmMenu.collect_messages menv self).
Proof. unfold VmMenu.collect_messages, VmMenu.ask_menu. frame. Qed.

Lemma draw_position self : returns (VmMenu.draw menv self) (same_position self).
Proof.
  unfold VmMenu.draw.
  eapply returns_bind; [apply returns_true|]. intros ct _.
  eapply returns_bind with (P := same_position self).
  { destruct (VmMenu.update_due self ct);
      [apply update_vm_info_position | apply returns_ret; reflexivity]. }
  intros s Hs.
  eapply returns_bind with (P := same_position self).
  { eapply returns_weaken; [|apply collect_messages_position].
    intros s' Hs'. etransitivity; eassumption. }
  intros s' Hs'.
  eapply returns_bind; [apply returns_true|]. intros _ _.
  eapply returns_bind; [apply returns_true|]. intros _ _.
  eapply returns_bind; [apply returns_true|]. intros _ _.
  apply returns_ret. exact Hs'.
Qed.

End VmMenuFrames.

Lemma vm_action_client_calls (env : Env) (vm_id action : string) (force menu : bool)
    (w : World) :
  List.filter is_client_call (new_events w (snd (vm_action env vm_id action force menu w)))
  = put_requests vm_id action.
Proof.
  unfold vm_action, vm_action_try, put_requests, add_api_message.
  destruct (action_map action) as [api_action|].
  - unfold try_except, bind, log_message, emit, modify, ask, ret, raise.
    destruct menu; simpl;
      (destruct (env_put_power env (steps w) vm_id api_action) as [e|code text]; simpl;
       [ destruct (exn_kind e)
       | destruct ((code =? 200) || (code =? 204))%Z; simpl ]);
      split_locked_log env; simpl;
      match goal with
      | Hq : emits not_client_call ?w0 ?w1 |- _ =>
          erewrite (fun pre H => client_calls_after w w0 w1 pre H Hq);
          [ | simpl; rewrite <- ?app_assoc; simpl; reflexivity ]
      end;
      reflexivity.
  - unfold try_except, bind, ret. split_locked_log env. simpl.
    match goal with
    | Hq : emits not_client_call ?w0 ?w1 |- _ =>
        rewrite (client_calls_after w w0 w1 [] (eq_sym (app_nil_r _)) Hq)
    end.
    reflexivity.
Qed.

Lemma vm_action_puts (env : Env) (vm_id action : string) (force menu : bool) (w : World) :
  puts (put_requests vm_id action) w (snd (vm_action env vm_id action force menu w)).
Proof.
  assert (emits (fun _ => True) w (snd (vm_action env vm_id action force menu w)))
    as (evs & Ht & _).
  { revert w. change (preserves (emits (fun _ => True))
                        (vm_action env vm_id action force menu)).
    assert (forall m l, preserves (emits (fun _ => True)) (locked_log env m l)) as Hl.
    { intros m l w. eapply emits_weaken; [|apply locked_log_quiet]. auto. }
    unfold vm_action, vm_action_try, add_api_message, log_message.
    destruct (action_map action); destruct menu; frame. }
  exists evs. split; [exact Ht|].
  rewrite (filter_through is_put is_client_call evs put_is_client_call).
  rewrite <- (new_events_app _ _ _ Ht), vm_action_client_calls.
  unfold put_requests. destruct (action_map action); reflexivity.
Qed.

Lemma power_option_of_row (row : Z) :
  (0 <= row <= 3)%Z ->
  exists selected word rest,
    py_index VmMenu.options row = Some selected /\
    String.eqb selected "Back to Main Menu" = false /\
    existsb (String.eqb selected) VmMenu.power_options = true /\
    py_split selected = word :: rest /\
    action_map (if String.eqb (py_lower word) "shutdown" then "stop" else py_lower word)
    = Some (sent_body row).
Proof.
  intros H.
  assert (row = 0 \/ row = 1 \/ row = 2 \/ row = 3)%Z as [-> | [-> | [-> | ->]]] by lia.
  - exists "Start VM", "Start", ["VM"]. vm_compute. auto.
  - exists "Shutdown VM", "Shutdown", ["VM"]. vm_compute. auto.
  - exists "Stop VM", "Stop", ["VM"]. vm_compute. auto.
  - exists "Suspend VM", "Suspend", ["VM"]. vm_compute. auto.
Qed.


Lemma puts_log (w : World) (m l : string) (r : bool) :
  puts [] w (set_trace (trace w ++ [EvLog m l r]) w).
Proof. exists [EvLog m l r]. split; reflexivity. Qed.

Ltac draw_step menv E :=
  match type of E with
  | context [VmMenu.draw menv ?s ?w0] =>
      let D := fresh "D" in
      let Q := fresh "Q" in
      let s1 := fresh "s" in
      let w1 := fresh "w" in
      pose proof (draw_no_put menv s w0) as D;
      pose proof (draw_position menv s w0) as Q;
      apply puts_none in D;
      destruct (VmMenu.draw menv s w0) as [[s1|?] w1]; cbn [fst snd] in E, D, Q;
      [specialize (Q _ eq_refl)|clear Q]
  end.

Lemma add_api_messages_position (msgs : list string) (self : VmMenu.t) :
  same_position self (fold_left (fun s msg => VmMenu.add_api_message msg s) msgs self).
Proof.
  revert self. induction msgs as [|m ms IH]; intros self; simpl; [reflexivity|].
  etransitivity; [|apply IH]. repeat split.
Qed.

Lemma execute_option_puts (menv : MenuEnv) (self : VmMenu.t) (w : World) :
  (0 <= VmMenu.current_row self <= 3)%Z ->
  let r := VmMenu.execute_option menv self w in
  let request := EvPutPower (VmMenu.vm_id self) (sent_body (VmMenu.current_row self)) in
  (puts [] w (snd r) \/ puts [request] w (snd r)) /\
  (forall b s, fst r = Ok (b, s) ->
     puts [request] w (snd r) /\ b = true /\ same_position self s).
Proof.
  intros Hrow r request. subst r.
  destruct (power_option_of_row _ Hrow)
    as (selected & word & rest & Hsel & Hback & Hpow & Hsplit & Hmap).
  destruct (VmMenu.execute_option menv self w) as [o w'] eqn:E. cbn [fst snd].
  unfold VmMenu.execute_option in E. rewrite Hsel, Hback, Hpow, Hsplit in E.
  set (action := py_lower word) in *.
  set (api_action := if String.eqb action "shutdown" then "stop" else action) in *.
  set (s0 := VmMenu.add_vm_message _ self) in E.
  assert (same_position self s0) as Hs0 by (repeat split).
  unfold bind at 1 in E. unfold log_message at 1, emit, modify in E. cbn [fst snd] in E.
  match type of E with context [set_trace (trace w ++ [EvLog ?m ?l ?r])%list w] =>
    pose proof (puts_log w m l r) as P0; set (w0 := set_trace _ w) in E, P0 end.
  unfold bind at 1 in E. draw_step menv E.
  2: { inversion E; subst. split; [left|intros; discriminate].
       apply (puts_then [] [] _ _ _ P0 D). }
  assert (puts [] w w1) as P1 by apply (puts_then [] [] _ _ _ P0 D).
  assert (same_position self s) as Hs by exact (transitivity Hs0 Q).
  clear P0 D Q Hs0. clearbody s0 w0.
  unfold VmMenu.api_messages_since in E.
  unfold bind, try_except, gets in E. cbn [fst snd] in E.
  pose proof (vm_action_puts (base_env menv) (VmMenu.vm_id s) api_action
                (String.eqb action "stop") true w1) as A.
  unfold put_requests in A. rewrite Hmap in A.
  destruct Hs as (Hid & Hname & Hr).
  destruct (vm_action (base_env menv) (VmMenu.vm_id s) api_action
              (String.eqb action "stop") true w1) as [[[|]|e] w2];
    cbn [fst snd] in E, A; rewrite Hid in A;
    unfold ret in E; cbn [fst snd] in E;
    (match type of E with context [fold_left ?f ?l s] =>
       pose proof (add_api_messages_position l s) as Hf;
       set (s2 := fold_left f l s) in E, Hf; clearbody s2 end);
    unfold log_message, emit, modify in E; cbn [fst snd] in E;
    (match type of E with context [set_trace (trace w2 ++ [EvLog ?m ?l ?r])%list w2] =>
       pose proof (puts_log w2 m l r) as P2; set (w3 := set_trace _ w2) in E, P2 end);
    draw_step menv E; inversion E; subst;
    pose proof (puts_then _ _ _ _ _ (puts_then _ _ _ _ _ (puts_then _ _ _ _ _ P1 A) P2) D)
      as P; simpl in P.
  all: split; [right; exact P|].
  all: intros b s' Hb; try discriminate Hb; inversion Hb; subst.
  all: split; [exact P|]; split; [reflexivity|].
  all: destruct Q as (Q1 & Q2 & Q3); destruct Hf as (F1 & F2 & F3);
    repeat split; simpl in *; congruence.
Qed.


(** X9.  From the VM menu, Enter on one of the four power options sends
    at most one PUT, for this VM, and exactly one whenever
    [execute_option] returns: with body "on" for Start VM, "suspend" for
    Suspend VM and "off" for both Shutdown VM and Stop VM.  The body
    "shutdown" is never sent from the menu. *)
Theorem execute_option_request (menv : MenuEnv) (self : VmMenu.t) (w : World) :
  (0 <= VmMenu.current_row self <= 3)%Z ->
  let r := VmMenu.execute_option menv self w in
  let sent := List.filter is_put (new_events w (snd r)) in
  let request := EvPutPower (VmMenu.vm_id self) (sent_body (VmMenu.current_row self)) in
  (sent = [] \/ sent = [request]) /\
  (forall b s, fst r = Ok (b, s) -> sent = [request]).
Proof.
  intros Hrow r sent request.
  destruct (execute_option_puts menv self w Hrow) as [[H|H] Hok].
  - split; [left; apply puts_events, H|].
    intros b s E. apply puts_events, (Hok b s E).
  - split; [right; apply puts_events, H|].
    intros b s E. apply puts_events, (Hok b s E).
Qed.

Lemma execute_option_request_witness :
  let r := VmMenu.execute_option menv_ok (menu_a 1) world_a in
  let sent := List.filter is_put (new_events world_a (snd r)) in
  (sent = [] \/ sent = [EvPutPower "A" "off"]) /\
  (forall b s, fst r = Ok (b, s) -> sent = [EvPutPower "A" "off"]).
Proof. apply (execute_option_request menv_ok (menu_a 1) world_a). simpl. lia. Defined.

Lemma execute_option_back (menv : MenuEnv) (self : VmMenu.t) (w : World) :
  VmMenu.current_row self = 4%Z ->
  VmMenu.execute_option menv self w = (Ok (false, self), w).
Proof. intros H. unfold VmMenu.execute_option. rewrite H. reflexivity. Qed.

(** X10.  [VMMenu.handle_input] keeps the cursor on one of the five
    rows, and when it returns, it answers [False] (close the menu)
    exactly for Enter on the last row, Back to Main Menu. *)
Theorem handle_input_closes_on_back (menv : MenuEnv) (self : VmMenu.t) (key : Z)
    (w : World) (b : bool) (s : VmMenu.t) :
  (0 <= VmMenu.current_row self <= 4)%Z ->
  fst (VmMenu.handle_input menv self key w) = Ok (b, s) ->
  (0 <= VmMenu.current_row s <= 4)%Z /\
  (b = false <->
   (key = KEY_ENTER \/ key = KEY_NEWLINE) /\ VmMenu.current_row self = 4%Z).
Proof.
  intros Hrow. unfold VmMenu.handle_input, KEY_UP, KEY_DOWN, KEY_ENTER, KEY_NEWLINE.
  change (Z.of_nat (length VmMenu.options) - 1)%Z with 4%Z.
  destruct ((key =? 259) && (0 <? VmMenu.current_row self))%Z eqn:Eup.
  { intros E. inversion E; subst. simpl. apply andb_true_iff in Eup as [K R].
    split; [lia|]. split; [discriminate|]. lia. }
  destruct ((key =? 258) && (VmMenu.current_row self <? 4))%Z eqn:Edown.
  { intros E. inversion E; subst. simpl. apply andb_true_iff in Edown as [K R].
    split; [lia|]. split; [discriminate|]. lia. }
  destruct ((key =? 343) || (key =? 10))%Z eqn:Eenter.
  - assert (key = 343 \/ key = 10)%Z as Hk by lia.
    destruct (decide (VmMenu.current_row self = 4%Z)) as [H4|H4].
    + rewrite (execute_option_back menv self w H4). intros E. inversion E; subst.
      split; [lia|]. split; auto.
    + intros E.
      assert (0 <= VmMenu.current_row self <= 3)%Z as H3 by lia.
      destruct (execute_option_puts menv self w H3) as [_ Hok].
      destruct (Hok b s E) as (_ & -> & _ & _ & Hr).
      split; [lia|]. split; [discriminate|]. intros [_ ?]. contradiction.
  - intros E. inversion E; subst.
    split; [lia|]. split; [discriminate|]. lia.
Qed.

Lemma handle_input_closes_on_back_witness :
  (0 <= VmMenu.current_row (menu_a 4) <= 4)%Z /\
  (false = false <->
   (KEY_ENTER = KEY_ENTER \/ KEY_ENTER = KEY_NEWLINE) /\
   VmMenu.current_row (menu_a 4) = 4%Z).
Proof.
  apply (handle_input_closes_on_back menv_ok (menu_a 4) KEY_ENTER world_a false (menu_a 4));
    [simpl; lia | reflexivity].
Defined.

Section NoDetails.

Variable menv : MenuEnv.

Lemma get_vm_details_answer (id : string) (w : World) :
  fst (VmMenu.get_vm_details menv id w) = Ok (details_of (env_get_details menv (steps w) id)).
Proof.
  unfold VmMenu.get_vm_details, VmMenu.ask_menu. unfold_monad. simpl.
  destruct (env_get_details menv (steps w) id) as [e|[e|] [e'| |d]]; reflexivity.
Qed.

Lemma get_vm_details_steps (id : string) (w : World) :
  steps (snd (VmMenu.get_vm_details menv id w)) = S (steps w).
Proof.
  unfold VmMenu.get_vm_details, VmMenu.ask_menu. unfold_monad. simpl.
  destruct (env_get_details menv (steps w) id) as [e|[e|] [e'| |d]]; reflexivity.
Qed.

(** A poll that is due stores what its details request gave. *)
Lemma update_vm_info_poll (self : VmMenu.t) (w : World) (s : VmMenu.t) :
  VmMenu.update_due self (env_time (base_env menv) (steps w)) = true ->
  fst (VmMenu.update_vm_info menv self w) = Ok s ->
  VmMenu.vm_details s
  = Some (details_of (env_get_details menv (S (steps w)) (VmMenu.vm_id self))) /\
  VmMenu.power_state s <> None.
Proof.
  intros Hdue. unfold VmMenu.update_vm_info.
  unfold bind at 1. unfold time_time, ask. cbn [fst snd]. rewrite Hdue.
  unfold bind at 1.
  pose proof (get_vm_details_answer (VmMenu.vm_id self) (set_steps (S (steps w)) w)) as Ha.
  destruct (VmMenu.get_vm_details menv (VmMenu.vm_id self) (set_steps (S (steps w)) w))
    as [[d|e] w1]; simpl in Ha; [|discriminate Ha].
  inversion Ha; subst d. clear Ha.
  unfold bind at 1.
  match goal with |- context [get_vm_power_state ?e ?i ?x] =>
    destruct (get_vm_power_state e i x) as [[p|e'] w2] end; [|discriminate].
  match goal with |- context [if ?c then _ else _] => destruct c end;
    unfold_monad; simpl; intros E; inversion E; subst; simpl;
    (split; [reflexivity | discriminate]).
Qed.

(** Whatever it is given, [update_vm_info] returns the menu unchanged
    or one with details (maybe [None]) and a power state. *)
Lemma update_vm_info_state (self : VmMenu.t) :
  returns (VmMenu.update_vm_info menv self)
    (fun s => s = self \/
              (VmMenu.power_state s <> None /\ exists x, VmMenu.vm_details s = Some x)).
Proof.
  unfold VmMenu.update_vm_info.
  eapply returns_bind; [apply returns_true|]. intros ct _.
  destruct (VmMenu.update_due self ct); [|apply returns_ret; left; reflexivity].
  eapply returns_bind; [apply returns_true|]. intros d _.
  eapply returns_bind; [apply returns_true|]. intros p _.
  match goal with |- context [if ?c then _ else _] => destruct c end.
  - eapply returns_bind; [apply returns_true|]. intros _ _.
    apply returns_ret. right. simpl. split; [discriminate | eexists; reflexivity].
  - apply returns_ret. right. simpl. split; [discriminate | eexists; reflexivity].
Qed.

(** From a menu without details, [draw] returns only with details. *)
Lemma draw_details (self : VmMenu.t) :
  lacks_details self ->
  returns (VmMenu.draw menv self) (fun s => exists d, VmMenu.vm_details s = Some (Some d)).
Proof.
  intros Hl. unfold VmMenu.draw.
  eapply returns_bind; [apply returns_true|]. intros ct _.
  eapply returns_bind
    with (P := fun s => lacks_details s \/ exists d, VmMenu.vm_details s = Some (Some d)).
  { destruct (VmMenu.update_due self ct); [|apply returns_ret; left; exact Hl].
    eapply returns_weaken; [|apply update_vm_info_state].
    intros s [->|[Hp [[d|] Hd]]]; [left; exact Hl | right; exists d; exact Hd |].
    left. split; assumption. }
  intros s1 HP.
  eapply returns_bind
    with (P := fun s2 => VmMenu.vm_details s2 = VmMenu.vm_details s1 /\
                         VmMenu.power_state s2 = VmMenu.power_state s1).
  { unfold VmMenu.collect_messages.
    eapply returns_bind; [apply returns_true|]. intros msgs _. apply returns_ret.
    destruct (collect_attributes msgs s1) as (_ & _ & _ & _ & _ & _ & Hd & Hp & _).
    split; assumption. }
  intros s2 [Hd Hp].
  eapply returns_bind; [apply returns_true|]. intros _ _.
  rewrite Hd, Hp. destruct HP as [[Hn Hs]|[d Hdd]].
  - rewrite Hn. destruct (VmMenu.power_state s1) as [p|]; [|contradiction].
    eapply returns_bind with (P := fun _ => False); [|intros _ []].
    eapply returns_bind; [apply returns_true|]. intros _ _.
    apply returns_raise.
  - eapply returns_bind; [apply returns_true|]. intros _ _.
    eapply returns_bind; [apply returns_true|]. intros _ _.
    apply returns_ret. exists d. rewrite Hd. exact Hdd.
Qed.

(** Between two polls [draw] only collects the waiting messages. *)
Lemma draw_idle (self : VmMenu.t) (w : World) :
  VmMenu.update_due self (env_time (base_env menv) (steps w)) = false ->
  let r := VmMenu.draw menv self w in
  trace (snd r) = trace w /\ same_data w (snd r) /\
  forall s, fst r = Ok s -> s = VmMenu.collect (env_status_log menv (S (steps w))) self.
Proof.
  intros Hdue r. subst r. unfold VmMenu.draw, VmMenu.collect_messages.
  unfold bind, time_time, ask. cbn [fst snd]. rewrite Hdue.
  unfold VmMenu.curses_calls, VmMenu.ask_menu. unfold_monad. cbn [fst snd steps set_steps].
  set (s1 := VmMenu.collect _ self).
  repeat match goal with
         | |- context [match env_curses menv ?n with _ => _ end] =>
             destruct (env_curses menv n); cbn [fst snd steps set_steps]
         | |- context [match VmMenu.vm_details s1 with _ => _ end] =>
             destruct (VmMenu.vm_details s1) as [[?|]|]; cbn [fst snd steps set_steps]
         | |- context [match VmMenu.power_state s1 with _ => _ end] =>
             destruct (VmMenu.power_state s1) as [?|]; cbn [fst snd steps set_steps]
         end;
    (split; [reflexivity|]; split; [repeat split|]; intros s0 E; congruence).
Qed.

End NoDetails.

(** X11.  A VM menu whose last details request gave nothing
    ([vm_details] is [None], as [get_vm_details] leaves it on any
    failure) cannot be drawn until a poll brings details: [draw]
    raises (the status line tests ['cpu' in self.vm_details] on
    [None]) unless an update is due when it reads the clock and the
    menu it returns with has details.  And a poll that is due and
    whose details request fails leaves the menu in that state. *)
Theorem vm_menu_draw_fails_without_details (menv : MenuEnv) (self : VmMenu.t)
    (w : World) :
  lacks_details self ->
  (forall s, fst (VmMenu.draw menv self w) = Ok s ->
     VmMenu.update_due self (env_time (base_env menv) (steps w)) = true /\
     exists d, VmMenu.vm_details s = Some (Some d)) /\
  (VmMenu.update_due self (env_time (base_env menv) (steps w)) = false ->
   exists e, fst (VmMenu.draw menv self w) = Raise e) /\
  (forall s0 w0 s1,
     VmMenu.update_due s0 (env_time (base_env menv) (steps w0)) = true ->
     no_details (env_get_details menv (S (steps w0)) (VmMenu.vm_id s0)) = true ->
     fst (VmMenu.update_vm_info menv s0 w0) = Ok s1 ->
     lacks_details s1).
Proof.
  intros Hl.
  assert (forall s, fst (VmMenu.draw menv self w) = Ok s ->
            VmMenu.update_due self (env_time (base_env menv) (steps w)) = true /\
            exists d, VmMenu.vm_details s = Some (Some d)) as H1.
  { intros s E. pose proof (draw_details menv self Hl w s E) as (d & Hd).
    split; [|exists d; exact Hd].
    destruct (VmMenu.update_due self (env_time (base_env menv) (steps w))) eqn:Hdue;
      [reflexivity|].
    destruct (draw_idle menv self w Hdue) as (_ & _ & Hs).
    rewrite (Hs s E) in Hd.
    destruct (collect_attributes (env_status_log menv (S (steps w))) self)
      as (_ & _ & _ & _ & _ & _ & Hsame & _).
    destruct Hl as [Hn _]. congruence. }
  split; [exact H1|]. split.
  - intros Hdue. destruct (fst (VmMenu.draw menv self w)) as [s|e] eqn:E.
    + destruct (H1 s eq_refl) as [Ht _]. congruence.
    + exists e. reflexivity.
  - intros s0 w0 s1 Hdue Hno E.
    destruct (update_vm_info_poll menv s0 w0 s1 Hdue E) as [Hd Hp].
    split; [|exact Hp]. rewrite Hd. f_equal.
    destruct (env_get_details menv (S (steps w0)) (VmMenu.vm_id s0)) as [e|[e|] [e'| |d]];
      try reflexivity. discriminate Hno.
Qed.

Lemma vm_menu_draw_fails_without_details_witness :
  exists e, fst (VmMenu.draw menv_no_details menu_A_failed world_a) = Raise e.
Proof.
  destruct (vm_menu_draw_fails_without_details menv_no_details menu_A_failed world_a)
    as (_ & H & _).
  - split; [reflexivity | discriminate].
  - apply H. reflexivity.
Defined.

(** ** The main menu's keys *)


Lemma setup_windows_position (menv : MenuEnv) (self : VmMenu.t) :
  returns (VmMenu.setup_windows menv self) (same_position self).
Proof.
  unfold VmMenu.setup_windows.
  eapply returns_bind; [apply returns_true|]. intros width _.
  eapply returns_bind; [apply returns_true|]. intros _ _.
  apply returns_ret. repeat split.
Qed.

Lemma init_position (menv : MenuEnv) (id name : string) :
  returns (VmMenu.init menv id name)
    (fun m => VmMenu.vm_id m = id /\ VmMenu.vm_name m = name /\ VmMenu.current_row m = 0%Z).
Proof.
  unfold VmMenu.init.
  eapply returns_bind; [apply returns_true|]. intros _ _.
  eapply returns_bind; [apply setup_windows_position|]. intros s1 H1.
  eapply returns_bind; [apply update_vm_info_position|]. intros s2 H2.
  eapply returns_weaken; [|apply setup_windows_position]. intros s3 H3.
  destruct H1 as (A1 & B1 & C1), H2 as (A2 & B2 & C2), H3 as (A3 & B3 & C3).
  simpl in *. repeat split; congruence.
Qed.

(** X12.  In the main menu the arrow keys keep the cursor on a listed
    VM, and a VM menu is opened only by Enter: it is the menu of the VM
    in the cursor's row of [vm_list] (its id and name), with its own
    cursor on the first option, and the main cursor stays where it
    was. *)
Theorem main_handle_input_cursor (menv : MenuEnv) (row key : Z) (w : World)
    (row' : Z) (r : option VmMenu.t) :
  (0 <= row < Z.of_nat (length (vm_list (main_menu w))))%Z ->
  fst (MainMenuUi.handle_input menv row key w) = Ok (row', r) ->
  (0 <= row' < Z.of_nat (length (vm_list (main_menu w))))%Z /\
  (forall m, r = Some m ->
     (key = KEY_ENTER \/ key = KEY_NEWLINE) /\ row' = row /\
     exists vm, listed_vm w row = Some vm /\
                VmMenu.vm_id m = vm_id vm /\ VmMenu.vm_name m = vm_name vm /\
                VmMenu.current_row m = 0%Z).
Proof.
  intros Hrow. unfold MainMenuUi.handle_input, KEY_UP, KEY_DOWN, KEY_ENTER, KEY_NEWLINE.
  unfold bind at 1, gets. cbn [fst snd].
  destruct ((key =? 259) && (0 <? row))%Z eqn:Eup.
  { intros E. inversion E; subst. apply andb_true_iff in Eup as [K R].
    split; [lia|]. discriminate. }
  destruct ((key =? 258) && (row <? Z.of_nat (length (vm_list (main_menu w))) - 1))%Z
    eqn:Edown.
  { intros E. inversion E; subst. apply andb_true_iff in Edown as [K R].
    split; [lia|]. discriminate. }
  destruct (((key =? 343) || (key =? 10))%Z
            && match vm_list (main_menu w) with [] => false | _ => true end) eqn:Eenter.
  2: { intros E. inversion E; subst. split; [lia|]. discriminate. }
  apply andb_true_iff in Eenter as [Hk _].
  unfold py_index. destruct (0 <=? row)%Z eqn:E0; [|lia].
  unfold listed_vm.
  destruct (vm_list (main_menu w) !! Z.to_nat row) as [l|]; [|discriminate].
  unfold bind at 1. cbn [fst snd].
  destruct (heap w !! l) as [vm|]; [|discriminate].
  intros E.
  pose proof (init_position menv (vm_id vm) (vm_name vm) w) as Hi.
  unfold bind in E.
  destruct (VmMenu.init menv (vm_id vm) (vm_name vm) w) as [[m|e] w1];
    cbn [fst snd] in *; [|discriminate].
  inversion E; subst. split; [lia|].
  intros m' Hm. inversion Hm; subst.
  split; [lia|]. split; [reflexivity|]. exists vm. split; [reflexivity|].
  apply Hi. reflexivity.
Qed.

Lemma main_handle_input_cursor_witness :
  exists vm, listed_vm world_a 0 = Some vm /\ VmMenu.vm_id menu_A_new = vm_id vm.
Proof.
  destruct (main_handle_input_cursor menv_ok 0 KEY_ENTER world_a 0 (Some menu_A_new))
    as [_ H]; [simpl; lia | reflexivity |].
  destruct (H menu_A_new eq_refl) as (_ & _ & vm & Hvm & Hid & _).
  exists vm. split; assumption.
Defined.

(** X13.  The cursor is not moved when the list shrinks: if [vm_list]
    is not empty but has no row [row] any more, Enter raises IndexError
    and opens nothing. *)
Theorem main_handle_input_stale_row (menv : MenuEnv) (row key : Z) (w : World) :
  (0 < Z.of_nat (length (vm_list (main_menu w))) <= row)%Z ->
  key = KEY_ENTER \/ key = KEY_NEWLINE ->
  MainMenuUi.handle_input menv row key w = (Raise index_error, w).
Proof.
  intros Hrow Hk. unfold MainMenuUi.handle_input.
  unfold bind, gets. cbn [fst snd].
  replace ((key =? KEY_UP) && (0 <? row))%Z with false
    by (unfold KEY_UP, KEY_ENTER, KEY_NEWLINE in *; lia).
  replace ((key =? KEY_DOWN) && (row <? Z.of_nat (length (vm_list (main_menu w))) - 1))%Z
    with false by (unfold KEY_DOWN, KEY_ENTER, KEY_NEWLINE in *; lia).
  replace ((key =? KEY_ENTER) || (key =? KEY_NEWLINE))%Z with true
    by (unfold KEY_ENTER, KEY_NEWLINE in *; lia).
  destruct (vm_list (main_menu w)) as [|l0 ls] eqn:El; [simpl in Hrow; lia|].
  cbn [andb]. unfold py_index.
  destruct (0 <=? row)%Z eqn:E0; [|lia].
  rewrite lookup_ge_None_2; [reflexivity|]. lia.
Qed.

Lemma main_handle_input_stale_row_witness :
  MainMenuUi.handle_input menv_ok 1 KEY_ENTER world_a = (Raise index_error, world_a).
Proof.
  apply (main_handle_input_stale_row menv_ok 1 KEY_ENTER world_a);
    [simpl; lia | left; reflexivity].
Defined.

(** ** Polling from the VM menu *)

(** X14.  [get_vm_details] never raises: it returns the JSON object of
    the response, and [None] when the request raises, the status is an
    error or the body cannot be read.  It keeps no cache: every call
    asks the hypervisor, and the inventory, the power-state cache and
    the VM dictionaries are left as they were. *)
Theorem get_vm_details_outcome (menv : MenuEnv) (id : string) (w : World) :
  let w' := snd (VmMenu.get_vm_details menv id w) in
  fst (VmMenu.get_vm_details menv id w) = Ok (details_of (env_get_details menv (steps w) id))
  /\ steps w' = S (steps w) /\ same_data w w'.
Proof.
  unfold VmMenu.get_vm_details, VmMenu.ask_menu. unfold_monad. simpl.
  destruct (env_get_details menv (steps w) id) as [e|[e|] [e'| |d]]; simpl;
    repeat split; reflexivity.
Qed.

Lemma keep_last_py_last (k : nat) (l : list string) : VmMenu.keep_last k l = py_last k l.
Proof.
  unfold VmMenu.keep_last. destruct (k <? length l)%nat eqn:E; [reflexivity|].
  apply Nat.ltb_ge in E. symmetry. apply py_last_short. exact E.
Qed.

(** What the loop of [collect_messages] does to the three lists. *)
Lemma collect_message_lists (msgs : list string) (self : VmMenu.t) :
  let s := fold_left VmMenu.collect_message msgs self in
  VmMenu.cached_messages s = (VmMenu.cached_messages self ++ msgs)%list /\
  VmMenu.api_messages s
  = (VmMenu.api_messages self ++ List.filter is_api_call msgs)%list /\
  VmMenu.log_messages s
  = (VmMenu.log_messages self
     ++ List.filter (fun msg => negb (is_api_call msg)) msgs)%list.
Proof.
  revert self. induction msgs as [|m ms IH]; intros self; cbn [fold_left List.filter].
  - rewrite !app_nil_r. repeat split.
  - destruct (IH (VmMenu.collect_message self m)) as (Hc & Ha & Hl).
    cbv zeta. rewrite Hc, Ha, Hl. unfold VmMenu.collect_message, is_api_call.
    destruct (py_in "API CALL:" m); simpl; rewrite <- ?app_assoc; repeat split.
Qed.

(** X15.  The VM menu polls at most once per [update_interval]: when
    [draw] reads the clock less than [update_interval] after
    [last_update], it sends no request and logs nothing and changes no
    cache.  Of the menu it changes only the three lists of collected
    messages, by what is waiting in the queue: every message goes to
    [cached_messages], those with "API CALL:" to [api_messages], the
    others to [log_messages], and each list keeps its last thousand. *)
Theorem draw_between_updates (menv : MenuEnv) (self : VmMenu.t) (w : World) :
  VmMenu.update_due self (env_time (base_env menv) (steps w)) = false ->
  let r := VmMenu.draw menv self w in
  let waiting := env_status_log menv (S (steps w)) in
  trace (snd r) = trace w /\ same_data w (snd r) /\
  forall s, fst r = Ok s ->
    same_attributes self s /\
    VmMenu.cached_messages s
    = py_last 1000 (VmMenu.cached_messages self ++ waiting) /\
    VmMenu.api_messages s
    = py_last 1000 (VmMenu.api_messages self ++ List.filter is_api_call waiting) /\
    VmMenu.log_messages s
    = py_last 1000 (VmMenu.log_messages self
                    ++ List.filter (fun msg => negb (is_api_call msg)) waiting).
Proof.
  intros Hdue r waiting. subst r.
  destruct (draw_idle menv self w Hdue) as (Ht & Hd & Hs).
  split; [exact Ht|]. split; [exact Hd|].
  intros s E. rewrite (Hs s E). fold waiting.
  split; [apply collect_attributes|].
  destruct (collect_message_lists waiting self) as (Hc & Ha & Hl).
  unfold VmMenu.collect, VmMenu.max_messages. simpl.
  rewrite !keep_last_py_last, Hc, Ha, Hl. repeat split.
Qed.

Lemma draw_between_updates_witness :
  let r := VmMenu.draw menv_waiting (menu_a 0) world_a in
  trace (snd r) = trace world_a /\ same_data world_a (snd r) /\
  forall s, fst r = Ok s ->
    same_attributes (menu_a 0) s /\
    VmMenu.cached_messages s
    = ["[INFO] 12:00:00 - API CALL: GET /vms (List VMs)"; "[INFO] 12:00:01 - ready"] /\
    VmMenu.api_messages s = ["[INFO] 12:00:00 - API CALL: GET /vms (List VMs)"] /\
    VmMenu.log_messages s = ["[INFO] 12:00:01 - ready"].
Proof. apply (draw_between_updates menv_waiting (menu_a 0) world_a). reflexivity. Defined.

(** ** The VM visibility screen *)


(** X16.  On the VM visibility screen with at least one VM, whatever
    key is pressed the cursor stays on a VM or on Back and never rests
    on the spacing row between them, unless Enter on Back left the
    screen; the list is not changed, and [handle_vm_selection] always
    answers [True]: the configuration menu is never closed from this
    screen. *)
Theorem vm_selection_cursor (hidden : gset string) (self : ConfigMenuUi.t) (key : Z)
    (w : World) (b : bool) (s : ConfigMenuUi.t) (hidden' : gset string) :
  ConfigMenuUi.vm_list self <> [] ->
  on_selectable_row self ->
  fst (ConfigMenuUi.handle_vm_selection hidden self key w) = Ok (b, s, hidden') ->
  b = true /\ ConfigMenuUi.vm_list s = ConfigMenuUi.vm_list self /\
  (ConfigMenuUi.in_vm_selection s = ConfigMenuUi.in_vm_selection self /\
   on_selectable_row s \/
   ConfigMenuUi.in_vm_selection s = false /\ ConfigMenuUi.current_row s = 0%Z).
Proof.
  intros Hne [Hrow Hsp]. unfold on_selectable_row.
  assert (0 < Z.of_nat (length (ConfigMenuUi.vm_list self)))%Z as Hn
    by (destruct (ConfigMenuUi.vm_list self); [contradiction | simpl; lia]).
  unfold ConfigMenuUi.handle_vm_selection, KEY_UP, KEY_DOWN, KEY_ENTER, KEY_NEWLINE.
  set (n := Z.of_nat (length (ConfigMenuUi.vm_list self))) in *.
  destruct ((key =? 259) && (0 <? ConfigMenuUi.current_row self))%Z eqn:Eup.
  { intros E. inversion E; subst. apply andb_true_iff in Eup as [K R].
    split; [reflexivity|]. split; [reflexivity|]. left. split; [reflexivity|].
    simpl. fold n. destruct (ConfigMenuUi.current_row self - 1 =? n)%Z eqn:En; lia. }
  destruct ((key =? 258) && (ConfigMenuUi.current_row self <? n + 2 - 1))%Z eqn:Edown.
  { intros E. inversion E; subst. apply andb_true_iff in Edown as [K R].
    split; [reflexivity|]. split; [reflexivity|]. left. split; [reflexivity|].
    simpl. fold n. destruct (ConfigMenuUi.current_row self + 1 =? n)%Z eqn:En; lia. }
  destruct ((key =? 343) || (key =? 10))%Z.
  2: { intros E. inversion E; subst. split; [reflexivity|]. split; [reflexivity|].
       left. split; [reflexivity|]. split; assumption. }
  destruct (n <? ConfigMenuUi.current_row self)%Z.
  { intros E. inversion E; subst. split; [reflexivity|]. split; [reflexivity|].
    right. split; reflexivity. }
  destruct (py_index (ConfigMenuUi.vm_list self) (ConfigMenuUi.current_row self)) as [l|];
    [|discriminate].
  unfold bind, gets. cbn [fst snd].
  destruct (heap w !! l) as [vm|]; [|discriminate].
  destruct (negb (String.eqb (vm_id vm) "")); [destruct (decide _)|];
    intros E; inversion E; subst; (split; [reflexivity|]); (split; [reflexivity|]);
    left; (split; [reflexivity|]); simpl; fold n; split; assumption.
Qed.

Lemma vm_selection_cursor_witness :
  on_selectable_row (ConfigMenuUi.set_current_row 2 cfg_a).
Proof.
  destruct (vm_selection_cursor ∅ cfg_a KEY_DOWN world_a true
              (ConfigMenuUi.set_current_row 2 cfg_a) ∅)
    as (_ & _ & [[_ H]|[H _]]).
  - discriminate.
  - split; simpl; lia.
  - reflexivity.
  - exact H.
  - discriminate H.
Defined.

Lemma toggle_step (hidden : gset string) (self : ConfigMenuUi.t) (key : Z) (w : World)
    (l : loc) (vm : VM) :
  (key = KEY_ENTER \/ key = KEY_NEWLINE) ->
  (0 <= ConfigMenuUi.current_row self)%Z ->
  ConfigMenuUi.vm_list self !! Z.to_nat (ConfigMenuUi.current_row self) = Some l ->
  heap w !! l = Some vm -> vm_id vm <> "" ->
  exists s,
    ConfigMenuUi.handle_vm_selection hidden self key w
    = (Ok (true, s,
           if decide (vm_id vm ∈ hidden) then hidden ∖ {[vm_id vm]}
           else hidden ∪ {[vm_id vm]}), w) /\
    ConfigMenuUi.current_row s = ConfigMenuUi.current_row self /\
    ConfigMenuUi.vm_list s = ConfigMenuUi.vm_list self /\
    ConfigMenuUi.in_vm_selection s = ConfigMenuUi.in_vm_selection self.
Proof.
  intros Hk Hrow Hl Hvm Hid.
  pose proof (lookup_lt_Some _ _ _ Hl) as Hlt.
  unfold ConfigMenuUi.handle_vm_selection.
  replace ((key =? KEY_UP) && (0 <? ConfigMenuUi.current_row self))%Z with false
    by (unfold KEY_UP, KEY_ENTER, KEY_NEWLINE in *; lia).
  replace ((key =? KEY_DOWN) && _)%Z
    with false by (unfold KEY_DOWN, KEY_ENTER, KEY_NEWLINE in *; lia).
  replace ((key =? KEY_ENTER) || (key =? KEY_NEWLINE))%Z with true
    by (unfold KEY_ENTER, KEY_NEWLINE in *; lia).
  replace (Z.of_nat (length (ConfigMenuUi.vm_list self)) <? ConfigMenuUi.current_row self)%Z
    with false by lia.
  unfold py_index. replace (0 <=? ConfigMenuUi.current_row self)%Z with true by lia.
  rewrite Hl. unfold bind, gets. cbn [fst snd]. rewrite Hvm.
  replace (negb (String.eqb (vm_id vm) "")) with true.
  2: { symmetry. apply negb_true_iff, String.eqb_neq. exact Hid. }
  destruct (decide (vm_id vm ∈ hidden)); eexists; (split; [reflexivity|]);
    repeat split; reflexivity.
Qed.

(** X17.  Enter on a VM row toggles that VM in [hidden_vms] and nothing
    else: after one Enter the VM's id is hidden exactly if it was not
    before and every other id is as before; after a second Enter
    [hidden_vms] is the set it was.  Neither Enter moves the cursor,
    changes the list or leaves the screen. *)
Theorem vm_selection_toggle (hidden : gset string) (self : ConfigMenuUi.t) (key : Z)
    (w : World) (l : loc) (vm : VM) :
  (key = KEY_ENTER \/ key = KEY_NEWLINE) ->
  (0 <= ConfigMenuUi.current_row self)%Z ->
  ConfigMenuUi.vm_list self !! Z.to_nat (ConfigMenuUi.current_row self) = Some l ->
  heap w !! l = Some vm -> vm_id vm <> "" ->
  exists s1 h1 s2,
    ConfigMenuUi.handle_vm_selection hidden self key w = (Ok (true, s1, h1), w) /\
    ConfigMenuUi.handle_vm_selection h1 s1 key w = (Ok (true, s2, hidden), w) /\
    (vm_id vm ∈ h1 <-> vm_id vm ∉ hidden) /\
    (forall id, id <> vm_id vm -> (id ∈ h1 <-> id ∈ hidden)) /\
    (forall s, s = s1 \/ s = s2 ->
       ConfigMenuUi.current_row s = ConfigMenuUi.current_row self /\
       ConfigMenuUi.vm_list s = ConfigMenuUi.vm_list self /\
       ConfigMenuUi.in_vm_selection s = ConfigMenuUi.in_vm_selection self).
Proof.
  intros Hk Hrow Hl Hvm Hid.
  destruct (toggle_step hidden self key w l vm Hk Hrow Hl Hvm Hid)
    as (s1 & E1 & R1 & L1 & V1).
  set (h1 := if decide (vm_id vm ∈ hidden) then hidden ∖ {[vm_id vm]}
             else hidden ∪ {[vm_id vm]}) in *.
  assert (0 <= ConfigMenuUi.current_row s1)%Z as Hrow1 by (rewrite R1; exact Hrow).
  assert (ConfigMenuUi.vm_list s1 !! Z.to_nat (ConfigMenuUi.current_row s1) = Some l) as Hl1
    by (rewrite R1, L1; exact Hl).
  destruct (toggle_step h1 s1 key w l vm Hk Hrow1 Hl1 Hvm Hid)
    as (s2 & E2 & R2 & L2 & V2).
  exists s1, h1, s2. split; [exact E1|]. split; [|split; [|split]].
  - rewrite E2. repeat f_equal. subst h1. clear.
    destruct (decide (vm_id vm ∈ hidden)) as [Hin|Hin].
    + rewrite decide_False by (rewrite elem_of_difference, elem_of_singleton; tauto).
      apply set_eq. intros x.
      rewrite elem_of_union, elem_of_difference, !elem_of_singleton.
      destruct (decide (x = vm_id vm)) as [->|]; tauto.
    + rewrite decide_True by (rewrite elem_of_union, elem_of_singleton; tauto).
      apply set_eq. intros x.
      rewrite elem_of_difference, elem_of_union, !elem_of_singleton.
      destruct (decide (x = vm_id vm)) as [->|]; tauto.
  - subst h1. clear. destruct (decide (vm_id vm ∈ hidden)) as [Hin|Hin].
    + rewrite elem_of_difference, elem_of_singleton. tauto.
    + rewrite elem_of_union, elem_of_singleton. tauto.
  - subst h1. clear. intros id Hne.
    destruct (decide (vm_id vm ∈ hidden)) as [Hin|Hin].
    + rewrite elem_of_difference, elem_of_singleton. tauto.
    + rewrite elem_of_union, elem_of_singleton. tauto.
  - intros s [->| ->].
    + auto.
    + rewrite R2, L2, V2. auto.
Qed.

Lemma vm_selection_toggle_witness :
  exists (s1 : ConfigMenuUi.t) (h1 : gset string),
    ("A" ∈ h1 <-> "A" ∉ (∅ : gset string)) /\
    ConfigMenuUi.current_row s1 = ConfigMenuUi.current_row cfg_a.
Proof.
  destruct (vm_selection_toggle ∅ cfg_a KEY_ENTER world_a 0%nat vm_a)
    as (s1 & h1 & s2 & _ & _ & H & _ & Hs).
  - left. reflexivity.
  - simpl. lia.
  - reflexivity.
  - reflexivity.
  - discriminate.
  - exists s1, h1. split; [exact H|]. apply (Hs s1). left. reflexivity.
Defined.

(** X18.  With an empty VM list the visibility screen cannot be used
    with Enter: from the first row, where the screen starts, Enter
    raises IndexError. *)
Theorem vm_selection_empty_list (hidden : gset string) (self : ConfigMenuUi.t) (key : Z)
    (w : World) :
  ConfigMenuUi.vm_list self = [] ->
  ConfigMenuUi.current_row self = 0%Z ->
  (key = KEY_ENTER \/ key = KEY_NEWLINE) ->
  ConfigMenuUi.handle_vm_selection hidden self key w = (Raise index_error, w).
Proof.
  intros Hl Hr Hk. unfold ConfigMenuUi.handle_vm_selection. rewrite Hl, Hr.
  replace ((key =? KEY_UP) && (0 <? 0))%Z with false by lia.
  replace ((key =? KEY_DOWN) && _)%Z
    with false by (unfold KEY_DOWN, KEY_ENTER, KEY_NEWLINE in *; simpl; lia).
  replace ((key =? KEY_ENTER) || (key =? KEY_NEWLINE))%Z with true
    by (unfold KEY_ENTER, KEY_NEWLINE in *; lia).
  reflexivity.
Qed.

Lemma vm_selection_empty_list_witness :
  ConfigMenuUi.handle_vm_selection ∅ cfg_empty KEY_ENTER world_a
  = (Raise index_error, world_a).
Proof.
  apply (vm_selection_empty_list ∅ cfg_empty KEY_ENTER world_a);
    [reflexivity | reflexivity | left; reflexivity].
Defined.
